(** * GPTQ / AWQ -> Marlin repacking

    Shallow embedding of
    [server/text_generation_server/layers/marlin/gptq.py]:
    the Marlin weight loader, the repacking routine
    [repack_gptq_for_marlin], the AWQ zero-point conversion
    [awq_to_marlin_zero_points] and the tile validator
    [_check_valid_shape], with the properties the specification states
    about them. *)

From Stdlib Require Import ZArith List Bool Lia Sorted Permutation.
From stdpp Require Import gmap strings list fin_maps.

Local Open Scope Z_scope.

(** ** Exceptions and the error monad *)

(** Python exception classes raised or caught in this module.
    [NotImplementedError] is a subclass of [RuntimeError], which is what
    [except RuntimeError] matches on. *)
Inductive exn_class : Set :=
  | RuntimeError
  | NotImplementedError
  | ValueError
  | AssertionError
  | IndexError
  | PyException.

(** The messages.  The ones this module formats itself keep their
    interpolated values as arguments; [MsgForeign] is the text of an
    exception coming from torch or from an external kernel. *)
Inductive message : Set :=
  | MsgCannotLoadRepack (quantize : string)
      (* "Cannot load `{quantize}` weight for GPTQ -> Marlin repacking,
          make sure the model is already quantized" *)
  | MsgCannotLoad (quantize : string) (full_stop : bool)
      (* "Cannot load `{quantize}` weight, make sure the model is
          already quantized", followed by a full stop at line 122 and
          by none at line 160 *)
  | MsgBitsUnsupported (bits : Z)
      (* "Repacking {bits}-bit GPTQ weights as Marlin is not supported,
          must be one of: 4, 8" *)
  | MsgGroupSizeUnsupported (groupsize : Z)
      (* "Repacking GPTQ weights with group size {groupsize} as Marlin is
          not supported, must be one of: -1, 32, 64, 128" *)
  | MsgAsymmetricUnsupported
      (* "Repacking GPTQ weights with asymmetric quantization as Marlin
          is not supported." *)
  | MsgNotDivisible (in_features groupsize : Z)
      (* "Number of input features ({in_features}) not divisible by
          group size ({groupsize})" *)
  | MsgNumBits (num_bits : Z)
      (* "num_bits must be 4 or 8, got {num_bits}" *)
  | MsgInvalidShape (out_features in_features : Z)
      (* "The GPTQ Marlin kernel does not have a valid thread
          configuration for weight matrix with shape (...)" *)
  | MsgWeightMissing (tensor_name : string)
      (* raised by the weight storage for a name it does not hold *)
  | MsgAssert
  | MsgForeign (text : string).

Record exn : Set := Raise { exn_cls : exn_class; exn_msg : message }.

Inductive result (A : Type) : Type :=
  | Ok (a : A)
  | Err (e : exn).
Arguments Ok {A} a.
Arguments Err {A} e.

(** Sequencing: [x ← m; k] runs [m] and stops at the first exception. *)
#[global] Instance result_bind : MBind result := fun A B k m =>
  match m with
  | Ok a => k a
  | Err e => Err e
  end.

#[global] Instance result_ret : MRet result := fun A a => Ok a.

(** [raise_unless c e]: the statement [if not c: raise e]. *)
Definition raise_unless (c : bool) (e : exn) : result unit :=
  if c then Ok tt else Err e.

(** [assert c]. *)
Definition py_assert (c : bool) : result unit :=
  raise_unless c (Raise AssertionError MsgAssert).

(** [isinstance(e, RuntimeError)], as [except RuntimeError] tests it. *)
Definition is_RuntimeError (e : exn) : bool :=
  match exn_cls e with
  | RuntimeError | NotImplementedError => true
  | _ => false
  end.

(** [try: m  except RuntimeError: raise e']. *)
Definition try_except_RuntimeError {A} (m : result A) (e' : exn) : result A :=
  match m with
  | Ok a => Ok a
  | Err e => if is_RuntimeError e then Err e' else Err e
  end.

(** Exceptions of external code: a class and an opaque text. *)
Definition foreign (A : Type) : Type := (A + exn_class * string)%type.

Definition lift_foreign {A} (r : foreign A) : result A :=
  match r with
  | inl a => Ok a
  | inr (c, s) => Err (Raise c (MsgForeign s))
  end.

(** ** The tile validator *)

(** [_check_valid_shape], lines 474-481.  Python's [%] with a positive
    modulus is [Z.modulo]. *)
Definition _check_valid_shape (in_features out_features : Z) : result unit :=
  if (negb (in_features mod 128 =? 0) || negb (out_features mod 64 =? 0))
     && (negb (in_features mod 64 =? 0) || negb (out_features mod 128 =? 0))
  then Err (Raise ValueError (MsgInvalidShape out_features in_features))
  else Ok tt.

(** ** Tensors

    A tensor is its dtype, device, shape and the elements in row-major
    (contiguous) order.  Integer elements are kept as [Z]; a conversion
    to a narrower integer type wraps. *)

Inductive DType : Set := int32 | int64 | float16 | bfloat16 | float32.

#[global] Instance DType_eq_dec : EqDecision DType.
Proof. solve_decision. Defined.

Inductive Device : Set := cpu | cuda (index : nat).

Record Tensor : Set := mkTensor {
  dtype : DType;
  device : Device;
  shape : list nat;
  data : list Z
}.

Definition numel (t : Tensor) : nat := length (data t).

(** [torch.empty(0, dtype=torch.int, device=d)]. *)
Definition torch_empty_int (d : Device) : Tensor :=
  mkTensor int32 d [0%nat] [].

(** Two's-complement wrap to 32 bits. *)
Definition wrap_int32 (x : Z) : Z := (x + 2 ^ 31) mod 2 ^ 32 - 2 ^ 31.

(** [t.to(torch.int)] on an integer tensor. *)
Definition to_int (t : Tensor) : Tensor :=
  mkTensor int32 (device t) (shape t) (map wrap_int32 (data t)).

(** [t.shape[i]]. *)
Definition shape_at (t : Tensor) (i : nat) : result Z :=
  match shape t !! i with
  | Some n => Ok (Z.of_nat n)
  | None => Err (Raise IndexError (MsgForeign "tuple index out of range"))
  end.

Fixpoint mapM {A B} (f : A -> result B) (l : list A) : result (list B) :=
  match l with
  | [] => Ok []
  | x :: l' => y ← f x; ys ← mapM f l'; Ok (y :: ys)
  end.

(** The first [r] rows of width [c] of a row-major element list. *)
Fixpoint rows {A} (c r : nat) (l : list A) : list (list A) :=
  match r with
  | O => []
  | S r' => take c l :: rows c r' (drop c l)
  end.

(** Python indexing into a dimension of size [n]: negative indices count
    from the end, anything else out of range raises. *)
Definition py_index (n : nat) (i : Z) : result nat :=
  let i' := if i <? 0 then i + Z.of_nat n else i in
  if (0 <=? i') && (i' <? Z.of_nat n) then Ok (Z.to_nat i')
  else Err (Raise IndexError (MsgForeign "index out of range")).

Definition py_getitem (l : list Z) (i : Z) : result Z :=
  k ← py_index (length l) i; Ok (nth k l 0).

(** [t[idx]] for an integer index tensor: selection along dimension 0. *)
Definition index_tensor (t idx : Tensor) : result Tensor :=
  match shape t with
  | [] => Err (Raise IndexError (MsgForeign "invalid index of a 0-dim tensor"))
  | n :: rest =>
      let width := fold_right Nat.mul 1%nat rest in
      sel ← mapM (fun i => k ← py_index n i;
                            Ok (take width (drop (k * width) (data t))))
                  (data idx);
      Ok (mkTensor (dtype t) (device t) (shape idx ++ rest) (concat sel))
  end.

(** [t.reshape((-1, c))]. *)
Definition reshape_rows (t : Tensor) (c : Z) : result Tensor :=
  if (0 <? c) && (Z.of_nat (numel t) mod c =? 0)
  then Ok (mkTensor (dtype t) (device t)
             [(numel t / Z.to_nat c)%nat; Z.to_nat c] (data t))
  else Err (Raise RuntimeError (MsgForeign "shape is invalid for input size")).

(** [t[:, idx]] for a two-dimensional [t] and a list of column indices. *)
Definition index_cols (t : Tensor) (idx : list Z) : result Tensor :=
  match shape t with
  | [r; c] =>
      sel ← mapM (fun row => mapM (py_getitem row) idx) (rows c r (data t));
      Ok (mkTensor (dtype t) (device t) [r; length idx] (concat sel))
  | _ => Err (Raise IndexError (MsgForeign "too many indices for tensor"))
  end.

Definition ravel (t : Tensor) : Tensor :=
  mkTensor (dtype t) (device t) [numel t] (data t).

Definition contiguous (t : Tensor) : Tensor := t.

(** ** Sorting *)

(** Insertion of index [i] into a list of indices ordered by their keys
    in [l]; [before a b] says whether a new key [a] goes in front of an
    older key [b]. *)
Fixpoint insert_index (before : Z -> Z -> bool) (l : list Z) (i : nat)
    (acc : list nat) : list nat :=
  match acc with
  | [] => [i]
  | j :: acc' =>
      if before (nth i l 0) (nth j l 0) then i :: acc
      else j :: insert_index before l i acc'
  end.

Definition argsort_with (before : Z -> Z -> bool) (l : list Z) : list nat :=
  fold_left (fun acc i => insert_index before l i acc) (seq 0 (length l)) [].

(** The permutation that stable-sorts the indices of [l] by their key,
    ascending: an index moves in front of the earlier ones only when its
    key is strictly smaller. *)
Definition stable_argsort (l : list Z) : list nat := argsort_with Z.ltb l.

(** A sort that is not stable: an index also moves in front of earlier
    indices with an equal key. *)
Definition tie_reversing_argsort (l : list Z) : list nat :=
  argsort_with Z.leb l.

(** [numpy.argsort(numpy.array(l))].  It is only applied to the two
    interleave tables below, whose entries are distinct, so the result
    does not depend on the sorting algorithm. *)
Definition numpy_argsort (l : list Z) : list Z :=
  map Z.of_nat (stable_argsort l).

(** [torch.argsort] is called without [stable=True]: torch then returns
    indices that sort the keys and leaves the relative order of equal
    keys unspecified.  The sorting routine is therefore a parameter with
    torch's contract. *)
Class TorchSort : Type := {
  argsort_keys : list Z -> list nat;
  argsort_keys_perm : forall l, Permutation (argsort_keys l) (seq 0 (length l));
  argsort_keys_sorted :
    forall l, Sorted Z.le (map (fun i => nth i l 0) (argsort_keys l))
}.

(** [torch.argsort(t)]: an int64 tensor of the shape of [t], sorting
    along the last dimension. *)
Definition torch_argsort `{TorchSort} (t : Tensor) : Tensor :=
  let c := List.last (shape t) 1%nat in
  mkTensor int64 (device t) (shape t)
    (concat (map (fun row => map Z.of_nat (argsort_keys row))
               (rows c (numel t / c) (data t)))).

(** ** External kernels and helpers

    The Marlin kernels ([quantization], loaded only on CUDA) and the
    helpers imported from [layers.marlin.util] are not part of this
    module; they are parameters.  What they raise is foreign to this
    module. *)

Record Quantization : Type := {
  awq_marlin_repack : Tensor -> Z -> Z -> Z -> foreign Tensor;
  gptq_marlin_repack : Tensor -> Tensor -> Z -> Z -> Z -> foreign Tensor
}.

Class Runtime : Type := {
  quantization : option Quantization;
  _check_marlin_kernels : foreign unit;
  permute_scales : Tensor -> foreign Tensor;
  unpack_cols : Tensor -> Z -> Z -> Z -> foreign Tensor;
  marlin_zero_points : Tensor -> Z -> Z -> Z -> foreign Tensor
}.

(** The operations of torch the loader applies to what it reads:
    [t.to(dtype=d)], whose conversion of the elements (a rounding
    between floating-point formats) is torch's and which gives [t] back
    when it has the dtype already, [torch.cat] and
    [torch.testing.assert_close]. *)
Class TorchTensors : Type := {
  convert : DType -> DType -> list Z -> list Z;
  convert_same : forall d l, convert d d l = l;
  torch_cat : list Tensor -> Z -> foreign Tensor;
  assert_close : Tensor -> Tensor -> foreign unit
}.

(** [t.to(dtype=d)]. *)
Definition to_dtype `{TorchTensors} (t : Tensor) (d : DType) : Tensor :=
  mkTensor d (device t) (shape t) (convert (dtype t) d (data t)).

Definition GPTQ_MARLIN_BITS : list Z := [4; 8].
Definition GPTQ_MARLIN_GROUP_SIZES : list Z := [-1; 32; 64; 128].
Definition MARLIN_TILE_SIZE : Z := 16.

(** [x in l] / [x not in l] on integer lists. *)
Definition py_in (x : Z) (l : list Z) : bool := existsb (Z.eqb x) l.

(** ** The repacked weight *)

Module GPTQMarlinWeight.

Record t : Type := mk {
  qweight : Tensor;
  qzeros : Tensor;
  scales : Tensor;
  g_idx : Tensor;
  perm : Tensor;
  bits : Z;
  is_full_k : bool
}.

(** [__post_init__], lines 266-270. *)
Definition __post_init__ (self : t) : result unit :=
  py_assert (bool_decide (dtype (qweight self) = int32));;
  py_assert (bool_decide (dtype (scales self) = float16)
             || bool_decide (dtype (scales self) = bfloat16));;
  py_assert (bool_decide (dtype (g_idx self) = int32));;
  py_assert (bool_decide (dtype (perm self) = int32)).

(** The dataclass constructor: the generated [__init__] stores the
    fields and calls [__post_init__]. *)
Definition new (qweight qzeros scales g_idx perm : Tensor) (bits : Z)
    (is_full_k : bool) : result t :=
  let self := mk qweight qzeros scales g_idx perm bits is_full_k in
  __post_init__ self;; Ok self.

End GPTQMarlinWeight.

(** ** Zero-point conversion and repacking *)

Section Repacking.
Context `{TorchSort} `{Runtime}.

(** Lines 460-465: the inverse of the AWQ interleave, by bit width. *)
Definition undo_interleave_for (num_bits : Z) : result (list Z) :=
  if num_bits =? 4 then Ok (numpy_argsort [0; 2; 4; 6; 1; 3; 5; 7])
  else if num_bits =? 8 then Ok (numpy_argsort [0; 2; 1; 3])
  else Err (Raise PyException (MsgNumBits num_bits)).

(** Lines 460-468: the shuffle-undo step on the unpacked zero-points. *)
Definition undo_interleaving (q_zp : Tensor) (size_n num_bits : Z)
    : result Tensor :=
  undo_interleave ← undo_interleave_for num_bits;
  q_zp ← reshape_rows q_zp (Z.of_nat (length undo_interleave));
  q_zp ← index_cols q_zp undo_interleave;
  let q_zp := ravel q_zp in
  q_zp ← reshape_rows q_zp size_n;
  Ok (contiguous q_zp).

(** [awq_to_marlin_zero_points], lines 450-471. *)
Definition awq_to_marlin_zero_points (q_zp_packed : Tensor)
    (size_k size_n num_bits : Z) : result Tensor :=
  q_zp ← lift_foreign (unpack_cols q_zp_packed num_bits size_k size_n);
  q_zp ← undo_interleaving q_zp size_n num_bits;
  lift_foreign (marlin_zero_points q_zp size_k size_n num_bits).

(** [repack_gptq_for_marlin], lines 279-368.  The [log_once] call has
    no effect on the result and is left out. *)
Definition repack_gptq_for_marlin (qweight : Tensor)
    (qzeros : option Tensor) (scales : Tensor) (g_idx : option Tensor)
    (bits : Z) (desc_act : bool) (groupsize : Z) (quant_method : string)
    (sym sharded_infeatures : bool) : result GPTQMarlinWeight.t :=
  lift_foreign _check_marlin_kernels;;
  kernels ← match quantization with
             | Some q => Ok q
             | None => Err (Raise AssertionError MsgAssert)
             end;
  raise_unless (py_in bits GPTQ_MARLIN_BITS)
    (Raise RuntimeError (MsgBitsUnsupported bits));;
  raise_unless (py_in groupsize GPTQ_MARLIN_GROUP_SIZES)
    (Raise RuntimeError (MsgGroupSizeUnsupported groupsize));;
  raise_unless (sym || String.eqb quant_method "awq"
                || String.eqb quant_method "compressed-tensors")
    (Raise RuntimeError MsgAsymmetricUnsupported);;
  let weights_per_int := 32 / bits in
  in_features ← shape_at qweight 0;
  out_features ← shape_at qweight 1;
  (* AWQ uses column packing, GPTQ uses row packing *)
  let out_features :=
    if String.eqb quant_method "awq" then out_features * weights_per_int
    else out_features in
  let in_features :=
    if String.eqb quant_method "awq" then in_features
    else in_features * weights_per_int in
  raise_unless (in_features mod groupsize =? 0)
    (Raise ValueError (MsgNotDivisible in_features groupsize));;
  pg ← match g_idx with
        | Some g =>
            if desc_act && negb (groupsize =? -1) then
              let perm := to_int (torch_argsort g) in
              g' ← index_tensor g perm;
              Ok (perm, g')
            else Ok (torch_empty_int (device qweight),
                     torch_empty_int (device qweight))
        | None => Ok (torch_empty_int (device qweight),
                      torch_empty_int (device qweight))
        end;
  let perm := fst pg in
  let g_idx := snd pg in
  rz ← (if String.eqb quant_method "awq" then
           repacked ← lift_foreign
             (awq_marlin_repack kernels qweight in_features out_features bits);
           match qzeros with
           | Some z =>
               z' ← awq_to_marlin_zero_points z (in_features / groupsize)
                       out_features bits;
               Ok (repacked, Some z')
           | None => Ok (repacked, None)
           end
         else
           repacked ← lift_foreign
             (gptq_marlin_repack kernels qweight perm in_features
                out_features bits);
           Ok (repacked, qzeros));
  let repacked := fst rz in
  let qzeros := match snd rz with
                | Some z => z
                | None => torch_empty_int (device qweight)
                end in
  scales ← lift_foreign (permute_scales scales);
  let is_full_k :=
    negb (desc_act && negb (groupsize =? -1) && sharded_infeatures) in
  GPTQMarlinWeight.new repacked qzeros scales g_idx perm bits is_full_k.

End Repacking.

(** ** Weight storage and the loader *)

(** Modelled from the spec: the storage boundary [Weights]
    ([utils/weights.py], outside this module): "tensor lookup by name
    ([{prefix}.qweight], [.scales], [.qzeros], [.g_idx]), with
    sharded/column-sliced and row-sliced variants for tensor-parallel
    loading; absence of a required tensor must surface as [LoadError],
    not a crash", a [LoadError] being "surfaced with the missing
    tensor's logical name and a remediation hint".  A lookup of a name
    the storage does not hold raises that error, [MsgWeightMissing] with
    the name; the handlers of the loader catch it as a [RuntimeError].
    The slice a rank receives, of a tensor or of its packed blocks, is
    left abstract. *)
Record Weights : Type := {
  tensors : gmap string Tensor;
  slice_of_rank : Tensor -> Z -> Tensor;
  packed_slice_of_rank : Tensor -> Z -> Z + list Z -> Tensor;
  weights_dtype : DType;
  process_group_size : Z
}.

Definition get_tensor (weights : Weights) (tensor_name : string)
    : result Tensor :=
  match tensors weights !! tensor_name with
  | Some t => Ok t
  | None => Err (Raise RuntimeError (MsgWeightMissing tensor_name))
  end.

Definition get_sharded (weights : Weights) (tensor_name : string) (dim : Z)
    : result Tensor :=
  t ← get_tensor weights tensor_name;
  Ok (slice_of_rank weights t dim).

(** [block_sizes] is an int or a list of ints. *)
Definition get_packed_sharded (weights : Weights) (tensor_name : string)
    (dim : Z) (block_sizes : Z + list Z) : result Tensor :=
  t ← get_tensor weights tensor_name;
  Ok (packed_slice_of_rank weights t dim block_sizes).

Module GPTQMarlinWeightsLoader.

Record t : Type := mk {
  bits : Z;
  desc_act : bool;
  groupsize : Z;
  quant_method : string;
  quantize : string;
  sym : bool
}.

Section Loading.
Context `{TorchSort} `{Runtime} `{TorchTensors}.

(** [get_weights], lines 77-108. *)
Definition get_weights (self : t) (weights : Weights) (prefix : string)
    : result GPTQMarlinWeight.t :=
  qweight ← try_except_RuntimeError
              (get_tensor weights (prefix +:+ ".qweight"))
              (Raise RuntimeError (MsgCannotLoadRepack (quantize self)));
  qzeros ← (if negb (sym self) then
              z ← get_tensor weights (prefix +:+ ".qzeros"); Ok (Some z)
            else Ok None);
  g_idx ← (if String.eqb (quant_method self) "awq" then Ok None
           else g ← get_tensor weights (prefix +:+ ".g_idx"); Ok (Some g));
  scales ← get_tensor weights (prefix +:+ ".scales");
  repack_gptq_for_marlin qweight qzeros scales g_idx (bits self)
    (desc_act self) (groupsize self) (quant_method self) (sym self) false.

(** [get_weights_col_packed], lines 110-151. *)
Definition get_weights_col_packed (self : t) (weights : Weights)
    (prefix : string) (block_sizes : Z + list Z)
    : result GPTQMarlinWeight.t :=
  qweight ← try_except_RuntimeError
              (get_packed_sharded weights (prefix +:+ ".qweight") 1
                 block_sizes)
              (Raise RuntimeError (MsgCannotLoad (quantize self) true));
  scales ← get_packed_sharded weights (prefix +:+ ".scales") 1 block_sizes;
  let scales := to_dtype scales (weights_dtype weights) in
  qzeros ← (if negb (sym self) then
              z ← get_packed_sharded weights (prefix +:+ ".qzeros") 1
                    block_sizes;
              Ok (Some z)
            else Ok None);
  g_idx ← (if String.eqb (quant_method self) "awq" then Ok None
           else g ← get_tensor weights (prefix +:+ ".g_idx"); Ok (Some g));
  repack_gptq_for_marlin qweight qzeros scales g_idx (bits self)
    (desc_act self) (groupsize self) (quant_method self) (sym self) false.

(** [get_multi_weights_col], lines 153-193.  The list comprehensions
    look the tensors up prefix by prefix and stop at the first lookup
    that raises; [dim] is not used by the body.  With no prefix at all,
    [w[1:]] is empty and [w[0]] raises [IndexError]. *)
Definition get_multi_weights_col (self : t) (weights : Weights)
    (prefixes : list string) (dim : Z) : result GPTQMarlinWeight.t :=
  qweight ← try_except_RuntimeError
              (ts ← mapM (fun p => get_sharded weights (p +:+ ".qweight") 1)
                      prefixes;
               lift_foreign (torch_cat ts 1))
              (Raise RuntimeError (MsgCannotLoad (quantize self) false));
  scales ← (ts ← mapM (fun p => get_sharded weights (p +:+ ".scales") 1)
                   prefixes;
            lift_foreign (torch_cat ts 1));
  qzeros ← (if negb (sym self) then
              z ← (ts ← mapM (fun p =>
                                 get_sharded weights (p +:+ ".qzeros") 1)
                            prefixes;
                   lift_foreign (torch_cat ts 1));
              Ok (Some z)
            else Ok None);
  g_idx ← (if String.eqb (quant_method self) "awq" then Ok None
           else
             w ← mapM (fun p => get_tensor weights (p +:+ ".g_idx"))
                   prefixes;
             match w with
             | [] => Err (Raise IndexError
                            (MsgForeign "list index out of range"))
             | w0 :: rest =>
                 mapM (fun w2 => lift_foreign (assert_close w2 w0)) rest;;
                 Ok (Some w0)
             end);
  repack_gptq_for_marlin qweight qzeros scales g_idx (bits self)
    (desc_act self) (groupsize self) (quant_method self) (sym self) false.

(** [get_weights_row], lines 195-235. *)
Definition get_weights_row (self : t) (weights : Weights) (prefix : string)
    : result GPTQMarlinWeight.t :=
  qweight ← try_except_RuntimeError
              (get_sharded weights (prefix +:+ ".qweight") 0)
              (Raise RuntimeError (MsgCannotLoadRepack (quantize self)));
  qzeros ← (if negb (sym self) then
              z ← (if desc_act self || (groupsize self =? -1) then
                     get_tensor weights (prefix +:+ ".qzeros")
                   else get_sharded weights (prefix +:+ ".qzeros") 0);
              Ok (Some z)
            else Ok None);
  g_idx ← (if String.eqb (quant_method self) "awq" then Ok None
           else g ← get_sharded weights (prefix +:+ ".g_idx") 0;
                Ok (Some g));
  scales ← (if desc_act self || (groupsize self =? -1) then
              get_tensor weights (prefix +:+ ".scales")
            else get_sharded weights (prefix +:+ ".scales") 0);
  let sharded_in_features := process_group_size weights >? 1 in
  repack_gptq_for_marlin qweight qzeros scales g_idx (bits self)
    (desc_act self) (groupsize self) (quant_method self) (sym self)
    sharded_in_features.

End Loading.

End GPTQMarlinWeightsLoader.

(** ** Error kinds of the specification *)

(** A [ConfigurationError]: one of the four constraint violations of the
    validation gate. *)
Definition is_ConfigurationError (e : exn) : bool :=
  match e with
  | Raise RuntimeError (MsgBitsUnsupported _)
  | Raise RuntimeError (MsgGroupSizeUnsupported _)
  | Raise RuntimeError MsgAsymmetricUnsupported
  | Raise ValueError (MsgNotDivisible _ _) => true
  | _ => false
  end.

(** A [LoadError]: a tensor is missing from storage. *)
Definition is_LoadError (e : exn) : bool :=
  match e with
  | Raise RuntimeError (MsgCannotLoadRepack _)
  | Raise RuntimeError (MsgCannotLoad _ _)
  | Raise RuntimeError (MsgWeightMissing _) => true
  | _ => false
  end.

(** The remediation hint of the loader's own errors, "make sure the
    model is already quantized" (lines 83, 122, 160 and 201). *)
Definition loader_hint (m : message) : bool :=
  match m with
  | MsgCannotLoadRepack _ | MsgCannotLoad _ _ => true
  | _ => false
  end.

(** Modelled from the spec: the remediation hint of the storage's
    missing-tensor error, which is outside this module; a [LoadError] is
    "surfaced with the missing tensor's logical name and a remediation
    hint" (section 7). *)
Definition storage_hint (m : message) : bool :=
  match m with
  | MsgWeightMissing _ => true
  | _ => false
  end.

Definition has_remediation_hint (e : exn) : bool :=
  loader_hint (exn_msg e) || storage_hint (exn_msg e).

(** ** Notions used in the statements *)

(** The dtype invariant asserted by [__post_init__]. *)
Definition dtype_invariant (w : GPTQMarlinWeight.t) : Prop :=
  dtype (GPTQMarlinWeight.qweight w) = int32
  /\ (dtype (GPTQMarlinWeight.scales w) = float16
      \/ dtype (GPTQMarlinWeight.scales w) = bfloat16)
  /\ dtype (GPTQMarlinWeight.g_idx w) = int32
  /\ dtype (GPTQMarlinWeight.perm w) = int32.

(** Exceptions that are not raised by the validation gate: those of
    torch and of the external primitives, failed assertions, and the
    bit-width error of the zero-point conversion. *)
Definition raised_outside_gate (e : exn) : bool :=
  match exn_msg e with
  | MsgForeign _ | MsgAssert | MsgNumBits _ => true
  | _ => false
  end.

(** The Marlin kernels are available: the two checks ahead of the
    validation gate, [_check_marlin_kernels()] and
    [assert quantization is not None] (lines 293-294), pass. *)
Definition kernels_available `{Runtime} : Prop :=
  _check_marlin_kernels = inl tt /\ quantization <> None.

(** The exception of lines 293-294 when the kernels are not available:
    what [_check_marlin_kernels] raises, or else the failed
    assertion. *)
Definition kernel_availability_error `{Runtime} (e : exn) : Prop :=
  (exists c s, _check_marlin_kernels = inr (c, s)
               /\ e = Raise c (MsgForeign s))
  \/ (_check_marlin_kernels = inl tt /\ quantization = None
      /\ e = Raise AssertionError MsgAssert).

(** [w] with its zero-points replaced by [z]. *)
Definition with_qzeros (z : Tensor) (w : GPTQMarlinWeight.t)
    : GPTQMarlinWeight.t :=
  GPTQMarlinWeight.mk (GPTQMarlinWeight.qweight w) z
    (GPTQMarlinWeight.scales w) (GPTQMarlinWeight.g_idx w)
    (GPTQMarlinWeight.perm w) (GPTQMarlinWeight.bits w)
    (GPTQMarlinWeight.is_full_k w).

(** The row-packed zero-point path as the specification words it:
    unpack, then repack into the canonical layout, with no shuffle-undo
    in between. *)
Definition spec_unpack_then_repack `{Runtime} (qzeros : Tensor)
    (size_k size_n num_bits : Z) : result Tensor :=
  q_zp ← lift_foreign (unpack_cols qzeros num_bits size_k size_n);
  lift_foreign (marlin_zero_points q_zp size_k size_n num_bits).

(** The AWQ interleave of the lanes of a packed word (lines 461, 463). *)
Definition awq_interleave (num_bits : Z) : list nat :=
  if num_bits =? 4 then [0; 2; 4; 6; 1; 3; 5; 7]%nat else [0; 2; 1; 3]%nat.

(** Its inverse, as [numpy.argsort] computes it. *)
Definition awq_undo_interleave (num_bits : Z) : list nat :=
  if num_bits =? 4 then [0; 4; 1; 5; 2; 6; 3; 7]%nat else [0; 2; 1; 3]%nat.

(** Each block of [length idx] consecutive values reordered by [idx], the
    way [x.reshape((-1, len(idx)))[:, idx].ravel()] does it. *)
Definition gather_blocks (idx : list nat) (l : list Z) : list Z :=
  concat (map (fun row => map (fun j => nth j row 0) idx)
            (rows (length idx) (length l / length idx) l)).

(** How a load of one prefix reacts to a required tensor that storage
    does not hold, for the loads that look the tensors up in the order
    [qweight], [qzeros], [g_idx], [scales]: the first missing one
    decides the error, which is the loader's own error [msg] for
    [qweight] and the storage's error, naming the tensor, for the
    others. *)
Definition missing_tensor_behaviour (self : GPTQMarlinWeightsLoader.t)
    (weights : Weights) (prefix : string) (msg : message)
    (call : result GPTQMarlinWeight.t) : Prop :=
  let missing suffix := tensors weights !! (prefix +:+ suffix) = None in
  let present suffix := tensors weights !! (prefix +:+ suffix) <> None in
  let sym := GPTQMarlinWeightsLoader.sym self in
  let quant_method := GPTQMarlinWeightsLoader.quant_method self in
  (missing ".qweight" -> call = Err (Raise RuntimeError msg))
  /\ (present ".qweight" -> sym = false -> missing ".qzeros" ->
      call = Err (Raise RuntimeError (MsgWeightMissing (prefix +:+ ".qzeros"))))
  /\ (present ".qweight" -> sym = true \/ present ".qzeros" ->
      quant_method <> "awq" -> missing ".g_idx" ->
      call = Err (Raise RuntimeError (MsgWeightMissing (prefix +:+ ".g_idx"))))
  /\ (present ".qweight" -> sym = true \/ present ".qzeros" ->
      quant_method = "awq" \/ present ".g_idx" -> missing ".scales" ->
      call = Err (Raise RuntimeError (MsgWeightMissing (prefix +:+ ".scales"))))
  /\ (missing ".qweight" \/ (sym = false /\ missing ".qzeros")
      \/ (quant_method <> "awq" /\ missing ".g_idx") \/ missing ".scales" ->
      exists e, call = Err e /\ is_LoadError e = true
                /\ has_remediation_hint e = true
                /\ (loader_hint (exn_msg e) = true <-> missing ".qweight")).

(** The same for [get_weights_col_packed], which looks the tensors up in
    the order [qweight], [scales], [qzeros], [g_idx]. *)
Definition missing_tensor_behaviour_col_packed
    (self : GPTQMarlinWeightsLoader.t) (weights : Weights) (prefix : string)
    (msg : message) (call : result GPTQMarlinWeight.t) : Prop :=
  let missing suffix := tensors weights !! (prefix +:+ suffix) = None in
  let present suffix := tensors weights !! (prefix +:+ suffix) <> None in
  let sym := GPTQMarlinWeightsLoader.sym self in
  let quant_method := GPTQMarlinWeightsLoader.quant_method self in
  (missing ".qweight" -> call = Err (Raise RuntimeError msg))
  /\ (present ".qweight" -> missing ".scales" ->
      call = Err (Raise RuntimeError (MsgWeightMissing (prefix +:+ ".scales"))))
  /\ (present ".qweight" -> present ".scales" -> sym = false ->
      missing ".qzeros" ->
      call = Err (Raise RuntimeError (MsgWeightMissing (prefix +:+ ".qzeros"))))
  /\ (present ".qweight" -> present ".scales" ->
      sym = true \/ present ".qzeros" ->
      quant_method <> "awq" -> missing ".g_idx" ->
      call = Err (Raise RuntimeError (MsgWeightMissing (prefix +:+ ".g_idx"))))
  /\ (missing ".qweight" \/ missing ".scales"
      \/ (sym = false /\ missing ".qzeros")
      \/ (quant_method <> "awq" /\ missing ".g_idx") ->
      exists e, call = Err e /\ is_LoadError e = true
                /\ has_remediation_hint e = true
                /\ (loader_hint (exn_msg e) = true <-> missing ".qweight")).

(** [p] is the first of the prefixes whose [suffix] tensor is missing. *)
Definition first_missing (weights : Weights) (prefixes : list string)
    (suffix p : string) : Prop :=
  exists pre post,
    prefixes = pre ++ p :: post
    /\ Forall (fun q => tensors weights !! (q +:+ suffix) <> None) pre
    /\ tensors weights !! (p +:+ suffix) = None.

(** [torch.cat([weights.get_sharded(f"{p}{suffix}", dim=1) for p in
    prefixes], dim=1)], as lines 155-157, 163-165 and 168-170 have
    it. *)
Definition cat_of_shards `{TorchTensors} (weights : Weights)
    (prefixes : list string) (suffix : string) : result Tensor :=
  ts ← mapM (fun p => get_sharded weights (p +:+ suffix) 1) prefixes;
  lift_foreign (torch_cat ts 1).

(** An exception of [torch.cat] on the shards of tensors that are all in
    storage. *)
Definition raised_by_cat `{TorchTensors} (weights : Weights)
    (prefixes : list string) (e : exn) : Prop :=
  exists suffix ts c s,
    mapM (fun p => get_sharded weights (p +:+ suffix) 1) prefixes = Ok ts
    /\ torch_cat ts 1 = inr (c, s)
    /\ e = Raise c (MsgForeign s).

(** The same for [get_multi_weights_col], which looks up, for every
    prefix in turn, first all [qweight], then all [scales], all [qzeros]
    and all [g_idx], and concatenates in between.  A missing [qweight]
    of any prefix gives the loader's own error; where the earlier
    concatenations went through, the first prefix with a missing
    tensor decides the storage's error; and a load with a missing
    tensor never gives a result. *)
Definition missing_tensor_behaviour_multi `{TorchTensors}
    (self : GPTQMarlinWeightsLoader.t) (weights : Weights)
    (prefixes : list string) (msg : message)
    (call : result GPTQMarlinWeight.t) : Prop :=
  let missing_for suffix :=
    exists p, In p prefixes /\ tensors weights !! (p +:+ suffix) = None in
  let loaded suffix :=
    exists t, cat_of_shards weights prefixes suffix = Ok t in
  let sym := GPTQMarlinWeightsLoader.sym self in
  let quant_method := GPTQMarlinWeightsLoader.quant_method self in
  (missing_for ".qweight" -> call = Err (Raise RuntimeError msg))
  /\ (forall p, loaded ".qweight" ->
      first_missing weights prefixes ".scales" p ->
      call = Err (Raise RuntimeError (MsgWeightMissing (p +:+ ".scales"))))
  /\ (forall p, loaded ".qweight" -> loaded ".scales" -> sym = false ->
      first_missing weights prefixes ".qzeros" p ->
      call = Err (Raise RuntimeError (MsgWeightMissing (p +:+ ".qzeros"))))
  /\ (forall p, loaded ".qweight" -> loaded ".scales" ->
      sym = true \/ loaded ".qzeros" -> quant_method <> "awq" ->
      first_missing weights prefixes ".g_idx" p ->
      call = Err (Raise RuntimeError (MsgWeightMissing (p +:+ ".g_idx"))))
  /\ (missing_for ".qweight" \/ missing_for ".scales"
      \/ (sym = false /\ missing_for ".qzeros")
      \/ (quant_method <> "awq" /\ missing_for ".g_idx") ->
      exists e, call = Err e
                /\ ((is_LoadError e = true /\ has_remediation_hint e = true)
                    \/ raised_by_cat weights prefixes e)).

(** ** Insertion sort of indices meets torch's contract *)

Section ArgsortWith.
Variable before : Z -> Z -> bool.
Hypothesis before_le : forall a b, before a b = true -> a <= b.
Hypothesis before_ge : forall a b, before a b = false -> b <= a.
Variable l : list Z.

Let key (i : nat) : Z := nth i l 0.
Let key_le (i j : nat) : Prop := key i <= key j.

Lemma insert_index_perm (i : nat) (acc : list nat) :
  Permutation (insert_index before l i acc) (i :: acc).
Proof.
  induction acc as [|j acc IH]; simpl.
  - reflexivity.
  - destruct (before _ _).
    + reflexivity.
    + rewrite IH. apply perm_swap.
Qed.

Lemma insert_index_HdRel (i j : nat) (acc : list nat) :
  key_le j i -> HdRel key_le j acc ->
  HdRel key_le j (insert_index before l i acc).
Proof.
  intros Hji Hhd. destruct acc as [|k acc]; simpl.
  - constructor. exact Hji.
  - destruct (before _ _); constructor.
    + exact Hji.
    + inversion Hhd; assumption.
Qed.

Lemma insert_index_sorted (i : nat) (acc : list nat) :
  Sorted key_le acc -> Sorted key_le (insert_index before l i acc).
Proof.
  induction acc as [|j acc IH]; simpl; intros Hs.
  - repeat constructor.
  - inversion Hs as [|? ? Hs' Hhd]; subst.
    destruct (before (nth i l 0) (nth j l 0)) eqn:E.
    + constructor; [exact Hs|]. constructor.
      apply before_le. exact E.
    + constructor; [apply IH; exact Hs'|].
      apply insert_index_HdRel; [|exact Hhd].
      apply before_ge. exact E.
Qed.

Lemma fold_insert_perm (idxs acc : list nat) :
  Permutation
    (fold_left (fun acc i => insert_index before l i acc) idxs acc)
    (idxs ++ acc).
Proof.
  revert acc. induction idxs as [|i idxs IH]; intros acc; simpl.
  - reflexivity.
  - rewrite IH, insert_index_perm. symmetry. apply Permutation_middle.
Qed.

Lemma fold_insert_sorted (idxs acc : list nat) :
  Sorted key_le acc ->
  Sorted key_le (fold_left (fun acc i => insert_index before l i acc) idxs acc).
Proof.
  revert acc. induction idxs as [|i idxs IH]; intros acc Hs; simpl.
  - exact Hs.
  - apply IH, insert_index_sorted, Hs.
Qed.

Lemma argsort_with_perm :
  Permutation (argsort_with before l) (seq 0 (length l)).
Proof.
  unfold argsort_with. rewrite fold_insert_perm, app_nil_r. reflexivity.
Qed.

Lemma Sorted_map_key (p : list nat) :
  Sorted key_le p -> Sorted Z.le (map (fun i => nth i l 0) p).
Proof.
  induction 1 as [|i p Hs IH Hhd]; simpl; constructor.
  - exact IH.
  - destruct Hhd; simpl; constructor. assumption.
Qed.

Lemma argsort_with_sorted :
  Sorted Z.le (map (fun i => nth i l 0) (argsort_with before l)).
Proof.
  apply Sorted_map_key. unfold argsort_with.
  apply fold_insert_sorted. constructor.
Qed.
End ArgsortWith.

(** ** Reference instances of the parameters *)

Module Reference.

(** A stable [torch.argsort]. *)
Definition stable_sort : TorchSort :=
  {| argsort_keys := stable_argsort;
     argsort_keys_perm :=
       argsort_with_perm Z.ltb;
     argsort_keys_sorted :=
       argsort_with_sorted Z.ltb
         (fun a b E => Z.lt_le_incl _ _ (proj1 (Z.ltb_lt a b) E))
         (fun a b E => proj1 (Z.ltb_ge a b) E) |}.

(** A [torch.argsort] meeting the same contract that reverses ties. *)
Definition tie_reversing_sort : TorchSort :=
  {| argsort_keys := tie_reversing_argsort;
     argsort_keys_perm :=
       argsort_with_perm Z.leb;
     argsort_keys_sorted :=
       argsort_with_sorted Z.leb
         (fun a b E => proj1 (Z.leb_le a b) E)
         (fun a b E => Z.lt_le_incl _ _ (proj1 (Z.leb_gt a b) E)) |}.

Definition pack_factor (num_bits : Z) : Z := 32 / num_bits.

(** The [lanes] fields of [num_bits] bits of a packed word, lowest
    first. *)
Definition unpack_word (num_bits : Z) (lanes : nat) (w : Z) : list Z :=
  map (fun i => Z.land (Z.shiftr w (num_bits * Z.of_nat i))
                       (2 ^ num_bits - 1))
      (seq 0 lanes).

(** The word holding the given fields, lowest first. *)
Definition pack_word (num_bits : Z) (vals : list Z) : Z :=
  wrap_int32
    (fold_right (fun v acc => Z.lor v (Z.shiftl acc num_bits)) 0 vals).

(** Modelled from the spec: [unpack_columns] (sections 4.3 and 6),
    "input packed tensor + bit-width + logical K/N -> unpacked tensor
    of shape (groups, out_features) with values in [0, 2^bits)". *)
Definition unpack_cols (packed : Tensor) (num_bits size_k size_n : Z)
    : foreign Tensor :=
  if bool_decide (shape packed
                  = [Z.to_nat size_k; Z.to_nat (size_n / pack_factor num_bits)])
     && (size_n mod pack_factor num_bits =? 0)
  then inl (mkTensor int32 (device packed)
              [Z.to_nat size_k; Z.to_nat size_n]
              (concat (map (unpack_word num_bits
                              (Z.to_nat (pack_factor num_bits)))
                         (data packed))))
  else inr (AssertionError, "packed shape does not match (size_k, size_n)").

(** Modelled from the spec: [repack_zero_points] (sections 4.3 and 6),
    "the inverse of unpack_columns, targeting canonical layout": every
    [32 // num_bits] consecutive values of a row are packed into one
    word, lowest field first.  The comment at lines 453-456 speaks of a
    Marlin permutation applied before the packing; neither the source
    nor the specification gives it, and this instance applies none. *)
Definition marlin_zero_points (zp : Tensor) (size_k size_n num_bits : Z)
    : foreign Tensor :=
  let lanes := Z.to_nat (pack_factor num_bits) in
  if bool_decide (shape zp = [Z.to_nat size_k; Z.to_nat size_n])
     && (size_n mod pack_factor num_bits =? 0)
  then inl (mkTensor int32 (device zp)
              [Z.to_nat size_k; Z.to_nat (size_n / pack_factor num_bits)]
              (map (pack_word num_bits)
                 (rows lanes (numel zp / lanes) (data zp))))
  else inr (AssertionError, "shape does not match (size_k, size_n)").

(** Modelled from the spec: the tile-repack primitives
    [row_packed_repack] and [column_packed_repack] (section 6).  Their
    bit layout is not specified; this instance keeps the packed words
    in place and produces an int32 tensor of [in_features / 16] rows. *)
Definition tile_repack (packed_weight : Tensor)
    (in_features out_features bits : Z) : foreign Tensor :=
  inl (mkTensor int32 (device packed_weight)
         [Z.to_nat (in_features / MARLIN_TILE_SIZE);
          Z.to_nat (out_features * MARLIN_TILE_SIZE / pack_factor bits)]
         (data packed_weight)).

Definition kernels : Quantization :=
  {| awq_marlin_repack := tile_repack;
     gptq_marlin_repack := fun qweight _ => tile_repack qweight |}.

(** Modelled from the spec: [repack_scales] (section 6), "tile-order
    permutation of a floating-point matrix, no value change"; this
    instance is the trivial permutation.  The kernels are available. *)
Definition runtime : Runtime :=
  Build_Runtime (Some kernels) (inl tt) (fun t => inl t)
    unpack_cols marlin_zero_points.

(** The same runtime with zero-point primitives that cannot be run. *)
Definition runtime_without_zero_point_primitives : Runtime :=
  Build_Runtime (Some kernels) (inl tt) (fun t => inl t)
    (fun _ _ _ _ => inr (NotImplementedError, "unpack_cols"))
    (fun _ _ _ _ => inr (NotImplementedError, "marlin_zero_points")).

(** Not on CUDA: [quantization] is [None] (lines 19-24). *)
Definition runtime_without_kernels : Runtime :=
  Build_Runtime None (inl tt) (fun t => inl t)
    unpack_cols marlin_zero_points.

(** [_check_marlin_kernels] raises. *)
Definition runtime_failing_kernel_check : Runtime :=
  Build_Runtime None
    (inr (NotImplementedError,
          "marlin is only supported on CUDA"))
    (fun t => inl t) unpack_cols marlin_zero_points.

(** [torch.cat(ts, dim=1)] of two-dimensional tensors with the same
    number of rows: row [i] of the result is the concatenation of the
    rows [i]. *)
Definition cat_columns (ts : list Tensor) : foreign Tensor :=
  match ts with
  | [] => inr (RuntimeError, "expected a non-empty list of Tensors")
  | t0 :: _ =>
      match shape t0 with
      | [r; _] =>
          if forallb (fun t => bool_decide (length (shape t) = 2%nat)
                               && bool_decide (shape t !! 0%nat = Some r)) ts
          then inl (mkTensor (dtype t0) (device t0)
                      [r; list_sum (map (fun t => List.last (shape t) 0%nat)
                                      ts)]
                      (concat
                         (map (fun i =>
                                 concat
                                   (map (fun t =>
                                           let c := List.last (shape t) 0%nat in
                                           take c (drop (i * c) (data t)))
                                        ts))
                            (seq 0 r))))
          else inr (RuntimeError, "Sizes of tensors must match")
      | _ => inr (RuntimeError, "Sizes of tensors must match")
      end
  end.

(** Reference tensor operations: conversions keep the stored elements,
    [torch.cat] is defined along dimension 1, and two tensors are close
    when they hold the same elements. *)
Definition torch_tensors : TorchTensors :=
  {| convert := fun _ _ l => l;
     convert_same := fun _ _ => eq_refl;
     torch_cat := fun ts dim =>
       if dim =? 1 then cat_columns ts
       else inr (NotImplementedError, "dim");
     assert_close := fun a b =>
       if bool_decide (shape a = shape b) && bool_decide (data a = data b)
       then inl tt
       else inr (AssertionError, "Tensor-likes are not close") |}.

End Reference.

(** ** Concrete sources *)

Module Examples.

(** A 4-bit row-packed weight of 32 input and 1 output features: 4
    packed rows. *)
Definition qweight_32x1 : Tensor :=
  mkTensor int32 (cuda 0) [4%nat; 1%nat]
    [0x76543210; 0x01234567; 0x11111111; 0x22222222].

(** A 4-bit row-packed weight of 32 input and 8 output features. *)
Definition qweight_32x8 : Tensor :=
  mkTensor int32 (cuda 0) [4%nat; 8%nat] (repeat 0x76543210 32).

(** A 4-bit column-packed weight of 32 input and 8 output features. *)
Definition qweight_awq_32x8 : Tensor :=
  mkTensor int32 (cuda 0) [32%nat; 1%nat] (repeat 0x76543210 32).

(** One group of scales for one output feature (float16 1.0). *)
Definition scales_1x1 : Tensor :=
  mkTensor float16 (cuda 0) [1%nat; 1%nat] [0x3C00].

Definition scales_1x8 : Tensor :=
  mkTensor float16 (cuda 0) [1%nat; 8%nat] (repeat 0x3C00 8).

(** Zero-points of one group and 8 output features in one word. *)
Definition qzeros_1x8 : Tensor :=
  mkTensor int32 (cuda 0) [1%nat; 1%nat] [0x76543210].

(** The group index of 32 input features in a single group. *)
Definition g_idx_one_group : Tensor :=
  mkTensor int32 (cuda 0) [32%nat] (repeat 0 32).

(** A 4-bit row-packed weight of 24 input features: 3 packed rows. *)
Definition qweight_24x1 : Tensor :=
  mkTensor int32 (cuda 0) [3%nat; 1%nat]
    [0x76543210; 0x01234567; 0x11111111].

(** Unpacked zero-points of one group and 8 output features. *)
Definition unpacked_1x8 : Tensor :=
  mkTensor int32 (cuda 0) [1%nat; 8%nat] [10; 11; 12; 13; 14; 15; 16; 17].

(** A checkpoint that holds only the packed weight of [layer]. *)
Definition storage_qweight_only : Weights :=
  {| tensors := {[ "layer.qweight" := qweight_32x1 ]};
     slice_of_rank := fun t _ => t;
     packed_slice_of_rank := fun t _ _ => t;
     weights_dtype := float16;
     process_group_size := 1 |}.

(** A complete symmetric GPTQ checkpoint of [layer]. *)
Definition storage_gptq : Weights :=
  {| tensors := <[ "layer.qweight" := qweight_32x1 ]>
                (<[ "layer.g_idx" := g_idx_one_group ]>
                 {[ "layer.scales" := scales_1x1 ]});
     slice_of_rank := fun t _ => t;
     packed_slice_of_rank := fun t _ _ => t;
     weights_dtype := float16;
     process_group_size := 1 |}.

Definition loader_gptq : GPTQMarlinWeightsLoader.t :=
  GPTQMarlinWeightsLoader.mk 4 false 32 "gptq" "gptq" true.

Definition loader_awq : GPTQMarlinWeightsLoader.t :=
  GPTQMarlinWeightsLoader.mk 4 false 32 "awq" "awq" true.

(** The same group index stored as int64. *)
Definition g_idx_one_group_int64 : Tensor :=
  mkTensor int64 (cuda 0) [32%nat] (repeat 0 32).

(** A 4-bit row-packed weight of 64 input features, 8 packed rows, in
    two groups of 32, with its scales. *)
Definition qweight_64x1 : Tensor :=
  mkTensor int32 (cuda 0) [8%nat; 1%nat] (repeat 0x76543210 8).

Definition scales_2x1 : Tensor :=
  mkTensor float16 (cuda 0) [2%nat; 1%nat] [0x3C00; 0x4000].

(** An activation-order group index of the 64 input features: the
    features at even positions belong to group 1, those at odd positions
    to group 0. *)
Definition g_idx_act_order : Tensor :=
  mkTensor int32 (cuda 0) [64%nat] (concat (repeat [1; 0] 32)).

(** A checkpoint of [layer] that holds the packed weight and the group
    index, and no scales. *)
Definition storage_without_scales : Weights :=
  {| tensors := <[ "layer.qweight" := qweight_32x1 ]>
                {[ "layer.g_idx" := g_idx_one_group ]};
     slice_of_rank := fun t _ => t;
     packed_slice_of_rank := fun t _ _ => t;
     weights_dtype := float16;
     process_group_size := 1 |}.

(** An asymmetric AWQ loader. *)
Definition loader_awq_asymmetric : GPTQMarlinWeightsLoader.t :=
  GPTQMarlinWeightsLoader.mk 4 false 32 "awq" "awq" false.

(** A checkpoint with two projections whose scales have one and two
    rows; [q] has zero-points, [k] has none. *)
Definition storage_mismatched_scales : Weights :=
  {| tensors := <[ "q.qweight" := qweight_awq_32x8 ]>
                (<[ "q.scales" := scales_1x8 ]>
                 (<[ "q.qzeros" := qzeros_1x8 ]>
                  (<[ "k.qweight" := qweight_awq_32x8 ]>
                   {[ "k.scales" := scales_2x1 ]})));
     slice_of_rank := fun t _ => t;
     packed_slice_of_rank := fun t _ _ => t;
     weights_dtype := float16;
     process_group_size := 1 |}.

(** A checkpoint with two projections: [q] is complete, [k] has no
    scales. *)
Definition storage_two_projections : Weights :=
  {| tensors := <[ "q.qweight" := qweight_32x1 ]>
                (<[ "q.scales" := scales_1x1 ]>
                 (<[ "q.g_idx" := g_idx_one_group ]>
                  (<[ "k.qweight" := qweight_32x1 ]>
                   {[ "k.g_idx" := g_idx_one_group ]})));
     slice_of_rank := fun t _ => t;
     packed_slice_of_rank := fun t _ _ => t;
     weights_dtype := float16;
     process_group_size := 1 |}.

End Examples.

(** ** General facts about the embedding *)

Lemma bind_Ok {A B} (a : A) (k : A -> result B) : Ok a ≫= k = k a.
Proof. reflexivity. Qed.

Lemma bind_Err {A B} (e : exn) (k : A -> result B) : Err e ≫= k = Err e.
Proof. reflexivity. Qed.

(** The first action of a sequence [m ≫= k1 ≫= ...]. *)
Ltac bind_head m :=
  lazymatch m with
  | mbind _ ?m' => bind_head m'
  | _ => m
  end.

Lemma bind_Ok_inv {A B} (m : result A) (k : A -> result B) (b : B) :
  m ≫= k = Ok b -> exists a, m = Ok a /\ k a = Ok b.
Proof.
  destruct m as [a|e]; simpl; intros E; [eauto | discriminate].
Qed.

Lemma raise_unless_Ok_inv (c : bool) (e : exn) (u : unit) :
  raise_unless c e = Ok u -> c = true.
Proof. destruct c; [reflexivity | discriminate]. Qed.

Lemma raise_unless_true (e : exn) : raise_unless true e = Ok tt.
Proof. reflexivity. Qed.

Lemma py_in_bits (bits : Z) :
  py_in bits GPTQ_MARLIN_BITS = true <-> bits = 4 \/ bits = 8.
Proof.
  unfold py_in, GPTQ_MARLIN_BITS. simpl.
  destruct (Z.eqb_spec bits 4), (Z.eqb_spec bits 8); simpl;
    split; intros; try discriminate; try reflexivity; lia.
Qed.

Lemma py_in_group_sizes (g : Z) :
  py_in g GPTQ_MARLIN_GROUP_SIZES = true
  <-> g = -1 \/ g = 32 \/ g = 64 \/ g = 128.
Proof.
  unfold py_in, GPTQ_MARLIN_GROUP_SIZES. simpl.
  destruct (Z.eqb_spec g (-1)), (Z.eqb_spec g 32), (Z.eqb_spec g 64),
    (Z.eqb_spec g 128); simpl;
    split; intros; try discriminate; try reflexivity; lia.
Qed.

Lemma post_init_Ok_iff (w : GPTQMarlinWeight.t) :
  GPTQMarlinWeight.__post_init__ w = Ok tt <-> dtype_invariant w.
Proof.
  unfold GPTQMarlinWeight.__post_init__, dtype_invariant, py_assert,
    raise_unless.
  repeat case_bool_decide; simpl; split; intros; try discriminate;
    try reflexivity; intuition congruence.
Qed.

Lemma post_init_Err (w : GPTQMarlinWeight.t) :
  ~ dtype_invariant w ->
  GPTQMarlinWeight.__post_init__ w = Err (Raise AssertionError MsgAssert).
Proof.
  unfold GPTQMarlinWeight.__post_init__, dtype_invariant, py_assert,
    raise_unless.
  repeat case_bool_decide; simpl; intros; try reflexivity; exfalso; tauto.
Qed.

Lemma new_Ok_inv qweight qzeros scales g_idx perm bits is_full_k w :
  GPTQMarlinWeight.new qweight qzeros scales g_idx perm bits is_full_k = Ok w ->
  w = GPTQMarlinWeight.mk qweight qzeros scales g_idx perm bits is_full_k
  /\ dtype_invariant w.
Proof.
  unfold GPTQMarlinWeight.new. intros E.
  apply bind_Ok_inv in E as ([] & E1 & E2).
  injection E2 as <-. split; [reflexivity|].
  apply post_init_Ok_iff. exact E1.
Qed.

Section RepackFacts.
Context `{TorchSort} `{Runtime}.

(** What a successful call of [repack_gptq_for_marlin] went through. *)
Lemma repack_Ok_inv qweight qzeros scales g_idx bits desc_act groupsize
    quant_method sym sharded_infeatures w :
  repack_gptq_for_marlin qweight qzeros scales g_idx bits desc_act
    groupsize quant_method sym sharded_infeatures = Ok w ->
  exists kernels s0 s1 pg repacked zopt scales',
    quantization = Some kernels
    /\ py_in bits GPTQ_MARLIN_BITS = true
    /\ py_in groupsize GPTQ_MARLIN_GROUP_SIZES = true
    /\ sym || String.eqb quant_method "awq"
       || String.eqb quant_method "compressed-tensors" = true
    /\ shape_at qweight 0 = Ok s0
    /\ shape_at qweight 1 = Ok s1
    /\ match g_idx with
       | Some g =>
           if desc_act && negb (groupsize =? -1) then
             g' ← index_tensor g (to_int (torch_argsort g));
             Ok (to_int (torch_argsort g), g')
           else Ok (torch_empty_int (device qweight),
                    torch_empty_int (device qweight))
       | None => Ok (torch_empty_int (device qweight),
                     torch_empty_int (device qweight))
       end = Ok pg
    /\ (if String.eqb quant_method "awq" then
          match qzeros with
          | Some z =>
              exists z', awq_to_marlin_zero_points z (s0 / groupsize)
                           (s1 * (32 / bits)) bits = Ok z'
                         /\ zopt = Some z'
          | None => zopt = None
          end
        else zopt = qzeros)
    /\ w = GPTQMarlinWeight.mk repacked
             (match zopt with
              | Some z => z
              | None => torch_empty_int (device qweight)
              end)
             scales' (snd pg) (fst pg) bits
             (negb (desc_act && negb (groupsize =? -1) && sharded_infeatures))
    /\ dtype_invariant w.
Proof.
  unfold repack_gptq_for_marlin. intros E.
  apply bind_Ok_inv in E as (_ & _ & E).
  apply bind_Ok_inv in E as (kernels & Ek & E).
  apply bind_Ok_inv in E as (? & Eb%raise_unless_Ok_inv & E).
  apply bind_Ok_inv in E as (? & Eg%raise_unless_Ok_inv & E).
  apply bind_Ok_inv in E as (? & Es%raise_unless_Ok_inv & E).
  apply bind_Ok_inv in E as (s0 & E0 & E).
  apply bind_Ok_inv in E as (s1 & E1 & E).
  apply bind_Ok_inv in E as (? & _ & E).
  apply bind_Ok_inv in E as (pg & Epg & E).
  apply bind_Ok_inv in E as (rz & Erz & E).
  apply bind_Ok_inv in E as (scales' & _ & E).
  apply new_Ok_inv in E as (Ew & Hinv).
  exists kernels, s0, s1, pg, (fst rz), (snd rz), scales'.
  pose proof Hinv as (? & ? & ? & ?).
  repeat split; try assumption.
  - destruct quantization; [injection Ek as ->; reflexivity | discriminate].
  - destruct (String.eqb quant_method "awq").
    + apply bind_Ok_inv in Erz as (repacked & _ & Erz).
      destruct qzeros as [z|].
      * apply bind_Ok_inv in Erz as (z' & Ez & Erz).
        injection Erz as <-. exists z'. split; [exact Ez | reflexivity].
      * injection Erz as <-. reflexivity.
    + apply bind_Ok_inv in Erz as (repacked & _ & Erz).
      injection Erz as <-. reflexivity.
Qed.

End RepackFacts.

(** *** Where an exception of [repack_gptq_for_marlin] comes from *)

Lemma bind_Err_inv {A B} (m : result A) (k : A -> result B) (e : exn) :
  m ≫= k = Err e -> m = Err e \/ exists a, m = Ok a /\ k a = Err e.
Proof.
  destruct m as [a|e']; simpl; intros E; [right; eauto | left; congruence].
Qed.

Lemma raise_unless_Err_inv (c : bool) (e0 e : exn) :
  raise_unless c e0 = Err e -> c = false /\ e = e0.
Proof. destruct c; simpl; intros E; [discriminate | split; congruence]. Qed.

Lemma lift_foreign_Err {A} (r : foreign A) (e : exn) :
  lift_foreign r = Err e -> raised_outside_gate e = true.
Proof.
  destruct r as [a|[c s]]; simpl; intros E; [discriminate|].
  injection E as <-. reflexivity.
Qed.

Lemma mapM_Err {A B} (f : A -> result B) (l : list A) (e : exn) :
  mapM f l = Err e -> exists x, f x = Err e.
Proof.
  induction l as [|x l IH]; simpl; intros E; [discriminate|].
  apply bind_Err_inv in E as [E | (y & _ & E)]; [eauto|].
  apply bind_Err_inv in E as [E | (ys & _ & E)]; [auto | discriminate].
Qed.

Lemma py_index_Err (n : nat) (i : Z) (e : exn) :
  py_index n i = Err e -> raised_outside_gate e = true.
Proof.
  unfold py_index. destruct (_ && _); intros E; [discriminate|].
  injection E as <-. reflexivity.
Qed.

Lemma index_tensor_Err (t idx : Tensor) (e : exn) :
  index_tensor t idx = Err e -> raised_outside_gate e = true.
Proof.
  unfold index_tensor. destruct (shape t) as [|n rest]; intros E.
  - injection E as <-. reflexivity.
  - apply bind_Err_inv in E as [E | (sel & _ & E)]; [|discriminate].
    apply mapM_Err in E as (i & E).
    apply bind_Err_inv in E as [E | (k & _ & E)]; [|discriminate].
    exact (py_index_Err _ _ _ E).
Qed.

Lemma reshape_rows_Err (t : Tensor) (c : Z) (e : exn) :
  reshape_rows t c = Err e -> raised_outside_gate e = true.
Proof.
  unfold reshape_rows. destruct (_ && _); intros E; [discriminate|].
  injection E as <-. reflexivity.
Qed.

Lemma index_cols_Err (t : Tensor) (idx : list Z) (e : exn) :
  index_cols t idx = Err e -> raised_outside_gate e = true.
Proof.
  unfold index_cols. intros E.
  destruct (shape t) as [|r [|c [|]]];
    try (injection E as <-; reflexivity).
  apply bind_Err_inv in E as [E | (sel & _ & E)]; [|discriminate].
  apply mapM_Err in E as (row & E).
  apply mapM_Err in E as (i & E).
  apply bind_Err_inv in E as [E | (k & _ & E)]; [|discriminate].
  exact (py_index_Err _ _ _ E).
Qed.

Lemma undo_interleaving_Err (q_zp : Tensor) (size_n num_bits : Z) (e : exn) :
  undo_interleaving q_zp size_n num_bits = Err e ->
  raised_outside_gate e = true.
Proof.
  unfold undo_interleaving. intros E.
  apply bind_Err_inv in E as [E | (u & _ & E)].
  { unfold undo_interleave_for in E.
    destruct (num_bits =? 4); [discriminate|].
    destruct (num_bits =? 8); [discriminate|].
    injection E as <-. reflexivity. }
  apply bind_Err_inv in E as [E | (q1 & _ & E)];
    [exact (reshape_rows_Err _ _ _ E)|].
  apply bind_Err_inv in E as [E | (q2 & _ & E)];
    [exact (index_cols_Err _ _ _ E)|].
  apply bind_Err_inv in E as [E | (q3 & _ & E)];
    [exact (reshape_rows_Err _ _ _ E) | discriminate].
Qed.

Lemma awq_to_marlin_zero_points_Err `{Runtime} (q : Tensor)
    (size_k size_n num_bits : Z) (e : exn) :
  awq_to_marlin_zero_points q size_k size_n num_bits = Err e ->
  raised_outside_gate e = true.
Proof.
  unfold awq_to_marlin_zero_points. intros E.
  apply bind_Err_inv in E as [E | (u & _ & E)];
    [exact (lift_foreign_Err _ _ E)|].
  apply bind_Err_inv in E as [E | (v & _ & E)];
    [exact (undo_interleaving_Err _ _ _ _ E) | exact (lift_foreign_Err _ _ E)].
Qed.

Lemma new_Err qweight qzeros scales g_idx perm bits is_full_k e :
  GPTQMarlinWeight.new qweight qzeros scales g_idx perm bits is_full_k = Err e ->
  raised_outside_gate e = true.
Proof.
  unfold GPTQMarlinWeight.new, GPTQMarlinWeight.__post_init__, py_assert,
    raise_unless.
  simpl. repeat case_bool_decide; simpl; intros E; try discriminate;
    injection E as <-; reflexivity.
Qed.

Section RepackErrors.
Context `{TorchSort} `{Runtime}.

(** An exception of [repack_gptq_for_marlin] is either raised outside
    the validation gate, or it is the error of the first gate check
    that fails. *)
Lemma repack_Err_inv qweight qzeros scales g_idx bits desc_act groupsize
    quant_method sym sharded_infeatures e :
  repack_gptq_for_marlin qweight qzeros scales g_idx bits desc_act
    groupsize quant_method sym sharded_infeatures = Err e ->
  raised_outside_gate e = true
  \/ (e = Raise RuntimeError (MsgBitsUnsupported bits)
      /\ py_in bits GPTQ_MARLIN_BITS = false)
  \/ (e = Raise RuntimeError (MsgGroupSizeUnsupported groupsize)
      /\ py_in bits GPTQ_MARLIN_BITS = true
      /\ py_in groupsize GPTQ_MARLIN_GROUP_SIZES = false)
  \/ (e = Raise RuntimeError MsgAsymmetricUnsupported
      /\ py_in bits GPTQ_MARLIN_BITS = true
      /\ py_in groupsize GPTQ_MARLIN_GROUP_SIZES = true
      /\ sym || String.eqb quant_method "awq"
         || String.eqb quant_method "compressed-tensors" = false)
  \/ (exists in_features,
        e = Raise ValueError (MsgNotDivisible in_features groupsize)
        /\ py_in bits GPTQ_MARLIN_BITS = true
        /\ py_in groupsize GPTQ_MARLIN_GROUP_SIZES = true
        /\ sym || String.eqb quant_method "awq"
           || String.eqb quant_method "compressed-tensors" = true
        /\ in_features mod groupsize <> 0).
Proof.
  unfold repack_gptq_for_marlin. intros E.
  apply bind_Err_inv in E as [E | (? & _ & E)];
    [left; exact (lift_foreign_Err _ _ E)|].
  apply bind_Err_inv in E as [E | (kernels & _ & E)].
  { left. destruct quantization; [discriminate|].
    injection E as <-. reflexivity. }
  apply bind_Err_inv in E as [E | (? & Eb%raise_unless_Ok_inv & E)].
  { apply raise_unless_Err_inv in E as (Eb & ->). right; left. auto. }
  apply bind_Err_inv in E as [E | (? & Eg%raise_unless_Ok_inv & E)].
  { apply raise_unless_Err_inv in E as (Eg & ->). right; right; left. auto. }
  apply bind_Err_inv in E as [E | (? & Es%raise_unless_Ok_inv & E)].
  { apply raise_unless_Err_inv in E as (Es & ->).
    right; right; right; left. auto. }
  apply bind_Err_inv in E as [E | (s0 & _ & E)].
  { left. unfold shape_at in E. destruct (_ !! _); [discriminate|].
    injection E as <-. reflexivity. }
  apply bind_Err_inv in E as [E | (s1 & _ & E)].
  { left. unfold shape_at in E. destruct (_ !! _); [discriminate|].
    injection E as <-. reflexivity. }
  apply bind_Err_inv in E as [E | (? & Ed & E)].
  { apply raise_unless_Err_inv in E as (Ed & ->).
    right; right; right; right. eexists. split; [reflexivity|].
    apply Z.eqb_neq in Ed. auto. }
  left.
  apply bind_Err_inv in E as [E | (pg & _ & E)].
  { destruct g_idx as [g|]; [|discriminate].
    destruct (desc_act && negb (groupsize =? -1)); [|discriminate].
    apply bind_Err_inv in E as [E | (g' & _ & E)]; [|discriminate].
    exact (index_tensor_Err _ _ _ E). }
  apply bind_Err_inv in E as [E | (rz & _ & E)].
  { destruct (String.eqb quant_method "awq").
    - apply bind_Err_inv in E as [E | (r & _ & E)];
        [exact (lift_foreign_Err _ _ E)|].
      destruct qzeros as [z|]; [|discriminate].
      apply bind_Err_inv in E as [E | (z' & _ & E)]; [|discriminate].
      exact (awq_to_marlin_zero_points_Err _ _ _ _ _ E).
    - apply bind_Err_inv in E as [E | (r & _ & E)]; [|discriminate].
      exact (lift_foreign_Err _ _ E). }
  apply bind_Err_inv in E as [E | (sc & _ & E)];
    [exact (lift_foreign_Err _ _ E)|].
  exact (new_Err _ _ _ _ _ _ _ _ E).
Qed.

End RepackErrors.

(** ** The claims *)

(** C5: for every successful call of [repack_gptq_for_marlin] the
    returned [is_full_k] is [not (desc_act and groupsize != -1 and
    sharded_infeatures)]: it is false exactly when activation-order
    grouping is on, the group size is not -1 and the input features are
    sharded, and true in every other case. *)
Theorem is_full_k_of_repack `{TorchSort} `{Runtime}
    qweight qzeros scales g_idx bits desc_act groupsize quant_method sym
    sharded_infeatures w :
  repack_gptq_for_marlin qweight qzeros scales g_idx bits desc_act groupsize
    quant_method sym sharded_infeatures = Ok w ->
  GPTQMarlinWeight.is_full_k w
    = negb (desc_act && negb (groupsize =? -1) && sharded_infeatures)
  /\ (GPTQMarlinWeight.is_full_k w = false
      <-> desc_act = true /\ groupsize <> -1 /\ sharded_infeatures = true)
  /\ (GPTQMarlinWeight.is_full_k w = true
      <-> ~ (desc_act = true /\ groupsize <> -1 /\ sharded_infeatures = true)).
Proof.
  intros E.
  apply repack_Ok_inv in E
    as (k & s0 & s1 & pg & r & z & sc & _ & _ & _ & _ & _ & _ & _ & _ & -> & _).
  simpl.
  destruct desc_act, sharded_infeatures, (Z.eqb_spec groupsize (-1)); simpl;
    repeat split; intros; try discriminate; try reflexivity; try tauto;
    try (exfalso; tauto); intuition congruence.
Qed.

Lemma is_full_k_of_repack_witness :
  exists w,
    @repack_gptq_for_marlin Reference.stable_sort Reference.runtime
      Examples.qweight_32x1 None Examples.scales_1x1
      (Some Examples.g_idx_one_group) 4 true 32 "gptq" true true = Ok w
    /\ GPTQMarlinWeight.is_full_k w = false.
Proof.
  eexists. split.
  - vm_compute. reflexivity.
  - apply (proj1 (proj2 (@is_full_k_of_repack Reference.stable_sort
      Reference.runtime Examples.qweight_32x1 None Examples.scales_1x1
      (Some Examples.g_idx_one_group) 4 true 32 "gptq" true true _
      eq_refl))).
    repeat split; [lia].
Defined.

(** C10: every [GPTQMarlinWeight] that is successfully constructed, and
    so every result of [repack_gptq_for_marlin], has an int32 [qweight],
    float16 or bfloat16 [scales], and int32 [g_idx] and [perm];
    constructing a value that violates this fails (with the assertion
    error of [__post_init__]). *)
Theorem constructed_weight_dtypes `{TorchSort} `{Runtime} :
  (forall qweight qzeros scales g_idx bits desc_act groupsize quant_method
          sym sharded_infeatures w,
      repack_gptq_for_marlin qweight qzeros scales g_idx bits desc_act
        groupsize quant_method sym sharded_infeatures = Ok w ->
      dtype_invariant w)
  /\ (forall qweight qzeros scales g_idx perm bits is_full_k w,
      GPTQMarlinWeight.new qweight qzeros scales g_idx perm bits is_full_k
        = Ok w ->
      w = GPTQMarlinWeight.mk qweight qzeros scales g_idx perm bits is_full_k
      /\ dtype_invariant w)
  /\ (forall qweight qzeros scales g_idx perm bits is_full_k,
      ~ dtype_invariant
          (GPTQMarlinWeight.mk qweight qzeros scales g_idx perm bits is_full_k) ->
      GPTQMarlinWeight.new qweight qzeros scales g_idx perm bits is_full_k
        = Err (Raise AssertionError MsgAssert)).
Proof.
  split; [| split].
  - intros * E.
    apply repack_Ok_inv in E
      as (k & s0 & s1 & pg & r & z & sc & _ & _ & _ & _ & _ & _ & _ & _ & _ & Hinv).
    exact Hinv.
  - intros * E. apply new_Ok_inv. exact E.
  - intros * Hn. unfold GPTQMarlinWeight.new.
    rewrite (post_init_Err _ Hn). reflexivity.
Qed.

Lemma constructed_weight_dtypes_witness :
  (exists w,
      @repack_gptq_for_marlin Reference.stable_sort Reference.runtime
        Examples.qweight_32x1 None Examples.scales_1x1
        (Some Examples.g_idx_one_group) 4 true 32 "gptq" true false = Ok w
      /\ dtype_invariant w)
  /\ @repack_gptq_for_marlin Reference.stable_sort Reference.runtime
       Examples.qweight_32x1 None Examples.scales_1x1
       (Some Examples.g_idx_one_group_int64) 4 true 32 "gptq" true false
     = Err (Raise AssertionError MsgAssert).
Proof.
  split.
  - eexists. split.
    + vm_compute. reflexivity.
    + apply (proj1 (@constructed_weight_dtypes Reference.stable_sort
        Reference.runtime) Examples.qweight_32x1 None Examples.scales_1x1
        (Some Examples.g_idx_one_group) 4 true 32 "gptq" true false _ eq_refl).
  - vm_compute. reflexivity.
Defined.

(** *** Zero-points on the row-packed path

    The AWQ path converts the zero-points for the kernel (lines 340-346;
    "we undo both of these, and then apply marlin permutation and pack
    it back", lines 453-456).  The row-packed path (lines 348-351) does
    nothing to them. *)

(** On the row-packed (non-AWQ) path the call does not depend on the
    zero-point primitives: two runtimes with the same kernels, kernel
    check and scale permutation give the same outcome, result or
    exception, whatever [unpack_cols] and [marlin_zero_points] are. *)
Lemma repack_row_packed_independent `{TorchSort} (R1 R2 : Runtime)
    qweight qzeros scales g_idx bits desc_act groupsize quant_method sym
    sharded_infeatures :
  @quantization R1 = @quantization R2 ->
  @_check_marlin_kernels R1 = @_check_marlin_kernels R2 ->
  @permute_scales R1 = @permute_scales R2 ->
  quant_method <> "awq" ->
  @repack_gptq_for_marlin _ R1 qweight qzeros scales g_idx bits desc_act
    groupsize quant_method sym sharded_infeatures
  = @repack_gptq_for_marlin _ R2 qweight qzeros scales g_idx bits desc_act
      groupsize quant_method sym sharded_infeatures.
Proof.
  intros Hq Hc Hp Ha%String.eqb_neq.
  unfold repack_gptq_for_marlin. rewrite Hq, Hc, Hp, Ha. reflexivity.
Qed.

(** On the row-packed path the zero-points only pass through: the call
    with zero-points [z] is the call without zero-points, with [z] put
    into the result. *)
Lemma repack_row_packed_qzeros `{TorchSort} `{Runtime}
    qweight z scales g_idx bits desc_act groupsize quant_method sym
    sharded_infeatures :
  quant_method <> "awq" ->
  repack_gptq_for_marlin qweight (Some z) scales g_idx bits desc_act
    groupsize quant_method sym sharded_infeatures
  = (w ← repack_gptq_for_marlin qweight None scales g_idx bits desc_act
           groupsize quant_method sym sharded_infeatures;
     Ok (with_qzeros z w)).
Proof.
  intros Ha%String.eqb_neq.
  unfold repack_gptq_for_marlin. rewrite Ha.
  destruct (lift_foreign _check_marlin_kernels); [|reflexivity].
  destruct quantization as [kernels|]; [|reflexivity].
  destruct (raise_unless (py_in bits GPTQ_MARLIN_BITS) _); [|reflexivity].
  destruct (raise_unless (py_in groupsize GPTQ_MARLIN_GROUP_SIZES) _);
    [|reflexivity].
  destruct (raise_unless (sym || false || _) _); [|reflexivity].
  destruct (shape_at qweight 0) as [in_features|]; [|reflexivity].
  destruct (shape_at qweight 1) as [out_features|]; [|reflexivity].
  rewrite !bind_Ok.
  destruct (raise_unless (_ =? 0) _); [|reflexivity].
  rewrite !bind_Ok.
  match goal with
  | |- ?lhs = _ => let m := bind_head lhs in destruct m as [pg|]
  end; [|reflexivity].
  rewrite !bind_Ok.
  destruct (gptq_marlin_repack _ _ _ _ _ _) as [repacked|[c s]];
    [|reflexivity].
  destruct (permute_scales scales) as [scales'|[c s]]; [|reflexivity].
  cbn [lift_foreign]. rewrite !bind_Ok. cbn [fst snd].
  unfold GPTQMarlinWeight.new, GPTQMarlinWeight.__post_init__.
  cbn [GPTQMarlinWeight.qweight GPTQMarlinWeight.scales
       GPTQMarlinWeight.g_idx GPTQMarlinWeight.perm].
  repeat match goal with
         | |- ?lhs = _ =>
             let m := bind_head lhs in
             lazymatch m with
             | py_assert _ => destruct m; [|reflexivity]; rewrite !bind_Ok
             end
         end.
  reflexivity.
Qed.



(** *** The validation gate *)

Lemma raise_unless_false (e : exn) : raise_unless false e = Err e.
Proof. reflexivity. Qed.

Lemma py_in_bits_false (bits : Z) :
  ~ (bits = 4 \/ bits = 8) -> py_in bits GPTQ_MARLIN_BITS = false.
Proof.
  intros Hn. destruct (py_in bits GPTQ_MARLIN_BITS) eqn:E; [|reflexivity].
  apply py_in_bits in E. contradiction.
Qed.

Lemma py_in_group_sizes_false (g : Z) :
  ~ (g = -1 \/ g = 32 \/ g = 64 \/ g = 128) ->
  py_in g GPTQ_MARLIN_GROUP_SIZES = false.
Proof.
  intros Hn. destruct (py_in g GPTQ_MARLIN_GROUP_SIZES) eqn:E; [|reflexivity].
  apply py_in_group_sizes in E. contradiction.
Qed.

Lemma kernels_available_dec `{Runtime} :
  kernels_available \/ ~ kernels_available.
Proof.
  unfold kernels_available.
  destruct _check_marlin_kernels as [[]|[c s]], quantization as [k|];
    first [ left; split; [reflexivity | discriminate]
          | right; intros [? ?]; congruence ].
Qed.

Lemma kernels_available_inv `{Runtime} :
  kernels_available ->
  _check_marlin_kernels = inl tt /\ exists kernels, quantization = Some kernels.
Proof.
  intros [Hc Hq]. split; [exact Hc|].
  destruct quantization as [k|]; [eauto | contradiction].
Qed.

(** Without the kernels the call ends at lines 293-294, whatever its
    arguments are. *)
Lemma repack_without_kernels `{TorchSort} `{Runtime}
    qweight qzeros scales g_idx bits desc_act groupsize quant_method sym
    sharded_infeatures :
  ~ kernels_available ->
  exists e,
    repack_gptq_for_marlin qweight qzeros scales g_idx bits desc_act
      groupsize quant_method sym sharded_infeatures = Err e
    /\ kernel_availability_error e
    /\ is_ConfigurationError e = false.
Proof.
  intros Hn. unfold repack_gptq_for_marlin, kernel_availability_error.
  unfold kernels_available in Hn.
  destruct _check_marlin_kernels as [[]|[c s]].
  - destruct quantization as [k|].
    + exfalso. apply Hn. split; [reflexivity | discriminate].
    + eexists. split; [reflexivity|]. split; [|reflexivity].
      right. auto.
  - eexists. split; [reflexivity|]. split; [|destruct c; reflexivity].
    left. eauto.
Qed.

(** C6 (as the code has it): [repack_gptq_for_marlin] fails for every
    [bits] outside {4, 8} and for every [groupsize] outside
    {-1, 32, 64, 128}.  With the Marlin kernels available the error is a
    configuration error: the bit-width error (naming [bits]) whenever
    [bits] is unsupported, and the group-size error (naming
    [groupsize]) once the bit-width check, which runs first, has passed.
    Without the kernels the call fails ahead of both checks with the
    kernel-availability exception, which is no configuration error.
    For [bits] and [groupsize] from those sets neither of the two
    errors is raised. *)
Theorem bits_and_group_size_gate `{TorchSort} `{Runtime}
    qweight qzeros scales g_idx bits desc_act groupsize quant_method sym
    sharded_infeatures :
  (~ (bits = 4 \/ bits = 8) ->
   exists e,
     repack_gptq_for_marlin qweight qzeros scales g_idx bits desc_act
       groupsize quant_method sym sharded_infeatures = Err e
     /\ (kernels_available ->
         e = Raise RuntimeError (MsgBitsUnsupported bits))
     /\ (~ kernels_available ->
         kernel_availability_error e /\ is_ConfigurationError e = false))
  /\ (~ (groupsize = -1 \/ groupsize = 32 \/ groupsize = 64 \/ groupsize = 128) ->
      exists e,
        repack_gptq_for_marlin qweight qzeros scales g_idx bits desc_act
          groupsize quant_method sym sharded_infeatures = Err e
        /\ (kernels_available ->
            is_ConfigurationError e = true
            /\ (bits = 4 \/ bits = 8 ->
                e = Raise RuntimeError (MsgGroupSizeUnsupported groupsize)))
        /\ (~ kernels_available ->
            kernel_availability_error e /\ is_ConfigurationError e = false))
  /\ (bits = 4 \/ bits = 8 ->
      groupsize = -1 \/ groupsize = 32 \/ groupsize = 64 \/ groupsize = 128 ->
      forall b g,
        repack_gptq_for_marlin qweight qzeros scales g_idx bits desc_act
          groupsize quant_method sym sharded_infeatures
        <> Err (Raise RuntimeError (MsgBitsUnsupported b))
        /\ repack_gptq_for_marlin qweight qzeros scales g_idx bits desc_act
             groupsize quant_method sym sharded_infeatures
           <> Err (Raise RuntimeError (MsgGroupSizeUnsupported g))).
Proof.
  split; [| split].
  - intros Hb. destruct kernels_available_dec as [Ha | Hn].
    + destruct (kernels_available_inv Ha) as (Hc & k & Hq).
      eexists. split; [| split; [reflexivity | contradiction]].
      unfold repack_gptq_for_marlin.
      rewrite Hc, Hq, (py_in_bits_false _ Hb). reflexivity.
    + destruct (repack_without_kernels qweight qzeros scales g_idx bits
                  desc_act groupsize quant_method sym sharded_infeatures Hn)
        as (e & E & He).
      exists e. split; [exact E|]. split; [contradiction | intros _; exact He].
  - intros Hg. destruct kernels_available_dec as [Ha | Hn].
    + destruct (kernels_available_inv Ha) as (Hc & k & Hq).
      unfold repack_gptq_for_marlin.
      rewrite Hc, Hq, (py_in_group_sizes_false _ Hg).
      destruct (py_in bits GPTQ_MARLIN_BITS) eqn:Eb.
      * eexists. split; [reflexivity|]. split; [|contradiction].
        intros _. split; reflexivity.
      * eexists. split; [reflexivity|]. split; [|contradiction].
        intros _. split; [reflexivity|].
        intros Hb. apply py_in_bits in Hb. congruence.
    + destruct (repack_without_kernels qweight qzeros scales g_idx bits
                  desc_act groupsize quant_method sym sharded_infeatures Hn)
        as (e & E & He).
      exists e. split; [exact E|]. split; [contradiction | intros _; exact He].
  - intros Hb%py_in_bits Hg%py_in_group_sizes b g.
    split; intros E; apply repack_Err_inv in E
      as [E | [(E & ?) | [(E & ? & ?) | [(E & _) | (f & E & _)]]]];
      try discriminate; congruence.
Qed.

Lemma bits_and_group_size_gate_witness :
  @repack_gptq_for_marlin Reference.stable_sort Reference.runtime
    Examples.qweight_32x1 None Examples.scales_1x1 None
    3 false 32 "gptq" true false
  = Err (Raise RuntimeError (MsgBitsUnsupported 3))
  /\ @repack_gptq_for_marlin Reference.stable_sort Reference.runtime
       Examples.qweight_32x1 None Examples.scales_1x1 None
       4 false 48 "gptq" true false
     = Err (Raise RuntimeError (MsgGroupSizeUnsupported 48)).
Proof.
  assert (Ha : @kernels_available Reference.runtime)
    by (split; [reflexivity | discriminate]).
  split.
  - destruct (proj1 (@bits_and_group_size_gate Reference.stable_sort
      Reference.runtime Examples.qweight_32x1 None Examples.scales_1x1 None
      3 false 32 "gptq" true false) ltac:(lia)) as (e & E & He & _).
    rewrite E, (He Ha). reflexivity.
  - destruct (proj1 (proj2 (@bits_and_group_size_gate Reference.stable_sort
      Reference.runtime Examples.qweight_32x1 None Examples.scales_1x1 None
      4 false 48 "gptq" true false)) ltac:(lia)) as (e & E & He & _).
    rewrite E, (proj2 (He Ha)); [reflexivity | lia].
Defined.

(** C6 as stated fails in two ways.  Where both values are unsupported
    the bit-width check runs first, and the error names the bit width,
    not the group size.  And without the Marlin kernels
    ([quantization] is [None], or [_check_marlin_kernels] raises) the
    call fails ahead of both checks with an exception that is no
    configuration error. *)
Lemma group_size_error_after_bits_error :
  (@repack_gptq_for_marlin Reference.stable_sort Reference.runtime
     Examples.qweight_32x1 None Examples.scales_1x1 None
     3 false 7 "gptq" true false
   = Err (Raise RuntimeError (MsgBitsUnsupported 3))
   /\ @repack_gptq_for_marlin Reference.stable_sort Reference.runtime
        Examples.qweight_32x1 None Examples.scales_1x1 None
        3 false 7 "gptq" true false
      <> Err (Raise RuntimeError (MsgGroupSizeUnsupported 7)))
  /\ (exists e,
        @repack_gptq_for_marlin Reference.stable_sort
          Reference.runtime_without_kernels
          Examples.qweight_32x1 None Examples.scales_1x1 None
          3 false 32 "gptq" true false = Err e
        /\ e = Raise AssertionError MsgAssert
        /\ is_ConfigurationError e = false)
  /\ (exists e,
        @repack_gptq_for_marlin Reference.stable_sort
          Reference.runtime_failing_kernel_check
          Examples.qweight_32x1 None Examples.scales_1x1 None
          4 false 7 "gptq" true false = Err e
        /\ exn_cls e = NotImplementedError
        /\ is_ConfigurationError e = false).
Proof.
  split; [split; [vm_compute; reflexivity | vm_compute; discriminate]|].
  split; eexists; (split; [vm_compute; reflexivity|]); split; reflexivity.
Qed.

(** C2 (as the code has it): a call with [sym = false] and a
    [quant_method] other than "awq" and "compressed-tensors" fails
    whatever the tensors are.  With the Marlin kernels available the
    error is a configuration error, and it is the
    asymmetric-quantization error once the bit-width and group-size
    checks have passed; without the kernels it is the
    kernel-availability exception raised ahead of the gate, which is no
    configuration error.  For [sym = true], "awq" or
    "compressed-tensors" the asymmetry check passes: no call ends in
    the asymmetric-quantization error. *)
Theorem asymmetric_gate `{TorchSort} `{Runtime}
    qweight qzeros scales g_idx bits desc_act groupsize quant_method sym
    sharded_infeatures :
  (sym = false -> quant_method <> "awq" ->
   quant_method <> "compressed-tensors" ->
   exists e,
     repack_gptq_for_marlin qweight qzeros scales g_idx bits desc_act
       groupsize quant_method sym sharded_infeatures = Err e
     /\ (kernels_available ->
         is_ConfigurationError e = true
         /\ (bits = 4 \/ bits = 8 ->
             groupsize = -1 \/ groupsize = 32 \/ groupsize = 64
               \/ groupsize = 128 ->
             e = Raise RuntimeError MsgAsymmetricUnsupported))
     /\ (~ kernels_available ->
         kernel_availability_error e /\ is_ConfigurationError e = false))
  /\ (sym = true \/ quant_method = "awq"
      \/ quant_method = "compressed-tensors" ->
      repack_gptq_for_marlin qweight qzeros scales g_idx bits desc_act
        groupsize quant_method sym sharded_infeatures
      <> Err (Raise RuntimeError MsgAsymmetricUnsupported)).
Proof.
  split.
  - intros -> Hna Hnct. destruct kernels_available_dec as [Ha | Hn].
    + destruct (kernels_available_inv Ha) as (Hc & k & Hq).
      apply String.eqb_neq in Hna, Hnct.
      unfold repack_gptq_for_marlin. rewrite Hc, Hq, Hna, Hnct.
      destruct (py_in bits GPTQ_MARLIN_BITS) eqn:Eb;
        destruct (py_in groupsize GPTQ_MARLIN_GROUP_SIZES) eqn:Eg;
        (eexists; split; [reflexivity|]; split; [|contradiction];
         intros _; split; [reflexivity|]);
        intros Hb%py_in_bits Hg%py_in_group_sizes; congruence.
    + destruct (repack_without_kernels qweight qzeros scales g_idx bits
                  desc_act groupsize quant_method false sharded_infeatures Hn)
        as (e & E & He).
      exists e. split; [exact E|]. split; [contradiction | intros _; exact He].
  - intros Hs E.
    apply repack_Err_inv in E
      as [E | [(E & ?) | [(E & ? & ?) | [(_ & _ & _ & E) | (f & E & _)]]]];
      try discriminate.
    destruct Hs as [-> | [-> | ->]]; [discriminate | |].
    + rewrite orb_true_r in E. discriminate.
    + rewrite orb_true_r in E. discriminate.
Qed.

Lemma asymmetric_gate_witness :
  @repack_gptq_for_marlin Reference.stable_sort Reference.runtime
    Examples.qweight_32x8 (Some Examples.qzeros_1x8) Examples.scales_1x8
    (Some Examples.g_idx_one_group) 4 false 32 "gptq" false false
  = Err (Raise RuntimeError MsgAsymmetricUnsupported).
Proof.
  destruct (proj1 (@asymmetric_gate Reference.stable_sort Reference.runtime
    Examples.qweight_32x8 (Some Examples.qzeros_1x8)
    Examples.scales_1x8 (Some Examples.g_idx_one_group) 4 false 32 "gptq"
    false false) eq_refl ltac:(discriminate)
    ltac:(discriminate)) as (e & E & He & _).
  assert (Ha : @kernels_available Reference.runtime)
    by (split; [reflexivity | discriminate]).
  rewrite E, (proj2 (He Ha)); [reflexivity | lia | lia].
Defined.

(** C2 as stated fails in two ways.  An asymmetric call with the
    compressed-tensors method is not awq, passes the gate and is
    repacked.  And without the Marlin kernels ([quantization] is
    [None], or [_check_marlin_kernels] raises) an asymmetric GPTQ call
    fails ahead of the gate, with an exception that is no configuration
    error. *)
Lemma asymmetric_compressed_tensors_accepted :
  ("compressed-tensors" <> "awq"
   /\ exists w,
       @repack_gptq_for_marlin Reference.stable_sort Reference.runtime
         Examples.qweight_32x8 (Some Examples.qzeros_1x8) Examples.scales_1x8
         None 4 false 32 "compressed-tensors" false false = Ok w)
  /\ (exists e,
        @repack_gptq_for_marlin Reference.stable_sort
          Reference.runtime_without_kernels
          Examples.qweight_32x8 (Some Examples.qzeros_1x8)
          Examples.scales_1x8 (Some Examples.g_idx_one_group)
          4 false 32 "gptq" false false = Err e
        /\ e = Raise AssertionError MsgAssert
        /\ is_ConfigurationError e = false)
  /\ (exists e,
        @repack_gptq_for_marlin Reference.stable_sort
          Reference.runtime_failing_kernel_check
          Examples.qweight_32x8 (Some Examples.qzeros_1x8)
          Examples.scales_1x8 (Some Examples.g_idx_one_group)
          4 false 32 "gptq" false false = Err e
        /\ exn_cls e = NotImplementedError
        /\ is_ConfigurationError e = false).
Proof.
  split; [split; [discriminate|]; eexists; vm_compute; reflexivity|].
  split; eexists; (split; [vm_compute; reflexivity|]); split; reflexivity.
Qed.

(** C7: with the kernels available and the earlier gate checks passed,
    [in_features] is the packed row count times [32 // bits] on the
    row-packed path and the row count itself on the AWQ path (where the
    columns carry the packing); whenever it is not divisible by
    [groupsize] the call fails with the divisibility error naming both
    numbers.  With [groupsize = -1] the call never fails with a
    divisibility error, whatever the inputs are. *)
Theorem divisibility_gate `{TorchSort} `{Runtime} :
  (forall kernels qweight qzeros scales g_idx bits desc_act groupsize
          quant_method sym sharded_infeatures packed_rows packed_cols,
      _check_marlin_kernels = inl tt ->
      quantization = Some kernels ->
      bits = 4 \/ bits = 8 ->
      groupsize = -1 \/ groupsize = 32 \/ groupsize = 64 \/ groupsize = 128 ->
      sym = true \/ quant_method = "awq"
        \/ quant_method = "compressed-tensors" ->
      shape_at qweight 0 = Ok packed_rows ->
      shape_at qweight 1 = Ok packed_cols ->
      let in_features :=
        if String.eqb quant_method "awq" then packed_rows
        else packed_rows * (32 / bits) in
      in_features mod groupsize <> 0 ->
      repack_gptq_for_marlin qweight qzeros scales g_idx bits desc_act
        groupsize quant_method sym sharded_infeatures
      = Err (Raise ValueError (MsgNotDivisible in_features groupsize)))
  /\ (forall qweight qzeros scales g_idx bits desc_act quant_method sym
             sharded_infeatures a b,
      repack_gptq_for_marlin qweight qzeros scales g_idx bits desc_act
        (-1) quant_method sym sharded_infeatures
      <> Err (Raise ValueError (MsgNotDivisible a b))).
Proof.
  split.
  - intros * Hc Hq Hb%py_in_bits Hg%py_in_group_sizes Hs E0 E1 inf Hd.
    assert (Es : sym || String.eqb quant_method "awq"
                 || String.eqb quant_method "compressed-tensors" = true).
    { destruct Hs as [-> | [-> | ->]]; [reflexivity | |];
        rewrite orb_true_r; reflexivity. }
    unfold repack_gptq_for_marlin.
    rewrite Hc, Hq, Hb, Hg, Es, E0, E1.
    simpl lift_foreign. rewrite !raise_unless_true, !bind_Ok.
    apply Z.eqb_neq in Hd. subst inf. cbv zeta. rewrite Hd.
    reflexivity.
  - intros * E.
    apply repack_Err_inv in E
      as [E | [(E & ?) | [(E & ? & ?) | [(E & _) | (f & E & _ & _ & _ & Hd)]]]];
      try discriminate.
    apply Hd. pose proof (Z.mod_neg_bound f (-1)). lia.
Qed.

Lemma divisibility_gate_witness :
  @repack_gptq_for_marlin Reference.stable_sort Reference.runtime
    Examples.qweight_24x1 None Examples.scales_1x1 None
    4 false 32 "gptq" true false
  = Err (Raise ValueError (MsgNotDivisible 24 32)).
Proof.
  apply (proj1 (@divisibility_gate Reference.stable_sort Reference.runtime)
    Reference.kernels Examples.qweight_24x1 None Examples.scales_1x1 None
    4 false 32 "gptq" true false 3 1 eq_refl eq_refl).
  - left. reflexivity.
  - right. left. reflexivity.
  - left. reflexivity.
  - reflexivity.
  - reflexivity.
  - vm_compute. discriminate.
Defined.

(** *** Lists, rows and index selection *)

Lemma mapM_Ok_map {A B} (f : A -> result B) (g : A -> B) (l : list A) :
  (forall x, In x l -> f x = Ok (g x)) -> mapM f l = Ok (map g l).
Proof.
  induction l as [|x l IH]; simpl; intros Hf; [reflexivity|].
  rewrite (Hf x) by auto. rewrite bind_Ok, IH by auto. reflexivity.
Qed.

Lemma wrap_int32_small (x : Z) : 0 <= x < 2 ^ 31 -> wrap_int32 x = x.
Proof.
  intros Hx. unfold wrap_int32.
  rewrite Z.mod_small by lia. lia.
Qed.

Lemma py_index_nat (n i : nat) :
  (i < n)%nat -> py_index n (Z.of_nat i) = Ok i.
Proof.
  intros Hi. unfold py_index.
  destruct (Z.ltb_spec (Z.of_nat i) 0); [lia|].
  destruct (Z.leb_spec 0 (Z.of_nat i)); [|lia].
  destruct (Z.ltb_spec (Z.of_nat i) (Z.of_nat n)); [|lia].
  simpl. rewrite Nat2Z.id. reflexivity.
Qed.

Lemma take_drop_nth {A} (d : A) (l : list A) (c k j : nat) :
  (j < c)%nat -> nth j (take c (drop k l)) d = nth (k + j) l d.
Proof.
  intros Hj. rewrite !nth_lookup, lookup_take_lt, lookup_drop by lia.
  reflexivity.
Qed.

Lemma take_1_drop {A} (d : A) (l : list A) (k : nat) :
  (k < length l)%nat -> take 1 (drop k l) = [nth k l d].
Proof.
  revert k. induction l as [|x l IH]; intros k Hk; simpl in Hk; [lia|].
  destruct k as [|k]; simpl; [reflexivity|].
  apply IH. lia.
Qed.

Lemma concat_map_singleton {A B} (f : A -> B) (l : list A) :
  concat (map (fun x => [f x]) l) = map f l.
Proof. induction l; simpl; congruence. Qed.

Lemma rows_length {A} (c r : nat) (l : list A) : length (rows c r l) = r.
Proof. revert l. induction r; intros l; simpl; auto. Qed.

Lemma rows_row_length {A} (c r : nat) (l : list A) :
  (r * c <= length l)%nat -> Forall (fun row => length row = c) (rows c r l).
Proof.
  revert l. induction r as [|r IH]; intros l Hl; simpl; constructor.
  - rewrite length_take. simpl in Hl. lia.
  - apply IH. rewrite length_drop. simpl in Hl. lia.
Qed.

Lemma rows_nth {A} (c r b : nat) (l : list A) :
  (b < r)%nat -> nth b (rows c r l) [] = take c (drop (b * c) l).
Proof.
  revert b l. induction r as [|r IH]; intros b l Hb; [lia|].
  destruct b as [|b]; simpl.
  - reflexivity.
  - rewrite IH by lia. rewrite drop_drop. reflexivity.
Qed.

Lemma concat_nth_uniform {A} (d : A) (c : nat) (ls : list (list A)) (b j : nat) :
  Forall (fun row => length row = c) ls ->
  (j < c)%nat ->
  nth (b * c + j) (concat ls) d = nth j (nth b ls []) d.
Proof.
  intros Hls Hj. revert b.
  induction Hls as [|row ls Hrow _ IH]; intros b; simpl.
  - destruct (b * c + j)%nat, b, j; reflexivity.
  - destruct b as [|b]; simpl.
    + rewrite app_nth1 by lia. reflexivity.
    + rewrite app_nth2 by lia.
      replace (c + b * c + j - length row)%nat with (b * c + j)%nat by lia.
      apply IH.
Qed.

Lemma concat_length_uniform {A} (c : nat) (ls : list (list A)) :
  Forall (fun row => length row = c) ls ->
  length (concat ls) = (length ls * c)%nat.
Proof.
  induction 1 as [|row ls Hrow _ IH]; simpl; [reflexivity|].
  rewrite length_app, IH. lia.
Qed.

(** *** The reference zero-point primitives

    [Reference.marlin_zero_points] is the inverse of
    [Reference.unpack_cols], as the specification words the repack
    primitive. *)

Lemma lor_low_high (x b m : Z) :
  0 <= b -> 0 <= m ->
  Z.lor (Z.land x (2 ^ b - 1)) (Z.shiftl ((x / 2 ^ b) mod 2 ^ m) b)
  = x mod 2 ^ (b + m).
Proof.
  intros Hb Hm.
  replace (2 ^ b - 1) with (Z.ones b) by (rewrite Z.ones_equiv; lia).
  rewrite Z.land_ones by exact Hb.
  apply Z.bits_inj'. intros n Hn.
  rewrite Z.lor_spec, Z.shiftl_spec by exact Hn.
  destruct (Z.lt_ge_cases n b) as [Hlt | Hge].
  - rewrite (Z.testbit_neg_r _ (n - b)) by lia.
    rewrite !Z.mod_pow2_bits_low by lia. apply orb_false_r.
  - rewrite (Z.mod_pow2_bits_high x b n) by lia. simpl.
    destruct (Z.lt_ge_cases n (b + m)) as [Hlt | Hge'].
    + rewrite !Z.mod_pow2_bits_low by lia.
      rewrite Z.div_pow2_bits by lia. f_equal. lia.
    + rewrite !Z.mod_pow2_bits_high by lia. reflexivity.
Qed.

Lemma pack_lanes (b w : Z) (n s : nat) :
  0 < b ->
  fold_right (fun v acc => Z.lor v (Z.shiftl acc b)) 0
    (map (fun i => Z.land (Z.shiftr w (b * Z.of_nat i)) (2 ^ b - 1))
       (seq s n))
  = (w / 2 ^ (b * Z.of_nat s)) mod 2 ^ (b * Z.of_nat n).
Proof.
  intros Hb. revert s. induction n as [|n IH]; intros s.
  - simpl. rewrite Z.mul_0_r, Z.pow_0_r, Z.mod_1_r. reflexivity.
  - cbn [seq map fold_right]. rewrite IH.
    rewrite Z.shiftr_div_pow2 by lia.
    replace (w / 2 ^ (b * Z.of_nat (S s)))
      with (w / 2 ^ (b * Z.of_nat s) / 2 ^ b).
    + rewrite lor_low_high by lia. f_equal. f_equal. lia.
    + rewrite Z.div_div by lia. rewrite <- Z.pow_add_r by lia.
      f_equal. f_equal. lia.
Qed.

Lemma pack_unpack_word (num_bits w : Z) :
  num_bits = 4 \/ num_bits = 8 ->
  - 2 ^ 31 <= w < 2 ^ 31 ->
  Reference.pack_word num_bits
    (Reference.unpack_word num_bits
       (Z.to_nat (Reference.pack_factor num_bits)) w)
  = w.
Proof.
  intros Hb Hw. unfold Reference.pack_word, Reference.unpack_word.
  rewrite pack_lanes by lia. rewrite Z.mul_0_r, Z.pow_0_r, Z.div_1_r.
  replace (num_bits * Z.of_nat (Z.to_nat (Reference.pack_factor num_bits)))
    with 32 by (destruct Hb as [-> | ->]; reflexivity).
  unfold wrap_int32. rewrite Zplus_mod_idemp_l.
  rewrite Z.mod_small by lia. lia.
Qed.

Lemma rows_concat {A} (c : nat) (ls : list (list A)) :
  Forall (fun row => length row = c) ls ->
  rows c (length ls) (concat ls) = ls.
Proof.
  induction 1 as [|row ls Hrow _ IH]; simpl; [reflexivity|].
  rewrite take_app_length' by (symmetry; exact Hrow).
  rewrite drop_app_length' by (symmetry; exact Hrow).
  rewrite IH. reflexivity.
Qed.

Lemma marlin_zero_points_unpack_cols (t u : Tensor)
    (num_bits size_k size_n : Z) :
  num_bits = 4 \/ num_bits = 8 ->
  dtype t = int32 ->
  Forall (fun w => - 2 ^ 31 <= w < 2 ^ 31) (data t) ->
  Reference.unpack_cols t num_bits size_k size_n = inl u ->
  Reference.marlin_zero_points u size_k size_n num_bits = inl t.
Proof.
  intros Hb Hd Hw Hu. unfold Reference.unpack_cols in Hu.
  destruct (bool_decide _) eqn:Hs; [|discriminate].
  destruct (_ =? 0) eqn:Hm; [|discriminate].
  apply bool_decide_eq_true in Hs.
  injection Hu as <-. unfold Reference.marlin_zero_points.
  cbn [shape data device numel].
  rewrite bool_decide_eq_true_2 by reflexivity. rewrite Hm.
  cbn [andb]. f_equal.
  set (lanes := Z.to_nat (Reference.pack_factor num_bits)).
  assert (Hlanes : (0 < lanes)%nat)
    by (subst lanes; destruct Hb as [-> | ->]; vm_compute; lia).
  assert (Hrows : Forall (fun row => length row = lanes)
                    (map (Reference.unpack_word num_bits lanes) (data t))).
  { apply Forall_map, Forall_forall. intros w _. simpl.
    unfold Reference.unpack_word. rewrite length_map, length_seq.
    reflexivity. }
  unfold numel. cbn [data].
  rewrite (concat_length_uniform lanes) by exact Hrows.
  rewrite Nat.div_mul by lia.
  rewrite (rows_concat lanes) by exact Hrows.
  rewrite map_map.
  assert (Hid : map (fun w => Reference.pack_word num_bits
                                (Reference.unpack_word num_bits lanes w))
                  (data t) = data t).
  { rewrite <- (map_id (data t)) at 2. apply map_ext_in. intros w Hin.
    apply pack_unpack_word; [exact Hb|].
    rewrite Forall_forall in Hw. apply Hw.
    apply list_elem_of_In. exact Hin. }
  rewrite Hid. destruct t; simpl in *; subst. reflexivity.
Qed.

(** With the reference primitives, unpack-then-repack gives a tensor of
    int32 words back wherever the unpacking goes through. *)
Lemma reference_unpack_then_repack (z u : Tensor)
    (num_bits size_k size_n : Z) :
  num_bits = 4 \/ num_bits = 8 ->
  dtype z = int32 ->
  Forall (fun w => - 2 ^ 31 <= w < 2 ^ 31) (data z) ->
  Reference.unpack_cols z num_bits size_k size_n = inl u ->
  @spec_unpack_then_repack Reference.runtime z size_k size_n num_bits = Ok z.
Proof.
  intros Hb Hd Hw Hu. unfold spec_unpack_then_repack.
  change (@unpack_cols Reference.runtime) with Reference.unpack_cols.
  change (@marlin_zero_points Reference.runtime)
    with Reference.marlin_zero_points.
  rewrite Hu. cbn [lift_foreign]. rewrite bind_Ok.
  rewrite (marlin_zero_points_unpack_cols z u) by assumption.
  reflexivity.
Qed.

(** *** The channel permutation *)

Section ChannelPermutation.
Context `{TorchSort}.

Lemma argsort_keys_bound (l : list Z) (i : nat) :
  In i (argsort_keys l) -> (i < length l)%nat.
Proof.
  intros Hi.
  apply (Permutation_in _ (argsort_keys_perm l)) in Hi.
  apply in_seq in Hi. lia.
Qed.

(** [torch.argsort] of a one-dimensional tensor. *)
Lemma torch_argsort_vector (t : Tensor) :
  shape t = [length (data t)] ->
  torch_argsort t
  = mkTensor int64 (device t) (shape t)
      (map Z.of_nat (argsort_keys (data t))).
Proof.
  intros Hs. unfold torch_argsort, numel. rewrite Hs. simpl List.last.
  f_equal.
  destruct (data t) as [|x l] eqn:Ed.
  - simpl.
    pose proof (argsort_keys_perm []) as Hp. simpl in Hp.
    apply Permutation_nil_r in Hp. rewrite Hp. reflexivity.
  - rewrite Nat.div_same by (simpl; lia).
    simpl rows. rewrite firstn_all. simpl. rewrite app_nil_r.
    reflexivity.
Qed.

Lemma to_int_argsort_vector (t : Tensor) :
  shape t = [length (data t)] ->
  Z.of_nat (length (data t)) < 2 ^ 31 ->
  to_int (torch_argsort t)
  = mkTensor int32 (device t) (shape t)
      (map Z.of_nat (argsort_keys (data t))).
Proof.
  intros Hs Hn. rewrite torch_argsort_vector by exact Hs.
  unfold to_int. simpl. f_equal.
  rewrite map_map. apply map_ext_in. intros i Hi.
  apply argsort_keys_bound in Hi.
  apply wrap_int32_small. lia.
Qed.

(** [g_idx[perm]] for a one-dimensional [g_idx] and in-range [perm]. *)
Lemma index_tensor_vector (t idx : Tensor) (p : list nat) :
  shape t = [length (data t)] ->
  data idx = map Z.of_nat p ->
  (forall i, In i p -> (i < length (data t))%nat) ->
  index_tensor t idx
  = Ok (mkTensor (dtype t) (device t) (shape idx)
          (map (fun i => nth i (data t) 0) p)).
Proof.
  intros Hs Hd Hp. unfold index_tensor. rewrite Hs, Hd. simpl fold_right.
  rewrite (mapM_Ok_map _ (fun z => [nth (Z.to_nat z) (data t) 0])).
  - rewrite bind_Ok, app_nil_r. f_equal. f_equal.
    rewrite map_map. rewrite concat_map_singleton.
    apply map_ext. intros i. rewrite Nat2Z.id. reflexivity.
  - intros z Hz. apply in_map_iff in Hz as (i & <- & Hi).
    rewrite py_index_nat by auto. rewrite bind_Ok, Nat2Z.id, Nat.mul_1_r.
    rewrite (take_1_drop 0) by auto. reflexivity.
Qed.

End ChannelPermutation.

(** C3 (as the code has it): in a successful call with a
    one-dimensional [g_idx] (of fewer than 2^31 entries) present,
    [desc_act] set and [groupsize <> -1], [perm] is the int32 tensor of
    the permutation of the input-feature indices that [torch.argsort]
    returns for the group ids -- a permutation that sorts them by group
    id ascending, with no promise on the order of indices of the same
    group -- and the emitted [g_idx] is [g_idx[perm]], a non-decreasing
    sequence.  When [g_idx] is absent, [desc_act] is off or [groupsize]
    is -1, [perm] and [g_idx] are both empty int32 tensors. *)
Theorem channel_permutation_of_repack `{TorchSort} `{Runtime}
    qweight qzeros scales g_idx bits desc_act groupsize quant_method sym
    sharded_infeatures w :
  repack_gptq_for_marlin qweight qzeros scales g_idx bits desc_act groupsize
    quant_method sym sharded_infeatures = Ok w ->
  (forall g, g_idx = Some g -> desc_act = true -> groupsize <> -1 ->
     shape g = [length (data g)] ->
     Z.of_nat (length (data g)) < 2 ^ 31 ->
     let p := argsort_keys (data g) in
     Permutation p (seq 0 (length (data g)))
     /\ GPTQMarlinWeight.perm w
        = mkTensor int32 (device g) (shape g) (map Z.of_nat p)
     /\ GPTQMarlinWeight.g_idx w
        = mkTensor (dtype g) (device g) (shape g)
            (map (fun i => nth i (data g) 0) p)
     /\ Sorted Z.le (data (GPTQMarlinWeight.g_idx w)))
  /\ (g_idx = None \/ desc_act = false \/ groupsize = -1 ->
      GPTQMarlinWeight.perm w = torch_empty_int (device qweight)
      /\ GPTQMarlinWeight.g_idx w = torch_empty_int (device qweight)).
Proof.
  intros E.
  apply repack_Ok_inv in E
    as (k & s0 & s1 & pg & r & zopt & sc & _ & _ & _ & _ & _ & _ & Epg & _
        & -> & _).
  simpl. split.
  - intros g -> -> Hg Hs Hn. cbv zeta.
    apply Z.eqb_neq in Hg. rewrite Hg in Epg. simpl in Epg.
    rewrite (to_int_argsort_vector g Hs Hn) in Epg.
    rewrite (index_tensor_vector g
               (mkTensor int32 (device g) (shape g)
                  (map Z.of_nat (argsort_keys (data g))))
               (argsort_keys (data g)) Hs eq_refl
               (argsort_keys_bound (data g))) in Epg.
    rewrite bind_Ok in Epg. injection Epg as <-. simpl.
    repeat split.
    + apply argsort_keys_perm.
    + apply argsort_keys_sorted.
  - intros Hc.
    assert (Epg' : Ok (torch_empty_int (device qweight),
                       torch_empty_int (device qweight)) = Ok pg).
    { destruct g_idx as [g|]; [|exact Epg].
      destruct Hc as [Hc | [-> | ->]]; [discriminate | exact Epg |].
      rewrite andb_false_r in Epg. exact Epg. }
    injection Epg' as <-. split; reflexivity.
Qed.

(** Two interleaved groups: the permutation puts the 32 features of
    group 0 (odd positions) in front of the 32 features of group 1
    (even positions), and the emitted group index is sorted, unlike the
    stored one. *)
Lemma channel_permutation_of_repack_witness :
  exists w,
    @repack_gptq_for_marlin Reference.stable_sort Reference.runtime
      Examples.qweight_64x1 None Examples.scales_2x1
      (Some Examples.g_idx_act_order) 4 true 32 "gptq" true false = Ok w
    /\ Permutation (@argsort_keys Reference.stable_sort
                      (data Examples.g_idx_act_order)) (seq 0 64)
    /\ data (GPTQMarlinWeight.perm w)
       = map (fun i => Z.of_nat (2 * i + 1)) (seq 0 32)
         ++ map (fun i => Z.of_nat (2 * i)) (seq 0 32)
    /\ data (GPTQMarlinWeight.g_idx w) = repeat 0 32 ++ repeat 1 32
    /\ Sorted Z.le (data (GPTQMarlinWeight.g_idx w))
    /\ data (GPTQMarlinWeight.g_idx w) <> data Examples.g_idx_act_order
    /\ ~ Sorted Z.le (data Examples.g_idx_act_order).
Proof.
  destruct (@repack_gptq_for_marlin Reference.stable_sort Reference.runtime
      Examples.qweight_64x1 None Examples.scales_2x1
      (Some Examples.g_idx_act_order) 4 true 32 "gptq" true false)
    as [w|e] eqn:E; [|vm_compute in E; discriminate].
  exists w. split; [reflexivity|].
  destruct (proj1 (@channel_permutation_of_repack Reference.stable_sort
      Reference.runtime Examples.qweight_64x1 None Examples.scales_2x1
      (Some Examples.g_idx_act_order) 4 true 32 "gptq" true false w E)
      Examples.g_idx_act_order eq_refl eq_refl ltac:(lia) eq_refl
      ltac:(vm_compute; reflexivity)) as (Hperm & Hp & Hg & Hsorted).
  split; [exact Hperm|].
  split; [rewrite Hp; vm_compute; reflexivity|].
  split; [rewrite Hg; vm_compute; reflexivity|].
  split; [exact Hsorted|].
  split; [rewrite Hg; vm_compute; discriminate|].
  intros Hs. vm_compute in Hs.
  inversion Hs as [|? ? _ Hhd]. inversion Hhd as [|? ? Hle].
  apply Hle. reflexivity.
Defined.

(** C3 as stated fails: [torch.argsort] is not asked for a stable sort,
    and with a sort that meets torch's contract but reverses ties the
    emitted [perm] is not the stable-sort permutation (the sorted
    [g_idx] is the same). *)
Lemma perm_need_not_be_stable :
  exists w,
    @repack_gptq_for_marlin Reference.tie_reversing_sort Reference.runtime
      Examples.qweight_32x1 None Examples.scales_1x1
      (Some Examples.g_idx_one_group) 4 true 32 "gptq" true false = Ok w
    /\ data (GPTQMarlinWeight.perm w) = map Z.of_nat (rev (seq 0 32))
    /\ map Z.of_nat (stable_argsort (data Examples.g_idx_one_group))
       = map Z.of_nat (seq 0 32)
    /\ data (GPTQMarlinWeight.perm w)
       <> map Z.of_nat (stable_argsort (data Examples.g_idx_one_group))
    /\ data (GPTQMarlinWeight.g_idx w) = repeat 0 32.
Proof.
  eexists. split; [vm_compute; reflexivity|].
  split; [vm_compute; reflexivity|].
  split; [vm_compute; reflexivity|].
  split; [vm_compute; discriminate | vm_compute; reflexivity].
Qed.

(** *** The shuffle-undo step *)

Lemma py_getitem_nat (row : list Z) (j : nat) :
  (j < length row)%nat -> py_getitem row (Z.of_nat j) = Ok (nth j row 0).
Proof.
  intros Hj. unfold py_getitem. rewrite py_index_nat by exact Hj.
  reflexivity.
Qed.

Lemma index_cols_rows (t : Tensor) (idx : list nat) (r c : nat) :
  shape t = [r; c] ->
  (r * c <= length (data t))%nat ->
  Forall (fun j => (j < c)%nat) idx ->
  index_cols t (map Z.of_nat idx)
  = Ok (mkTensor (dtype t) (device t) [r; length idx]
          (concat (map (fun row => map (fun j => nth j row 0) idx)
                     (rows c r (data t))))).
Proof.
  intros Hs Hl Hidx. unfold index_cols. rewrite Hs.
  rewrite (mapM_Ok_map _ (fun row => map (fun j => nth j row 0) idx)).
  - rewrite bind_Ok, length_map. reflexivity.
  - intros row Hrow.
    pose proof (rows_row_length c r (data t) Hl) as Hlen.
    rewrite Forall_forall in Hlen. specialize (Hlen row).
    rewrite list_elem_of_In in Hlen. specialize (Hlen Hrow).
    rewrite (mapM_Ok_map _ (fun z => nth (Z.to_nat z) row 0)).
    + rewrite map_map. f_equal. apply map_ext. intros j.
      rewrite Nat2Z.id. reflexivity.
    + intros z Hz. apply in_map_iff in Hz as (j & <- & Hj).
      rewrite Nat2Z.id. apply py_getitem_nat.
      rewrite Forall_forall in Hidx. specialize (Hidx j).
      rewrite list_elem_of_In in Hidx. specialize (Hidx Hj). lia.
Qed.

Lemma gather_blocks_length (idx : list nat) (l : list Z) :
  (length l mod length idx = 0)%nat ->
  length (gather_blocks idx l) = length l.
Proof.
  intros Hm. unfold gather_blocks.
  rewrite (concat_length_uniform (length idx)).
  - rewrite length_map, rows_length.
    pose proof (Nat.div_mod_eq (length l) (length idx)). lia.
  - apply Forall_map, Forall_forall. intros row _. simpl.
    apply length_map.
Qed.

Lemma gather_blocks_nth (idx : list nat) (l : list Z) (b j : nat) :
  Forall (fun k => (k < length idx)%nat) idx ->
  (length l mod length idx = 0)%nat ->
  (j < length idx)%nat ->
  (b * length idx + j < length l)%nat ->
  nth (b * length idx + j) (gather_blocks idx l) 0
  = nth (b * length idx + nth j idx 0%nat) l 0.
Proof.
  intros Hidx Hm Hj Hb. unfold gather_blocks.
  set (c := length idx) in *.
  assert (Hbr : (b < length l / c)%nat).
  { pose proof (Nat.div_mod_eq (length l) c). nia. }
  rewrite (concat_nth_uniform 0 c).
  - rewrite (nth_indep _ [] (map (fun j => nth j [] 0) idx))
      by (rewrite length_map, rows_length; exact Hbr).
    rewrite (map_nth (fun row => map (fun j => nth j row 0) idx)).
    rewrite rows_nth by exact Hbr.
    rewrite (nth_indep _ 0 (nth 0%nat (take c (drop (b * c) l)) 0))
      by (rewrite length_map; exact Hj).
    rewrite (map_nth (fun j => nth j (take c (drop (b * c) l)) 0)).
    apply take_drop_nth.
    rewrite Forall_forall in Hidx. apply Hidx.
    apply list_elem_of_In, nth_In. exact Hj.
  - apply Forall_map, Forall_forall. intros row _. simpl.
    apply length_map.
  - exact Hj.
Qed.

Lemma reshape_rows_Ok (t : Tensor) (c : Z) :
  0 < c -> Z.of_nat (numel t) mod c = 0 ->
  reshape_rows t c
  = Ok (mkTensor (dtype t) (device t)
          [(numel t / Z.to_nat c)%nat; Z.to_nat c] (data t)).
Proof.
  intros Hc Hm. unfold reshape_rows.
  apply Z.ltb_lt in Hc. apply Z.eqb_eq in Hm. rewrite Hc, Hm.
  reflexivity.
Qed.

(** Lines 467-468 on an unpacked tensor of [size_k * size_n] values. *)
Lemma reshape_gather_reshape (q : Tensor) (idx : list nat)
    (size_k size_n : Z) :
  (0 < length idx)%nat ->
  Forall (fun k => (k < length idx)%nat) idx ->
  0 < size_n -> 0 <= size_k ->
  Z.of_nat (numel q) = size_k * size_n ->
  (numel q mod length idx = 0)%nat ->
  (q1 ← reshape_rows q (Z.of_nat (length (map Z.of_nat idx)));
   q2 ← index_cols q1 (map Z.of_nat idx);
   q3 ← reshape_rows (ravel q2) size_n;
   Ok (contiguous q3))
  = Ok (mkTensor (dtype q) (device q) [Z.to_nat size_k; Z.to_nat size_n]
          (gather_blocks idx (data q))).
Proof.
  intros Hpos Hidx Hn Hk Hnumel Hmod.
  rewrite length_map.
  rewrite (reshape_rows_Ok q) by
    (try lia; rewrite <- Nat2Z.inj_mod, Hmod; reflexivity).
  rewrite bind_Ok, Nat2Z.id.
  rewrite (index_cols_rows _ idx (numel q / length idx) (length idx)).
  - rewrite bind_Ok. cbn [data dtype device shape].
    rewrite reshape_rows_Ok.
    + rewrite bind_Ok. unfold contiguous, ravel, numel.
      cbn [data dtype device shape].
      fold (gather_blocks idx (data q)).
      rewrite gather_blocks_length by exact Hmod.
      f_equal. f_equal. f_equal.
      assert (Hq : length (data q) = (Z.to_nat size_k * Z.to_nat size_n)%nat)
        by (unfold numel in Hnumel; lia).
      rewrite Hq. apply Nat.div_mul. lia.
    + exact Hn.
    + unfold ravel, numel. cbn [data dtype device shape].
      fold (gather_blocks idx (data q)).
      rewrite gather_blocks_length by exact Hmod.
      fold (numel q). rewrite Hnumel. apply Z.mod_mul. lia.
  - reflexivity.
  - simpl. unfold numel.
    pose proof (Nat.div_mod_eq (length (data q)) (length idx)).
    unfold numel in Hmod. lia.
  - exact Hidx.
Qed.

Lemma awq_undo_interleave_inverse (num_bits : Z) (i : nat) :
  num_bits = 4 \/ num_bits = 8 ->
  (i < length (awq_interleave num_bits))%nat ->
  nth (nth i (awq_interleave num_bits) 0%nat)
      (awq_undo_interleave num_bits) 0%nat = i
  /\ nth (nth i (awq_undo_interleave num_bits) 0%nat)
         (awq_interleave num_bits) 0%nat = i
  /\ (nth i (awq_interleave num_bits) 0
      < length (awq_interleave num_bits))%nat.
Proof.
  intros [-> | ->] Hi; simpl in Hi |- *.
  - do 8 (destruct i as [|i]; [simpl; repeat split; lia|]). lia.
  - do 4 (destruct i as [|i]; [simpl; repeat split; lia|]). lia.
Qed.

Lemma undo_interleave_for_table (num_bits : Z) :
  num_bits = 4 \/ num_bits = 8 ->
  undo_interleave_for num_bits
  = Ok (map Z.of_nat (awq_undo_interleave num_bits))
  /\ length (awq_undo_interleave num_bits)
     = length (awq_interleave num_bits)
  /\ Forall (fun k => (k < length (awq_undo_interleave num_bits))%nat)
       (awq_undo_interleave num_bits).
Proof.
  intros [-> | ->]; (split; [reflexivity|]; split; [reflexivity|]);
    simpl; repeat constructor.
Qed.

(** C4: in [awq_to_marlin_zero_points] the shuffle-undo step reorders
    every block of 8 (4-bit) or 4 (8-bit) consecutive values of the
    flattened unpacked zero-points by the inverse of the interleave
    [0,2,4,6,1,3,5,7] (resp. [0,2,1,3]) -- the value at lane [i] of a
    block moves to lane [interleave[i]] -- and reshapes the result back
    to [(size_k, size_n)]; the unpacked tensor is what [unpack_cols]
    returned, and the result is what [marlin_zero_points] receives.  For
    any other bit width the step raises, and so the whole conversion
    fails with an exception. *)
Theorem shuffle_undo_step `{Runtime} :
  (forall num_bits i,
      num_bits = 4 \/ num_bits = 8 ->
      (i < length (awq_interleave num_bits))%nat ->
      undo_interleave_for num_bits
      = Ok (map Z.of_nat (awq_undo_interleave num_bits))
      /\ length (awq_interleave num_bits) = (if num_bits =? 4 then 8%nat else 4%nat)
      /\ nth (nth i (awq_interleave num_bits) 0%nat)
             (awq_undo_interleave num_bits) 0%nat = i
      /\ nth (nth i (awq_undo_interleave num_bits) 0%nat)
             (awq_interleave num_bits) 0%nat = i)
  /\ (forall q_zp size_k size_n num_bits,
      let lanes := length (awq_interleave num_bits) in
      num_bits = 4 \/ num_bits = 8 ->
      0 < size_n -> 0 <= size_k ->
      Z.of_nat (numel q_zp) = size_k * size_n ->
      (numel q_zp mod lanes = 0)%nat ->
      exists t,
        undo_interleaving q_zp size_n num_bits = Ok t
        /\ shape t = [Z.to_nat size_k; Z.to_nat size_n]
        /\ dtype t = dtype q_zp
        /\ length (data t) = numel q_zp
        /\ (forall b j, (j < lanes)%nat -> (b * lanes + j < numel q_zp)%nat ->
            nth (b * lanes + j) (data t) 0
            = nth (b * lanes + nth j (awq_undo_interleave num_bits) 0%nat)
                (data q_zp) 0)
        /\ (forall b i, (i < lanes)%nat -> (b * lanes + i < numel q_zp)%nat ->
            nth (b * lanes + nth i (awq_interleave num_bits) 0%nat) (data t) 0
            = nth (b * lanes + i) (data q_zp) 0))
  /\ (forall q_zp size_n num_bits,
      num_bits <> 4 -> num_bits <> 8 ->
      undo_interleaving q_zp size_n num_bits
      = Err (Raise PyException (MsgNumBits num_bits)))
  /\ (forall q_zp_packed size_k size_n num_bits,
      num_bits <> 4 -> num_bits <> 8 ->
      exists e,
        awq_to_marlin_zero_points q_zp_packed size_k size_n num_bits = Err e)
  /\ (forall q_zp_packed size_k size_n num_bits q_zp,
      unpack_cols q_zp_packed num_bits size_k size_n = inl q_zp ->
      awq_to_marlin_zero_points q_zp_packed size_k size_n num_bits
      = (t ← undo_interleaving q_zp size_n num_bits;
         lift_foreign (marlin_zero_points t size_k size_n num_bits))).
Proof.
  assert (Hbad : forall q_zp size_n num_bits,
             num_bits <> 4 -> num_bits <> 8 ->
             undo_interleaving q_zp size_n num_bits
             = Err (Raise PyException (MsgNumBits num_bits))).
  { intros q_zp size_n num_bits H4%Z.eqb_neq H8%Z.eqb_neq.
    unfold undo_interleaving, undo_interleave_for. rewrite H4, H8.
    reflexivity. }
  split; [| split; [| split; [| split]]].
  - intros num_bits i Hb Hi.
    destruct (undo_interleave_for_table num_bits Hb) as (Ht & _ & _).
    destruct (awq_undo_interleave_inverse num_bits i Hb Hi) as (H1 & H2 & _).
    repeat split; try assumption.
    destruct Hb as [-> | ->]; reflexivity.
  - intros q_zp size_k size_n num_bits lanes Hb Hn Hk Hnumel Hmod.
    destruct (undo_interleave_for_table num_bits Hb) as (Ht & Hlen & Hidx).
    fold lanes in Hlen.
    pose proof (reshape_gather_reshape q_zp (awq_undo_interleave num_bits)
                  size_k size_n) as Hr.
    rewrite Hlen in Hr, Hidx.
    assert (Hpos : (0 < lanes)%nat)
      by (subst lanes; destruct Hb as [-> | ->]; simpl; lia).
    specialize (Hr Hpos Hidx Hn Hk Hnumel Hmod).
    eexists. split.
    { unfold undo_interleaving. rewrite Ht, bind_Ok. exact Hr. }
    cbn [shape dtype data].
    assert (Hm : (length (data q_zp)
                  mod length (awq_undo_interleave num_bits) = 0)%nat)
      by (rewrite Hlen; exact Hmod).
    assert (Hnth : forall b j, (j < lanes)%nat ->
              (b * lanes + j < numel q_zp)%nat ->
              nth (b * lanes + j)
                (gather_blocks (awq_undo_interleave num_bits) (data q_zp)) 0
              = nth (b * lanes + nth j (awq_undo_interleave num_bits) 0%nat)
                  (data q_zp) 0).
    { intros b j Hj Hbj. rewrite <- Hlen.
      apply gather_blocks_nth; rewrite ?Hlen; assumption. }
    repeat split.
    + apply gather_blocks_length. exact Hm.
    + exact Hnth.
    + intros b i Hi Hbi.
      destruct (awq_undo_interleave_inverse num_bits i Hb Hi) as (H1 & _ & H3).
      fold lanes in H3.
      rewrite Hnth; [rewrite H1; reflexivity | exact H3 |].
      pose proof (Nat.div_mod_eq (numel q_zp) lanes) as Hd.
      rewrite Hmod, Nat.add_0_r in Hd.
      set (rows_n := (numel q_zp / lanes)%nat) in Hd.
      assert (Hbr : (b < rows_n)%nat).
      { destruct (Nat.lt_ge_cases b rows_n) as [Hlt|Hge]; [exact Hlt|].
        assert ((lanes * rows_n <= lanes * b)%nat)
          by (apply Nat.mul_le_mono_l; exact Hge). lia. }
      assert ((lanes * S b <= lanes * rows_n)%nat)
        by (apply Nat.mul_le_mono_l; lia).
      lia.
  - exact Hbad.
  - intros q_zp_packed size_k size_n num_bits H4 H8.
    unfold awq_to_marlin_zero_points.
    destruct (lift_foreign (unpack_cols q_zp_packed num_bits size_k size_n))
      as [u|e].
    + rewrite bind_Ok, (Hbad u size_n num_bits H4 H8). eexists. reflexivity.
    + eexists. reflexivity.
  - intros q_zp_packed size_k size_n num_bits q_zp Hu.
    unfold awq_to_marlin_zero_points. rewrite Hu. reflexivity.
Qed.

Lemma shuffle_undo_step_witness :
  exists t,
    undo_interleaving Examples.unpacked_1x8 8 4 = Ok t
    /\ shape t = [1%nat; 8%nat]
    /\ data t = [10; 14; 11; 15; 12; 16; 13; 17].
Proof.
  destruct (proj1 (proj2 (@shuffle_undo_step Reference.runtime))
              Examples.unpacked_1x8 1 8 4 (or_introl eq_refl)
              ltac:(lia) ltac:(lia) eq_refl eq_refl)
    as (t & Et & Hs & _).
  exists t. split; [exact Et|]. split; [exact Hs|].
  assert (E : undo_interleaving Examples.unpacked_1x8 8 4
              = Ok (mkTensor int32 (cuda 0) [1%nat; 8%nat]
                      [10; 14; 11; 15; 12; 16; 13; 17]))
    by (vm_compute; reflexivity).
  rewrite E in Et. injection Et as <-. reflexivity.
Defined.

(** *** Missing tensors *)

Lemma get_tensor_missing (weights : Weights) (name : string) :
  tensors weights !! name = None ->
  get_tensor weights name = Err (Raise RuntimeError (MsgWeightMissing name)).
Proof. unfold get_tensor. intros ->. reflexivity. Qed.

Lemma get_sharded_missing (weights : Weights) (name : string) (dim : Z) :
  tensors weights !! name = None ->
  get_sharded weights name dim
  = Err (Raise RuntimeError (MsgWeightMissing name)).
Proof. unfold get_sharded, get_tensor. intros ->. reflexivity. Qed.

Lemma get_packed_sharded_missing (weights : Weights) (name : string)
    (dim : Z) (block_sizes : Z + list Z) :
  tensors weights !! name = None ->
  get_packed_sharded weights name dim block_sizes
  = Err (Raise RuntimeError (MsgWeightMissing name)).
Proof. unfold get_packed_sharded, get_tensor. intros ->. reflexivity. Qed.

Lemma get_tensor_present (weights : Weights) (name : string) :
  tensors weights !! name <> None ->
  exists t, get_tensor weights name = Ok t.
Proof.
  unfold get_tensor. destruct (tensors weights !! name); [eauto | congruence].
Qed.

Lemma get_sharded_present (weights : Weights) (name : string) (dim : Z) :
  tensors weights !! name <> None ->
  exists t, get_sharded weights name dim = Ok t.
Proof.
  unfold get_sharded, get_tensor.
  destruct (tensors weights !! name); [eauto | congruence].
Qed.

Lemma get_packed_sharded_present (weights : Weights) (name : string)
    (dim : Z) (block_sizes : Z + list Z) :
  tensors weights !! name <> None ->
  exists t, get_packed_sharded weights name dim block_sizes = Ok t.
Proof.
  unfold get_packed_sharded, get_tensor.
  destruct (tensors weights !! name); [eauto | congruence].
Qed.

Lemma try_except_Ok {A} (a : A) (e' : exn) :
  try_except_RuntimeError (Ok a) e' = Ok a.
Proof. reflexivity. Qed.

(** Lookups of one tensor per prefix, as the list comprehensions of
    [get_multi_weights_col] make them. *)
Section MapLookups.
Variable weights : Weights.
Variable suffix : string.
Variable look : string -> result Tensor.
Hypothesis look_present :
  forall name, tensors weights !! name <> None -> exists t, look name = Ok t.
Hypothesis look_missing :
  forall name, tensors weights !! name = None ->
    look name = Err (Raise RuntimeError (MsgWeightMissing name)).

Lemma mapM_look_Ok (prefixes : list string) (ts : list Tensor) :
  mapM (fun p => look (p +:+ suffix)) prefixes = Ok ts ->
  forall p, In p prefixes -> tensors weights !! (p +:+ suffix) <> None.
Proof.
  revert ts. induction prefixes as [|q ps IH]; intros ts E p Hin;
    [destruct Hin|].
  simpl in E. apply bind_Ok_inv in E as (t & Et & E).
  apply bind_Ok_inv in E as (ts' & Ets & _).
  destruct Hin as [<- | Hin]; [|exact (IH _ Ets p Hin)].
  intros Hn. rewrite (look_missing _ Hn) in Et. discriminate.
Qed.

Lemma mapM_look_first_missing (prefixes : list string) (p : string) :
  first_missing weights prefixes suffix p ->
  mapM (fun p => look (p +:+ suffix)) prefixes
  = Err (Raise RuntimeError (MsgWeightMissing (p +:+ suffix))).
Proof.
  intros (pre & post & -> & Hpre & Hp).
  induction Hpre as [|q pre Hq _ IH]; simpl.
  - rewrite (look_missing _ Hp). reflexivity.
  - destruct (look_present _ Hq) as (t & ->). rewrite bind_Ok, IH.
    reflexivity.
Qed.

Lemma some_missing_first_missing (prefixes : list string) :
  (exists p, In p prefixes /\ tensors weights !! (p +:+ suffix) = None) ->
  exists p, first_missing weights prefixes suffix p.
Proof.
  intros (p & Hin & Hp). induction prefixes as [|q ps IH]; [destruct Hin|].
  destruct (tensors weights !! (q +:+ suffix)) eqn:Eq.
  - destruct Hin as [-> | Hin]; [congruence|].
    destruct (IH Hin) as (p' & pre & post & -> & Hpre & Hp').
    exists p', (q :: pre), post. split; [reflexivity|]. split; [|exact Hp'].
    constructor; [congruence | exact Hpre].
  - exists q, [], ps. split; [reflexivity|]. split; [constructor | exact Eq].
Qed.

Lemma mapM_look_Err (prefixes : list string) (e : exn) :
  mapM (fun p => look (p +:+ suffix)) prefixes = Err e ->
  exists p, In p prefixes /\ tensors weights !! (p +:+ suffix) = None
            /\ e = Raise RuntimeError (MsgWeightMissing (p +:+ suffix)).
Proof.
  induction prefixes as [|q ps IH]; simpl; intros E; [discriminate|].
  apply bind_Err_inv in E as [E | (t & _ & E)].
  - exists q. split; [left; reflexivity|].
    destruct (tensors weights !! (q +:+ suffix)) eqn:Eq.
    + destruct (look_present (q +:+ suffix)) as (t' & Et); congruence.
    + rewrite (look_missing _ Eq) in E. split; [reflexivity | congruence].
  - apply bind_Err_inv in E as [E | (ts & _ & E)]; [|discriminate].
    destruct (IH E) as (p & Hin & Hp & ->). exists p.
    split; [right; exact Hin | auto].
Qed.

End MapLookups.

Section Loading.
Variable self : GPTQMarlinWeightsLoader.t.
Variable weights : Weights.
Variable prefix : string.
Variable msg : message.
Hypothesis msg_hint : loader_hint msg = true.

Let missing (suffix : string) : Prop :=
  tensors weights !! (prefix +:+ suffix) = None.
Let present (suffix : string) : Prop :=
  tensors weights !! (prefix +:+ suffix) <> None.
Let summary (call : result GPTQMarlinWeight.t) : Prop :=
  exists e, call = Err e /\ is_LoadError e = true
            /\ has_remediation_hint e = true
            /\ (loader_hint (exn_msg e) = true <-> missing ".qweight").

Lemma present_or_missing (suffix : string) :
  present suffix \/ missing suffix.
Proof.
  unfold present, missing.
  destruct (tensors weights !! (prefix +:+ suffix)); [left | right];
    congruence.
Qed.

(** The loader's own error: a load error with the hint. *)
Lemma loader_error_summary (call : result GPTQMarlinWeight.t) :
  missing ".qweight" -> call = Err (Raise RuntimeError msg) -> summary call.
Proof.
  intros Mw E. exists (Raise RuntimeError msg). split; [exact E|].
  unfold has_remediation_hint. cbn [exn_msg]. rewrite msg_hint.
  split; [destruct msg; try discriminate; reflexivity|].
  split; [reflexivity | tauto].
Qed.

(** The storage's error, passed on as it is. *)
Lemma storage_error_summary (call : result GPTQMarlinWeight.t)
    (name : string) :
  present ".qweight" ->
  call = Err (Raise RuntimeError (MsgWeightMissing name)) -> summary call.
Proof.
  intros Pw E. eexists. split; [exact E|].
  split; [reflexivity|]. split; [reflexivity|].
  cbn. split; [discriminate | intros Mw; contradiction].
Qed.

(** The first of the required tensors that is missing decides the
    error. *)
Lemma first_missing_decides (call : result GPTQMarlinWeight.t) :
  let sym := GPTQMarlinWeightsLoader.sym self in
  let quant_method := GPTQMarlinWeightsLoader.quant_method self in
  (missing ".qweight" -> call = Err (Raise RuntimeError msg)) ->
  (present ".qweight" -> sym = false -> missing ".qzeros" ->
   call = Err (Raise RuntimeError (MsgWeightMissing (prefix +:+ ".qzeros")))) ->
  (present ".qweight" -> sym = true \/ present ".qzeros" ->
   quant_method <> "awq" -> missing ".g_idx" ->
   call = Err (Raise RuntimeError (MsgWeightMissing (prefix +:+ ".g_idx")))) ->
  (present ".qweight" -> sym = true \/ present ".qzeros" ->
   quant_method = "awq" \/ present ".g_idx" -> missing ".scales" ->
   call = Err (Raise RuntimeError (MsgWeightMissing (prefix +:+ ".scales")))) ->
  missing_tensor_behaviour self weights prefix msg call.
Proof.
  intros sym quant_method H1 H2 H3 H4.
  unfold missing_tensor_behaviour. fold sym quant_method.
  repeat split; try assumption.
  intros Hm. fold (summary call).
  destruct (present_or_missing ".qweight") as [Pw | Mw];
    [|exact (loader_error_summary _ Mw (H1 Mw))].
  assert (Htail : sym = true \/ present ".qzeros" -> summary call).
  { intros Hz.
    destruct (decide (quant_method = "awq")) as [Ea | Na];
      destruct (present_or_missing ".g_idx") as [Pg | Mg];
      destruct (present_or_missing ".scales") as [Ps | Ms];
      try (first [ exact (storage_error_summary _ _ Pw (H3 Pw Hz Na Mg))
                 | refine (storage_error_summary _ _ Pw (H4 Pw Hz _ Ms));
                   tauto ]);
      exfalso; unfold missing, present in *; intuition congruence. }
  destruct (Bool.bool_dec sym true) as [Es | Es];
    [apply Htail; left; exact Es|].
  apply not_true_is_false in Es.
  destruct (present_or_missing ".qzeros") as [Pz | Mz];
    [apply Htail; right; exact Pz|].
  exact (storage_error_summary _ _ Pw (H2 Pw Es Mz)).
Qed.

(** The same for the order of [get_weights_col_packed]. *)
Lemma first_missing_decides_col_packed (call : result GPTQMarlinWeight.t) :
  let sym := GPTQMarlinWeightsLoader.sym self in
  let quant_method := GPTQMarlinWeightsLoader.quant_method self in
  (missing ".qweight" -> call = Err (Raise RuntimeError msg)) ->
  (present ".qweight" -> missing ".scales" ->
   call = Err (Raise RuntimeError (MsgWeightMissing (prefix +:+ ".scales")))) ->
  (present ".qweight" -> present ".scales" -> sym = false ->
   missing ".qzeros" ->
   call = Err (Raise RuntimeError (MsgWeightMissing (prefix +:+ ".qzeros")))) ->
  (present ".qweight" -> present ".scales" ->
   sym = true \/ present ".qzeros" ->
   quant_method <> "awq" -> missing ".g_idx" ->
   call = Err (Raise RuntimeError (MsgWeightMissing (prefix +:+ ".g_idx")))) ->
  missing_tensor_behaviour_col_packed self weights prefix msg call.
Proof.
  intros sym quant_method H1 H2 H3 H4.
  unfold missing_tensor_behaviour_col_packed. fold sym quant_method.
  repeat split; try assumption.
  intros Hm. fold (summary call).
  destruct (present_or_missing ".qweight") as [Pw | Mw];
    [|exact (loader_error_summary _ Mw (H1 Mw))].
  destruct (present_or_missing ".scales") as [Ps | Ms];
    [|exact (storage_error_summary _ _ Pw (H2 Pw Ms))].
  assert (Htail : sym = true \/ present ".qzeros" -> summary call).
  { intros Hz.
    destruct (decide (quant_method = "awq")) as [Ea | Na];
      destruct (present_or_missing ".g_idx") as [Pg | Mg];
      try exact (storage_error_summary _ _ Pw (H4 Pw Ps Hz Na Mg));
      exfalso; unfold missing, present in *; intuition congruence. }
  destruct (Bool.bool_dec sym true) as [Es | Es];
    [apply Htail; left; exact Es|].
  apply not_true_is_false in Es.
  destruct (present_or_missing ".qzeros") as [Pz | Mz];
    [apply Htail; right; exact Pz|].
  exact (storage_error_summary _ _ Pw (H3 Pw Ps Es Mz)).
Qed.

End Loading.

Section LoadingSeveral.
Context `{TorchSort} `{Runtime} `{TorchTensors}.
Variable self : GPTQMarlinWeightsLoader.t.
Variable weights : Weights.
Variable prefixes : list string.

Let sharded (suffix : string) : result (list Tensor) :=
  mapM (fun p => get_sharded weights (p +:+ suffix) 1) prefixes.
Let missing_for (suffix : string) : Prop :=
  exists p, In p prefixes /\ tensors weights !! (p +:+ suffix) = None.

Lemma sharded_first_missing (suffix p : string) :
  first_missing weights prefixes suffix p ->
  sharded suffix = Err (Raise RuntimeError (MsgWeightMissing (p +:+ suffix))).
Proof.
  apply (mapM_look_first_missing weights suffix
           (fun name => get_sharded weights name 1)).
  - intros name. apply get_sharded_present.
  - intros name. apply get_sharded_missing.
Qed.

Lemma sharded_Ok (suffix : string) (ts : list Tensor) :
  sharded suffix = Ok ts -> ~ missing_for suffix.
Proof.
  intros E (p & Hin & Hp).
  apply (mapM_look_Ok weights suffix (fun name => get_sharded weights name 1))
    with (p := p) in E; [contradiction | | exact Hin].
  intros name. apply get_sharded_missing.
Qed.

Lemma sharded_Err (suffix : string) (e : exn) :
  sharded suffix = Err e ->
  exists p, missing_for suffix
            /\ e = Raise RuntimeError (MsgWeightMissing (p +:+ suffix)).
Proof.
  intros E.
  apply (mapM_look_Err weights suffix (fun name => get_sharded weights name 1))
    in E as (p & Hin & Hp & ->).
  - exists p. split; [exists p; auto | reflexivity].
  - intros name. apply get_sharded_present.
  - intros name. apply get_sharded_missing.
Qed.

Lemma g_idx_first_missing (p : string) :
  first_missing weights prefixes ".g_idx" p ->
  mapM (fun p => get_tensor weights (p +:+ ".g_idx")) prefixes
  = Err (Raise RuntimeError (MsgWeightMissing (p +:+ ".g_idx"))).
Proof.
  apply (mapM_look_first_missing weights ".g_idx" (get_tensor weights)).
  - apply get_tensor_present.
  - apply get_tensor_missing.
Qed.

Lemma g_idx_Ok (w : list Tensor) :
  mapM (fun p => get_tensor weights (p +:+ ".g_idx")) prefixes = Ok w ->
  ~ missing_for ".g_idx".
Proof.
  intros E (p & Hin & Hp).
  apply (mapM_look_Ok weights ".g_idx" (get_tensor weights))
    with (p := p) in E; [contradiction | | exact Hin].
  apply get_tensor_missing.
Qed.

Lemma g_idx_Err (e : exn) :
  mapM (fun p => get_tensor weights (p +:+ ".g_idx")) prefixes = Err e ->
  exists p, e = Raise RuntimeError (MsgWeightMissing (p +:+ ".g_idx")).
Proof.
  intros E.
  apply (mapM_look_Err weights ".g_idx" (get_tensor weights))
    in E as (p & _ & _ & ->); [eauto | |].
  - apply get_tensor_present.
  - apply get_tensor_missing.
Qed.

(** A concatenation that went through had all its tensors. *)
Lemma cat_of_shards_Ok (suffix : string) (t : Tensor) :
  cat_of_shards weights prefixes suffix = Ok t ->
  exists ts, sharded suffix = Ok ts /\ torch_cat ts 1 = inl t.
Proof.
  unfold cat_of_shards. fold (sharded suffix). intros E.
  apply bind_Ok_inv in E as (ts & Ets & E). exists ts. split; [exact Ets|].
  destruct (torch_cat ts 1) as [t'|[c s]]; simpl in E; congruence.
Qed.

Lemma cat_of_shards_first_missing (suffix p : string) :
  first_missing weights prefixes suffix p ->
  cat_of_shards weights prefixes suffix
  = Err (Raise RuntimeError (MsgWeightMissing (p +:+ suffix))).
Proof.
  intros Hp. unfold cat_of_shards. fold (sharded suffix).
  rewrite (sharded_first_missing _ _ Hp). reflexivity.
Qed.

Lemma cat_of_shards_Err (suffix : string) (e : exn) :
  cat_of_shards weights prefixes suffix = Err e ->
  (exists p, missing_for suffix
             /\ e = Raise RuntimeError (MsgWeightMissing (p +:+ suffix)))
  \/ (exists ts c s, sharded suffix = Ok ts /\ torch_cat ts 1 = inr (c, s)
                     /\ e = Raise c (MsgForeign s)).
Proof.
  unfold cat_of_shards. fold (sharded suffix). intros E.
  apply bind_Err_inv in E as [E | (ts & Ets & E)].
  - left. apply sharded_Err. exact E.
  - right. exists ts.
    destruct (torch_cat ts 1) as [t|[c s]]; simpl in E; [discriminate|].
    exists c, s. split; [exact Ets|]. split; [reflexivity | congruence].
Qed.

(** [get_multi_weights_col] in terms of its concatenations. *)
Lemma get_multi_weights_col_eq (dim : Z) :
  GPTQMarlinWeightsLoader.get_multi_weights_col self weights prefixes dim
  = (qweight ← try_except_RuntimeError
                 (cat_of_shards weights prefixes ".qweight")
                 (Raise RuntimeError
                    (MsgCannotLoad (GPTQMarlinWeightsLoader.quantize self)
                       false));
     scales ← cat_of_shards weights prefixes ".scales";
     qzeros ← (if negb (GPTQMarlinWeightsLoader.sym self) then
                 z ← cat_of_shards weights prefixes ".qzeros"; Ok (Some z)
               else Ok None);
     g_idx ← (if String.eqb (GPTQMarlinWeightsLoader.quant_method self) "awq"
              then Ok None
              else
                w ← mapM (fun p => get_tensor weights (p +:+ ".g_idx"))
                      prefixes;
                match w with
                | [] => Err (Raise IndexError
                               (MsgForeign "list index out of range"))
                | w0 :: rest =>
                    mapM (fun w2 => lift_foreign (assert_close w2 w0)) rest;;
                    Ok (Some w0)
                end);
     repack_gptq_for_marlin qweight qzeros scales g_idx
       (GPTQMarlinWeightsLoader.bits self)
       (GPTQMarlinWeightsLoader.desc_act self)
       (GPTQMarlinWeightsLoader.groupsize self)
       (GPTQMarlinWeightsLoader.quant_method self)
       (GPTQMarlinWeightsLoader.sym self) false).
Proof. reflexivity. Qed.

Lemma get_multi_weights_col_missing (dim : Z) :
  missing_tensor_behaviour_multi self weights prefixes
    (MsgCannotLoad (GPTQMarlinWeightsLoader.quantize self) false)
    (GPTQMarlinWeightsLoader.get_multi_weights_col self weights prefixes dim).
Proof.
  rewrite get_multi_weights_col_eq. unfold missing_tensor_behaviour_multi.
  fold missing_for.
  split; [| split; [| split; [| split]]].
  - intros Hm. apply some_missing_first_missing in Hm as (p & Hp).
    rewrite (cat_of_shards_first_missing _ _ Hp). reflexivity.
  - intros p (qw & ->) Hp.
    rewrite try_except_Ok, bind_Ok, (cat_of_shards_first_missing _ _ Hp).
    reflexivity.
  - intros p (qw & ->) (sc & ->) -> Hp.
    rewrite try_except_Ok, !bind_Ok. cbn [negb].
    rewrite (cat_of_shards_first_missing _ _ Hp). reflexivity.
  - intros p (qw & ->) (sc & ->) Hz Na%String.eqb_neq Hp.
    rewrite try_except_Ok, !bind_Ok, Na, (g_idx_first_missing _ Hp).
    destruct Hz as [-> | (z & ->)]; [reflexivity|].
    destruct (GPTQMarlinWeightsLoader.sym self); reflexivity.
  - intros Hm.
    assert (Hstorage : forall name,
               is_LoadError (Raise RuntimeError (MsgWeightMissing name)) = true
               /\ has_remediation_hint
                    (Raise RuntimeError (MsgWeightMissing name)) = true)
      by (intros name; split; reflexivity).
    destruct (cat_of_shards weights prefixes ".qweight") as [qw|e] eqn:Ew.
    2:{ apply cat_of_shards_Err in Ew as [(p & _ & ->) | (ts & c & s & Ets & Ec & ->)].
        - eexists. split; [reflexivity|]. left. split; reflexivity.
        - destruct (is_RuntimeError (Raise c (MsgForeign s))) eqn:Er.
          + eexists. split; [cbn; rewrite Er; reflexivity|].
            left. split; reflexivity.
          + eexists. split; [cbn; rewrite Er; reflexivity|].
            right. exists ".qweight", ts, c, s. auto. }
    rewrite try_except_Ok, bind_Ok.
    apply cat_of_shards_Ok in Ew as (tsw & Ew & _). apply sharded_Ok in Ew.
    destruct (cat_of_shards weights prefixes ".scales") as [sc|e] eqn:Es.
    2:{ apply cat_of_shards_Err in Es as [(p & _ & ->) | (ts & c & s & Ets & Ec & ->)].
        - eexists. split; [reflexivity|]. left. apply Hstorage.
        - eexists. split; [reflexivity|].
          right. exists ".scales", ts, c, s. auto. }
    rewrite bind_Ok.
    apply cat_of_shards_Ok in Es as (tss & Es & _). apply sharded_Ok in Es.
    assert (Hz : forall z,
               (if negb (GPTQMarlinWeightsLoader.sym self)
                then z ← cat_of_shards weights prefixes ".qzeros"; Ok (Some z)
                else Ok None) = Ok z ->
               ~ (GPTQMarlinWeightsLoader.sym self = false
                  /\ missing_for ".qzeros")).
    { intros z Ez (Esym & Mz). rewrite Esym in Ez. cbn [negb] in Ez.
      apply bind_Ok_inv in Ez as (t & Et & _).
      apply cat_of_shards_Ok in Et as (ts & Et & _).
      apply sharded_Ok in Et. contradiction. }
    destruct (if negb (GPTQMarlinWeightsLoader.sym self)
              then z ← cat_of_shards weights prefixes ".qzeros"; Ok (Some z)
              else Ok None) as [z|e] eqn:Ez.
    2:{ destruct (GPTQMarlinWeightsLoader.sym self); [discriminate|].
        cbn [negb] in Ez.
        apply bind_Err_inv in Ez as [Ez | (t & _ & Ez)]; [|discriminate].
        apply cat_of_shards_Err in Ez as [(p & _ & ->) | (ts & c & s & Ets & Ec & ->)].
        - eexists. split; [reflexivity|]. left. apply Hstorage.
        - eexists. split; [reflexivity|].
          right. exists ".qzeros", ts, c, s. auto. }
    rewrite bind_Ok. specialize (Hz z eq_refl).
    destruct (String.eqb_spec (GPTQMarlinWeightsLoader.quant_method self) "awq")
      as [Ea | Na].
    { exfalso. destruct Hm as [Hm | [Hm | [Hm | [Hm _]]]]; contradiction. }
    destruct (mapM (fun p => get_tensor weights (p +:+ ".g_idx")) prefixes)
      as [w|e] eqn:Eg.
    2:{ apply g_idx_Err in Eg as (p & ->).
        eexists. split; [reflexivity|]. left. apply Hstorage. }
    exfalso. apply g_idx_Ok in Eg.
    destruct Hm as [Hm | [Hm | [Hm | [_ Hm]]]]; contradiction.
Qed.

End LoadingSeveral.




(** C8: [_check_valid_shape] raises exactly when neither tile
    configuration divides the shape: it returns the [ValueError] iff
    neither (in mod 128 = 0 and out mod 64 = 0) nor (in mod 64 = 0 and
    out mod 128 = 0) holds, and returns normally otherwise; shapes
    divisible by (128,64) or by (64,128) pass and (127,64) fails. *)
Theorem check_valid_shape_iff :
  (forall i o : Z,
      (_check_valid_shape i o = Err (Raise ValueError (MsgInvalidShape o i))
       <-> ~ ((i mod 128 = 0 /\ o mod 64 = 0) \/ (i mod 64 = 0 /\ o mod 128 = 0)))
      /\ (_check_valid_shape i o = Ok tt
          <-> ((i mod 128 = 0 /\ o mod 64 = 0) \/ (i mod 64 = 0 /\ o mod 128 = 0))))
  /\ (forall a b : Z, _check_valid_shape (128 * a) (64 * b) = Ok tt)
  /\ (forall a b : Z, _check_valid_shape (64 * a) (128 * b) = Ok tt)
  /\ _check_valid_shape 127 64 = Err (Raise ValueError (MsgInvalidShape 64 127)).
Proof.
  split; [| split; [| split]].
  - intros i o. unfold _check_valid_shape.
    destruct (Z.eqb_spec (i mod 128) 0), (Z.eqb_spec (o mod 64) 0),
      (Z.eqb_spec (i mod 64) 0), (Z.eqb_spec (o mod 128) 0);
      simpl; split; split; intros; try discriminate; try reflexivity;
      try tauto; try (exfalso; tauto).
  - intros a b. unfold _check_valid_shape.
    replace (128 * a) with (a * 128) by lia.
    replace (64 * b) with (b * 64) by lia.
    rewrite !Z_mod_mult. reflexivity.
  - intros a b. unfold _check_valid_shape.
    replace (64 * a) with (a * 64) by lia.
    replace (128 * b) with (b * 128) by lia.
    rewrite !Z_mod_mult. simpl.
    destruct (negb (a * 64 mod 128 =? 0) || negb (b * 128 mod 64 =? 0));
      reflexivity.
  - reflexivity.
Qed.

Lemma check_valid_shape_iff_witness :
  _check_valid_shape 512 256 = Ok tt.
Proof.
  apply (proj2 (proj1 check_valid_shape_iff 512 256)).
  left. split; reflexivity.
Defined.

(** * Further functions of the module *)

(** ** The platform and [can_use_gptq_marlin] *)

(** What the module reads from its environment at import: [SYSTEM] and
    [torch.cuda.get_device_capability()], which may raise. *)
Class Platform : Type := {
  SYSTEM : string;
  get_device_capability : foreign (Z * Z)
}.

(** Lines 27-31: [except Exception] catches whatever the query raises. *)
Definition has_sm_8_0 `{Platform} : bool :=
  match get_device_capability with
  | inl (major, _minor) => major >=? 8
  | inr _ => false
  end.

(** [x in {...}] on strings. *)
Definition py_in_str (x : string) (l : list string) : bool :=
  existsb (String.eqb x) l.

(** [can_use_gptq_marlin], lines 39-52. *)
Definition can_use_gptq_marlin `{Platform} `{Runtime} (bits groupsize : Z)
    (quant_method quantize : string) (sym : bool) : bool :=
  String.eqb SYSTEM "cuda"
  && bool_decide (quantization <> None)
  && has_sm_8_0
  && py_in_str quantize ["awq"; "gptq"]
  && py_in_str quant_method ["awq"; "gptq"]
  && py_in bits GPTQ_MARLIN_BITS
  && py_in groupsize GPTQ_MARLIN_GROUP_SIZES
  (* We only support asymmetric quantization for AWQ. *)
  && (sym || String.eqb quant_method "awq").

(** ** The loader's settings read from storage *)

(** Modelled from the spec: [Weights.has_tensor], a lookup by name on the
    storage boundary. *)
Definition has_tensor (weights : Weights) (tensor_name : string) : bool :=
  bool_decide (tensors weights !! tensor_name <> None).

(** [t.item()]: the value of a one-element tensor; torch raises for any
    other number of elements. *)
Definition item (t : Tensor) : result Z :=
  match data t with
  | [x] => Ok x
  | _ => Err (Raise RuntimeError
                (MsgForeign "a Tensor with several elements cannot be converted to Scalar"))
  end.

(** [_get_gptq_params], lines 237-250.  The method updates the loader in
    place; here it returns the updated loader.  [sym] is only ever used
    as a condition, so the value read from [gptq_sym] is kept as its
    truth value. *)
Definition _get_gptq_params (self : GPTQMarlinWeightsLoader.t)
    (weights : Weights) : result GPTQMarlinWeightsLoader.t :=
  if has_tensor weights "gptq_bits" && has_tensor weights "gptq_groupsize"
  then
    bits ← get_tensor weights "gptq_bits" ≫= item;
    groupsize ← get_tensor weights "gptq_groupsize" ≫= item;
    (* `server quantize` used asymmetric quantization unconditionally
       before the `gptq_sym` setting tensor was added. *)
    sym ← (if has_tensor weights "gptq_sym"
           then s ← get_tensor weights "gptq_sym" ≫= item; Ok (negb (s =? 0))
           else Ok false);
    Ok (GPTQMarlinWeightsLoader.mk bits false groupsize "gptq"
          (GPTQMarlinWeightsLoader.quantize self) sym)
  else Ok self.

(** ** The linear layer *)

(** [quantization.scalar_types], as far as the layer uses them. *)
Inductive ScalarType : Set := uint4 | uint8 | uint4b8 | uint8b128.

(** [torch.zeros(n, dtype=torch.int, device=d)]. *)
Definition torch_zeros_int (n : Z) (d : Device) : Tensor :=
  mkTensor int32 d [Z.to_nat n] (repeat 0 (Z.to_nat n)).

Module GPTQMarlinLinear.

Record t : Type := mk {
  quant_type : ScalarType;
  is_full_k : bool;
  qweight : Tensor;
  qzeros : Tensor;
  scales : Tensor;
  g_idx : Tensor;
  perm : Tensor;
  bias : option Tensor;
  workspace : Tensor
}.

(** What the constructor raises: an exception of the code above, or its
    own [ValueError("GPTQMarlinLinear only supports 4 and 8-bit
    quantization")]. *)
Inductive init_exn : Set :=
  | Propagated (e : exn)
  | OnlySupports4And8Bit.

Definition propagate {A} (r : result A) : A + init_exn :=
  match r with
  | Ok a => inl a
  | Err e => inr (Propagated e)
  end.

Section Init.
Context `{Runtime}.

(** The checks of [__init__] before any field is set, lines 385-393:
    they give [out_features]. *)
Definition checked_out_features (weight : GPTQMarlinWeight.t) : result Z :=
  lift_foreign _check_marlin_kernels;;
  match quantization with
  | Some _ => Ok tt
  | None => Err (Raise AssertionError MsgAssert)
  end;;
  in_features ← (s ← shape_at (GPTQMarlinWeight.qweight weight) 0;
                 Ok (s * MARLIN_TILE_SIZE));
  out_features ← shape_at (GPTQMarlinWeight.scales weight) 1;
  _check_valid_shape in_features out_features;;
  Ok out_features.

(** [__init__], lines 377-420. *)
Definition __init__ (weight : GPTQMarlinWeight.t) (bias : option Tensor)
    : t + init_exn :=
  match propagate (checked_out_features weight) with
  | inr e => inr e
  | inl out_features =>
      if negb (py_in (GPTQMarlinWeight.bits weight) [4; 8])
      then inr OnlySupports4And8Bit
      else
        let quant_type :=
          if (0 <? numel (GPTQMarlinWeight.qzeros weight))%nat then
            if GPTQMarlinWeight.bits weight =? 4 then uint4 else uint8
          else
            if GPTQMarlinWeight.bits weight =? 4 then uint4b8 else uint8b128 in
        inl (mk quant_type
               (GPTQMarlinWeight.is_full_k weight)
               (GPTQMarlinWeight.qweight weight)
               (GPTQMarlinWeight.qzeros weight)
               (GPTQMarlinWeight.scales weight)
               (GPTQMarlinWeight.g_idx weight)
               (GPTQMarlinWeight.perm weight)
               bias
               (torch_zeros_int (out_features / 64 * 16)
                  (device (GPTQMarlinWeight.qweight weight))))
  end.

End Init.

End GPTQMarlinLinear.

(** [GPTQMarlinWeight.get_linear], lines 272-276. *)
Definition get_linear `{Runtime} (self : GPTQMarlinWeight.t)
    (bias : option Tensor) : GPTQMarlinLinear.t + GPTQMarlinLinear.init_exn :=
  GPTQMarlinLinear.__init__ self bias.

(** ** Notions used in the further statements *)

(** The AWQ interleave applied to every block of lanes of a list of
    values: [x.reshape((-1, lanes))[:, interleave].ravel()]. *)
Definition interleave_blocks (num_bits : Z) (l : list Z) : list Z :=
  gather_blocks (awq_interleave num_bits) l.

(** A platform on which the kernels can be used. *)
Definition cuda_sm80 : Platform :=
  {| SYSTEM := "cuda"; get_device_capability := inl (8, 0) |}.

(** ** Further properties *)

(** *** [can_use_gptq_marlin] and the validation gate *)

Lemma can_use_gptq_marlin_inv `{Platform} `{Runtime} bits groupsize
    quant_method quantize sym :
  can_use_gptq_marlin bits groupsize quant_method quantize sym = true ->
  SYSTEM = "cuda"
  /\ quantization <> None
  /\ has_sm_8_0 = true
  /\ (quantize = "awq" \/ quantize = "gptq")
  /\ (quant_method = "awq" \/ quant_method = "gptq")
  /\ py_in bits GPTQ_MARLIN_BITS = true
  /\ py_in groupsize GPTQ_MARLIN_GROUP_SIZES = true
  /\ sym || String.eqb quant_method "awq" = true.
Proof.
  unfold can_use_gptq_marlin, py_in_str. simpl existsb.
  rewrite !andb_true_iff, !orb_false_r.
  intros (((((((Hs & Hq) & Hc) & Hz) & Hm) & Hb) & Hg) & Hy).
  apply String.eqb_eq in Hs. apply bool_decide_eq_true in Hq.
  apply orb_true_iff in Hz, Hm. rewrite !String.eqb_eq in Hz, Hm.
  repeat split; assumption.
Qed.

(** X1: Whatever [can_use_gptq_marlin] accepts passes the three
    configuration checks of [repack_gptq_for_marlin]: the only
    configuration error the call can still raise is the divisibility
    one. *)
Theorem can_use_passes_gate `{Platform} `{TorchSort} `{Runtime}
    qweight qzeros scales g_idx bits desc_act groupsize quant_method
    quantize sym sharded_infeatures e :
  can_use_gptq_marlin bits groupsize quant_method quantize sym = true ->
  repack_gptq_for_marlin qweight qzeros scales g_idx bits desc_act groupsize
    quant_method sym sharded_infeatures = Err e ->
  is_ConfigurationError e = true ->
  exists in_features,
    e = Raise ValueError (MsgNotDivisible in_features groupsize)
    /\ in_features mod groupsize <> 0.
Proof.
  intros Hc E He.
  apply can_use_gptq_marlin_inv in Hc
    as (_ & _ & _ & _ & _ & Hb & Hg & Hs).
  apply repack_Err_inv in E
    as [E | [(-> & Eb) | [(-> & _ & Eg) | [(-> & _ & _ & Es) | (f & -> & _ & _ & _ & Hd)]]]].
  - destruct e as [c []]; simpl in E; try discriminate;
      destruct c; discriminate.
  - congruence.
  - congruence.
  - apply orb_true_iff in Hs as [-> | Ha]; [discriminate|].
    rewrite Ha, orb_true_r in Es. discriminate.
  - exists f. auto.
Qed.

Lemma can_use_passes_gate_witness :
  exists in_features,
    Raise ValueError (MsgNotDivisible 24 32)
    = Raise ValueError (MsgNotDivisible in_features 32)
    /\ in_features mod 32 <> 0.
Proof.
  apply (@can_use_passes_gate cuda_sm80 Reference.stable_sort
    Reference.runtime Examples.qweight_24x1 None Examples.scales_1x1 None
    4 false 32 "gptq" "gptq" true false).
  - vm_compute. reflexivity.
  - vm_compute. reflexivity.
  - reflexivity.
Defined.

(** *** Fields of a repacked weight *)

Section RepackedFields.
Context `{TorchSort} `{Runtime}.

Lemma is_full_k_of_repack_aux qweight qzeros scales g_idx bits desc_act
    groupsize quant_method sym sharded_infeatures w :
  repack_gptq_for_marlin qweight qzeros scales g_idx bits desc_act groupsize
    quant_method sym sharded_infeatures = Ok w ->
  GPTQMarlinWeight.is_full_k w
  = negb (desc_act && negb (groupsize =? -1) && sharded_infeatures).
Proof.
  intros E.
  apply repack_Ok_inv in E
    as (k & s0 & s1 & pg & r & z & sc & _ & _ & _ & _ & _ & _ & _ & _ & -> & _).
  reflexivity.
Qed.

Lemma bits_of_repack_aux qweight qzeros scales g_idx bits desc_act
    groupsize quant_method sym sharded_infeatures w :
  repack_gptq_for_marlin qweight qzeros scales g_idx bits desc_act groupsize
    quant_method sym sharded_infeatures = Ok w ->
  GPTQMarlinWeight.bits w = bits /\ (bits = 4 \/ bits = 8).
Proof.
  intros E.
  apply repack_Ok_inv in E
    as (k & s0 & s1 & pg & r & z & sc & _ & Hb & _ & _ & _ & _ & _ & _ & -> & _).
  split; [reflexivity | apply py_in_bits; exact Hb].
Qed.

Lemma no_permutation_aux qweight qzeros scales g_idx bits desc_act
    groupsize quant_method sym sharded_infeatures w :
  repack_gptq_for_marlin qweight qzeros scales g_idx bits desc_act groupsize
    quant_method sym sharded_infeatures = Ok w ->
  g_idx = None \/ desc_act = false \/ groupsize = -1 ->
  GPTQMarlinWeight.perm w = torch_empty_int (device qweight)
  /\ GPTQMarlinWeight.g_idx w = torch_empty_int (device qweight).
Proof.
  intros E Hc.
  apply repack_Ok_inv in E
    as (k & s0 & s1 & pg & r & z & sc & _ & _ & _ & _ & _ & _ & Epg & _ & -> & _).
  assert (Epg' : Ok (torch_empty_int (device qweight),
                     torch_empty_int (device qweight)) = Ok pg).
  { destruct g_idx as [g|]; [|exact Epg].
    destruct Hc as [Hc | [-> | ->]]; [discriminate | exact Epg |].
    rewrite andb_false_r in Epg. exact Epg. }
  injection Epg' as <-. split; reflexivity.
Qed.

Lemma no_qzeros_aux qweight scales g_idx bits desc_act
    groupsize quant_method sym sharded_infeatures w :
  repack_gptq_for_marlin qweight None scales g_idx bits desc_act groupsize
    quant_method sym sharded_infeatures = Ok w ->
  GPTQMarlinWeight.qzeros w = torch_empty_int (device qweight).
Proof.
  intros E.
  apply repack_Ok_inv in E
    as (k & s0 & s1 & pg & r & z & sc & _ & _ & _ & _ & _ & _ & _ & Hz & -> & _).
  simpl. destruct (String.eqb quant_method "awq"); subst; reflexivity.
Qed.

End RepackedFields.

(** *** What the loader hands to the repacking *)

Section LoaderFacts.
Context `{TorchSort} `{Runtime}.

(** A successful load went through a successful repacking of tensors
    chosen by the loader's settings. *)
Lemma get_weights_Ok_inv self weights prefix w :
  GPTQMarlinWeightsLoader.get_weights self weights prefix = Ok w ->
  exists qweight qzeros scales g_idx,
    repack_gptq_for_marlin qweight qzeros scales g_idx
      (GPTQMarlinWeightsLoader.bits self)
      (GPTQMarlinWeightsLoader.desc_act self)
      (GPTQMarlinWeightsLoader.groupsize self)
      (GPTQMarlinWeightsLoader.quant_method self)
      (GPTQMarlinWeightsLoader.sym self) false = Ok w
    /\ (GPTQMarlinWeightsLoader.sym self = true -> qzeros = None)
    /\ (GPTQMarlinWeightsLoader.quant_method self = "awq" -> g_idx = None).
Proof.
  unfold GPTQMarlinWeightsLoader.get_weights. intros E.
  apply bind_Ok_inv in E as (qw & _ & E).
  apply bind_Ok_inv in E as (qz & Ez & E).
  apply bind_Ok_inv in E as (g & Eg & E).
  apply bind_Ok_inv in E as (sc & _ & E).
  exists qw, qz, sc, g. split; [exact E|]. split.
  - intros Hs. rewrite Hs in Ez. simpl in Ez. congruence.
  - intros Hq. rewrite Hq in Eg. simpl in Eg. congruence.
Qed.

Lemma get_weights_row_Ok_inv self weights prefix w :
  GPTQMarlinWeightsLoader.get_weights_row self weights prefix = Ok w ->
  exists qweight qzeros scales g_idx,
    repack_gptq_for_marlin qweight qzeros scales g_idx
      (GPTQMarlinWeightsLoader.bits self)
      (GPTQMarlinWeightsLoader.desc_act self)
      (GPTQMarlinWeightsLoader.groupsize self)
      (GPTQMarlinWeightsLoader.quant_method self)
      (GPTQMarlinWeightsLoader.sym self)
      (process_group_size weights >? 1) = Ok w
    /\ (GPTQMarlinWeightsLoader.sym self = true -> qzeros = None)
    /\ (GPTQMarlinWeightsLoader.quant_method self = "awq" -> g_idx = None).
Proof.
  unfold GPTQMarlinWeightsLoader.get_weights_row. intros E.
  apply bind_Ok_inv in E as (qw & _ & E).
  apply bind_Ok_inv in E as (qz & Ez & E).
  apply bind_Ok_inv in E as (g & Eg & E).
  apply bind_Ok_inv in E as (sc & _ & E).
  exists qw, qz, sc, g. split; [exact E|]. split.
  - intros Hs. rewrite Hs in Ez. simpl in Ez. congruence.
  - intros Hq. rewrite Hq in Eg. simpl in Eg. congruence.
Qed.

End LoaderFacts.

(** X2: A loader set to asymmetric quantization with a method other than
    "awq" and "compressed-tensors" never returns a weight, from
    [get_weights] or from [get_weights_row], whatever storage holds. *)
Theorem asymmetric_loader_never_loads `{TorchSort} `{Runtime}
    self weights prefix :
  GPTQMarlinWeightsLoader.sym self = false ->
  GPTQMarlinWeightsLoader.quant_method self <> "awq" ->
  GPTQMarlinWeightsLoader.quant_method self <> "compressed-tensors" ->
  (forall w, GPTQMarlinWeightsLoader.get_weights self weights prefix <> Ok w)
  /\ (forall w,
        GPTQMarlinWeightsLoader.get_weights_row self weights prefix <> Ok w).
Proof.
  intros Hs Ha%String.eqb_neq Hc%String.eqb_neq.
  split; intros w E.
  - apply get_weights_Ok_inv in E as (qw & qz & sc & g & E & _).
    apply repack_Ok_inv in E
      as (k & s0 & s1 & pg & r & z & sc' & _ & _ & _ & Es & _).
    rewrite Hs, Ha, Hc in Es. discriminate.
  - apply get_weights_row_Ok_inv in E as (qw & qz & sc & g & E & _).
    apply repack_Ok_inv in E
      as (k & s0 & s1 & pg & r & z & sc' & _ & _ & _ & Es & _).
    rewrite Hs, Ha, Hc in Es. discriminate.
Qed.

(** The asymmetric GPTQ loader of a complete checkpoint. *)
Definition loader_gptq_asymmetric : GPTQMarlinWeightsLoader.t :=
  GPTQMarlinWeightsLoader.mk 4 false 32 "gptq" "gptq" false.

Lemma asymmetric_loader_never_loads_witness :
  exists e,
    @GPTQMarlinWeightsLoader.get_weights Reference.stable_sort
      Reference.runtime loader_gptq_asymmetric Examples.storage_gptq "layer"
    = Err e.
Proof.
  destruct (@GPTQMarlinWeightsLoader.get_weights Reference.stable_sort
              Reference.runtime loader_gptq_asymmetric Examples.storage_gptq
              "layer") as [w|e] eqn:E.
  - exfalso.
    apply (proj1 (@asymmetric_loader_never_loads Reference.stable_sort
      Reference.runtime loader_gptq_asymmetric Examples.storage_gptq "layer"
      eq_refl ltac:(discriminate) ltac:(discriminate)) w E).
  - exists e. reflexivity.
Defined.

(** X3: A weight loaded by [get_weights] always has [is_full_k = true]; one
    loaded by [get_weights_row] has [is_full_k = false] exactly when
    [desc_act] is set, [groupsize] is not -1 and the process group has
    more than one member. *)
Theorem is_full_k_of_loaded `{TorchSort} `{Runtime} self weights prefix :
  (forall w, GPTQMarlinWeightsLoader.get_weights self weights prefix = Ok w ->
             GPTQMarlinWeight.is_full_k w = true)
  /\ (forall w,
        GPTQMarlinWeightsLoader.get_weights_row self weights prefix = Ok w ->
        (GPTQMarlinWeight.is_full_k w = false
         <-> GPTQMarlinWeightsLoader.desc_act self = true
             /\ GPTQMarlinWeightsLoader.groupsize self <> -1
             /\ 1 < process_group_size weights)).
Proof.
  split; intros w E.
  - apply get_weights_Ok_inv in E as (qw & qz & sc & g & E & _).
    apply is_full_k_of_repack_aux in E. rewrite E, andb_false_r.
    reflexivity.
  - apply get_weights_row_Ok_inv in E as (qw & qz & sc & g & E & _).
    apply is_full_k_of_repack_aux in E. rewrite E.
    destruct (GPTQMarlinWeightsLoader.desc_act self),
      (Z.eqb_spec (GPTQMarlinWeightsLoader.groupsize self) (-1)),
      (Z.gtb_spec (process_group_size weights) 1); simpl;
      split; intros; try discriminate; try reflexivity;
      intuition (try congruence; try lia).
Qed.

Lemma is_full_k_of_loaded_witness :
  exists w,
    @GPTQMarlinWeightsLoader.get_weights Reference.stable_sort
      Reference.runtime Examples.loader_gptq Examples.storage_gptq "layer"
    = Ok w
    /\ GPTQMarlinWeight.is_full_k w = true.
Proof.
  eexists. split.
  - vm_compute. reflexivity.
  - apply (proj1 (@is_full_k_of_loaded Reference.stable_sort
      Reference.runtime Examples.loader_gptq Examples.storage_gptq "layer")
      _ eq_refl).
Defined.

(** X4: A weight loaded with the "awq" method carries no channel permutation
    and no group index (both are empty int32 tensors), and a weight
    loaded by a symmetric loader carries empty zero-points, whatever
    the storage holds under [.g_idx] and [.qzeros]. *)
Theorem loaded_weight_empty_parts `{TorchSort} `{Runtime}
    self weights prefix w :
  GPTQMarlinWeightsLoader.get_weights self weights prefix = Ok w
  \/ GPTQMarlinWeightsLoader.get_weights_row self weights prefix = Ok w ->
  (GPTQMarlinWeightsLoader.quant_method self = "awq" ->
   exists d, GPTQMarlinWeight.perm w = torch_empty_int d
             /\ GPTQMarlinWeight.g_idx w = torch_empty_int d)
  /\ (GPTQMarlinWeightsLoader.sym self = true ->
      exists d, GPTQMarlinWeight.qzeros w = torch_empty_int d).
Proof.
  intros E.
  assert (Hr : exists qweight qzeros scales g_idx sharded,
             repack_gptq_for_marlin qweight qzeros scales g_idx
               (GPTQMarlinWeightsLoader.bits self)
               (GPTQMarlinWeightsLoader.desc_act self)
               (GPTQMarlinWeightsLoader.groupsize self)
               (GPTQMarlinWeightsLoader.quant_method self)
               (GPTQMarlinWeightsLoader.sym self) sharded = Ok w
             /\ (GPTQMarlinWeightsLoader.sym self = true -> qzeros = None)
             /\ (GPTQMarlinWeightsLoader.quant_method self = "awq" ->
                 g_idx = None)).
  { destruct E as [E | E].
    - apply get_weights_Ok_inv in E as (qw & qz & sc & g & E).
      exists qw, qz, sc, g, false. exact E.
    - apply get_weights_row_Ok_inv in E as (qw & qz & sc & g & E).
      exists qw, qz, sc, g, (process_group_size weights >? 1). exact E. }
  destruct Hr as (qw & qz & sc & g & sh & Er & Hz & Hg).
  split.
  - intros Ha. exists (device qw).
    apply (no_permutation_aux _ _ _ _ _ _ _ _ _ _ _ Er).
    left. auto.
  - intros Hs. exists (device qw). rewrite (Hz Hs) in Er.
    apply (no_qzeros_aux _ _ _ _ _ _ _ _ _ _ Er).
Qed.

Lemma loaded_weight_empty_parts_witness :
  exists w d,
    @GPTQMarlinWeightsLoader.get_weights Reference.stable_sort
      Reference.runtime Examples.loader_gptq Examples.storage_gptq "layer"
    = Ok w
    /\ GPTQMarlinWeight.qzeros w = torch_empty_int d.
Proof.
  eexists.
  assert (E : @GPTQMarlinWeightsLoader.get_weights Reference.stable_sort
                Reference.runtime Examples.loader_gptq Examples.storage_gptq
                "layer" = Ok _) by (vm_compute; reflexivity).
  destruct (proj2 (@loaded_weight_empty_parts Reference.stable_sort
    Reference.runtime Examples.loader_gptq Examples.storage_gptq "layer" _
    (or_introl E)) eq_refl) as (d & Hd).
  exists d. split; [exact E | exact Hd].
Defined.

(** *** The group index without and with activation order *)

(** X5: Without activation order ([desc_act] off or [groupsize = -1]) the
    group index is not looked at: the call gives the same result, or the
    same exception, as without any [g_idx]. *)
Theorem g_idx_ignored_without_act_order `{TorchSort} `{Runtime}
    qweight qzeros scales g bits desc_act groupsize quant_method sym
    sharded_infeatures :
  desc_act = false \/ groupsize = -1 ->
  repack_gptq_for_marlin qweight qzeros scales (Some g) bits desc_act
    groupsize quant_method sym sharded_infeatures
  = repack_gptq_for_marlin qweight qzeros scales None bits desc_act
      groupsize quant_method sym sharded_infeatures.
Proof.
  intros Hc. unfold repack_gptq_for_marlin.
  assert (Hb : desc_act && negb (groupsize =? -1) = false).
  { destruct Hc as [-> | ->]; [reflexivity | apply andb_false_r]. }
  rewrite Hb. reflexivity.
Qed.

Lemma g_idx_ignored_without_act_order_witness :
  @repack_gptq_for_marlin Reference.stable_sort Reference.runtime
    Examples.qweight_32x1 None Examples.scales_1x1
    (Some Examples.g_idx_one_group_int64) 4 false 32 "gptq" true false
  = @repack_gptq_for_marlin Reference.stable_sort Reference.runtime
      Examples.qweight_32x1 None Examples.scales_1x1 None
      4 false 32 "gptq" true false.
Proof.
  apply (@g_idx_ignored_without_act_order Reference.stable_sort
    Reference.runtime). left. reflexivity.
Defined.

Lemma index_tensor_dtype (t idx t' : Tensor) :
  index_tensor t idx = Ok t' -> dtype t' = dtype t.
Proof.
  unfold index_tensor. destruct (shape t) as [|n rest]; [discriminate|].
  intros E. apply bind_Ok_inv in E as (sel & _ & E).
  injection E as <-. reflexivity.
Qed.

(** X6: With activation order in use, a group index whose dtype is not int32
    is never accepted: the selection [g_idx[perm]] keeps the dtype, and
    the constructor of the weight asserts int32. *)
Theorem act_order_needs_int32_g_idx `{TorchSort} `{Runtime}
    qweight qzeros scales g bits groupsize quant_method sym
    sharded_infeatures w :
  dtype g <> int32 ->
  groupsize <> -1 ->
  repack_gptq_for_marlin qweight qzeros scales (Some g) bits true
    groupsize quant_method sym sharded_infeatures <> Ok w.
Proof.
  intros Hd Hg%Z.eqb_neq E.
  apply repack_Ok_inv in E
    as (k & s0 & s1 & pg & r & z & sc & _ & _ & _ & _ & _ & _ & Epg & _ & ->
        & (_ & _ & Hgi & _)).
  rewrite Hg in Epg. simpl in Epg, Hgi.
  apply bind_Ok_inv in Epg as (g' & Eg & Epg).
  injection Epg as <-. simpl in Hgi.
  apply index_tensor_dtype in Eg. congruence.
Qed.

Lemma act_order_needs_int32_g_idx_witness :
  exists e,
    @repack_gptq_for_marlin Reference.stable_sort Reference.runtime
      Examples.qweight_32x1 None Examples.scales_1x1
      (Some Examples.g_idx_one_group_int64) 4 true 32 "gptq" true false
    = Err e.
Proof.
  destruct (@repack_gptq_for_marlin Reference.stable_sort Reference.runtime
              Examples.qweight_32x1 None Examples.scales_1x1
              (Some Examples.g_idx_one_group_int64) 4 true 32 "gptq" true
              false) as [w|e] eqn:E.
  - exfalso.
    apply (@act_order_needs_int32_g_idx Reference.stable_sort
      Reference.runtime Examples.qweight_32x1 None Examples.scales_1x1
      Examples.g_idx_one_group_int64 4 32 "gptq" true false w
      ltac:(discriminate) ltac:(lia) E).
  - exists e. reflexivity.
Defined.

Lemma map_nth_seq_all (l : list Z) :
  map (fun i => nth i l 0) (seq 0 (length l)) = l.
Proof.
  induction l as [|a l IH]; simpl; [reflexivity|].
  f_equal. rewrite <- seq_shift, map_map. exact IH.
Qed.

Lemma sorted_perm_unique (l1 l2 : list Z) :
  Sorted Z.le l1 -> Sorted Z.le l2 -> Permutation l1 l2 -> l1 = l2.
Proof.
  intros H1 H2.
  apply Sorted_StronglySorted in H1; [| intros x y z; apply Z.le_trans].
  apply Sorted_StronglySorted in H2; [| intros x y z; apply Z.le_trans].
  revert l2 H2. induction H1 as [|a l1 Hs1 IH Ha]; intros l2 H2 Hp.
  - apply Permutation_nil in Hp. congruence.
  - destruct H2 as [|b l2 Hs2 Hb].
    + apply Permutation_sym, Permutation_nil in Hp. discriminate.
    + assert (Eab : a = b).
      { assert (Hin_a : In a (b :: l2))
          by (apply (Permutation_in _ Hp); left; reflexivity).
        assert (Hin_b : In b (a :: l1))
          by (apply (Permutation_in _ (Permutation_sym Hp)); left;
              reflexivity).
        rewrite Forall_forall in Ha, Hb.
        destruct Hin_a as [-> | Hin_a]; [reflexivity|].
        destruct Hin_b as [-> | Hin_b]; [reflexivity|].
        apply list_elem_of_In in Hin_a, Hin_b.
        pose proof (Ha _ Hin_b). pose proof (Hb _ Hin_a). lia. }
      subst b. f_equal. apply IH; [exact Hs2|].
      exact (Permutation_cons_inv Hp).
Qed.

(** The group index emitted under activation order, for a
    one-dimensional [g_idx]. *)
Lemma act_order_g_idx_aux `{TorchSort} `{Runtime}
    qweight qzeros scales g bits groupsize quant_method sym
    sharded_infeatures w :
  repack_gptq_for_marlin qweight qzeros scales (Some g) bits true groupsize
    quant_method sym sharded_infeatures = Ok w ->
  groupsize <> -1 ->
  shape g = [length (data g)] ->
  Z.of_nat (length (data g)) < 2 ^ 31 ->
  GPTQMarlinWeight.g_idx w
  = mkTensor (dtype g) (device g) (shape g)
      (map (fun i => nth i (data g) 0) (argsort_keys (data g))).
Proof.
  intros E Hg%Z.eqb_neq Hs Hn.
  apply repack_Ok_inv in E
    as (k & s0 & s1 & pg & r & z & sc & _ & _ & _ & _ & _ & _ & Epg & _ & ->
        & _).
  rewrite Hg in Epg. simpl in Epg.
  rewrite (to_int_argsort_vector g Hs Hn) in Epg.
  rewrite (index_tensor_vector g
             (mkTensor int32 (device g) (shape g)
                (map Z.of_nat (argsort_keys (data g))))
             (argsort_keys (data g)) Hs eq_refl
             (argsort_keys_bound (data g))) in Epg.
  rewrite bind_Ok in Epg. injection Epg as <-. reflexivity.
Qed.

(** X7: Under activation order the emitted group index holds the same group
    ids as the given one, each as often (it is a rearrangement of it),
    and it does not depend on how [torch.argsort] orders equal keys: two
    sorting routines give the same emitted [g_idx]. *)
Theorem emitted_g_idx_is_sorted_input (sort1 sort2 : TorchSort) `{Runtime}
    qweight qzeros scales g bits groupsize quant_method sym
    sharded_infeatures w1 w2 :
  @repack_gptq_for_marlin sort1 _ qweight qzeros scales (Some g) bits true
    groupsize quant_method sym sharded_infeatures = Ok w1 ->
  @repack_gptq_for_marlin sort2 _ qweight qzeros scales (Some g) bits true
    groupsize quant_method sym sharded_infeatures = Ok w2 ->
  groupsize <> -1 ->
  shape g = [length (data g)] ->
  Z.of_nat (length (data g)) < 2 ^ 31 ->
  Permutation (data (GPTQMarlinWeight.g_idx w1)) (data g)
  /\ GPTQMarlinWeight.g_idx w1 = GPTQMarlinWeight.g_idx w2.
Proof.
  intros E1 E2 Hg Hs Hn.
  rewrite (@act_order_g_idx_aux sort1 _ _ _ _ _ _ _ _ _ _ _ E1 Hg Hs Hn).
  rewrite (@act_order_g_idx_aux sort2 _ _ _ _ _ _ _ _ _ _ _ E2 Hg Hs Hn).
  assert (Hperm : forall s : TorchSort,
             Permutation
               (map (fun i => nth i (data g) 0) (@argsort_keys s (data g)))
               (data g)).
  { intros s. rewrite <- (map_nth_seq_all (data g)) at 2.
    apply Permutation_map, argsort_keys_perm. }
  split; [apply Hperm|].
  f_equal. apply sorted_perm_unique.
  - apply argsort_keys_sorted.
  - apply argsort_keys_sorted.
  - rewrite (Hperm sort1), (Hperm sort2). reflexivity.
Qed.

(** A group index of 32 input features in two groups, interleaved. *)
Definition g_idx_two_groups : Tensor :=
  mkTensor int32 (cuda 0) [32%nat]
    (concat (repeat [1; 0] 16)).

Lemma emitted_g_idx_is_sorted_input_witness :
  exists w1 w2,
    @repack_gptq_for_marlin Reference.stable_sort Reference.runtime
      Examples.qweight_32x1 None Examples.scales_1x1
      (Some g_idx_two_groups) 4 true 32 "gptq" true false = Ok w1
    /\ @repack_gptq_for_marlin Reference.tie_reversing_sort Reference.runtime
         Examples.qweight_32x1 None Examples.scales_1x1
         (Some g_idx_two_groups) 4 true 32 "gptq" true false = Ok w2
    /\ GPTQMarlinWeight.perm w1 <> GPTQMarlinWeight.perm w2
    /\ GPTQMarlinWeight.g_idx w1 = GPTQMarlinWeight.g_idx w2.
Proof.
  eexists. eexists.
  split; [vm_compute; reflexivity|].
  split; [vm_compute; reflexivity|].
  split; [vm_compute; discriminate|].
  apply (proj2 (@emitted_g_idx_is_sorted_input Reference.stable_sort
    Reference.tie_reversing_sort Reference.runtime Examples.qweight_32x1
    None Examples.scales_1x1 g_idx_two_groups 4 32 "gptq" true false _ _
    eq_refl eq_refl ltac:(lia) eq_refl ltac:(vm_compute; reflexivity))).
Defined.

(** *** The shuffle-undo step as a rearrangement *)

Lemma bind_ret {A} (m : result A) : (m ≫= fun a => Ok a) = m.
Proof. destruct m; reflexivity. Qed.

Lemma awq_tables_are_permutations (num_bits : Z) :
  num_bits = 4 \/ num_bits = 8 ->
  Permutation (awq_undo_interleave num_bits)
    (seq 0 (length (awq_undo_interleave num_bits)))
  /\ Permutation (awq_interleave num_bits)
       (seq 0 (length (awq_interleave num_bits)))
  /\ Forall (fun k => (k < length (awq_interleave num_bits))%nat)
       (awq_interleave num_bits)
  /\ (0 < length (awq_interleave num_bits))%nat.
Proof.
  intros [-> | ->]; simpl;
    (split; [apply (bool_decide_unpack _); vm_compute; exact I|]);
    (split; [apply (bool_decide_unpack _); vm_compute; exact I|]);
    (split; [repeat constructor | lia]).
Qed.

(** For a supported bit width and a whole number of blocks, the step is
    the block-wise reordering followed by the final reshape. *)
Lemma undo_interleaving_eq (q_zp : Tensor) (size_n num_bits : Z) :
  num_bits = 4 \/ num_bits = 8 ->
  (numel q_zp mod length (awq_interleave num_bits) = 0)%nat ->
  undo_interleaving q_zp size_n num_bits
  = reshape_rows
      (mkTensor (dtype q_zp) (device q_zp) [numel q_zp]
         (gather_blocks (awq_undo_interleave num_bits) (data q_zp)))
      size_n.
Proof.
  intros Hb Hmod.
  destruct (undo_interleave_for_table num_bits Hb) as (Ht & Hlen & Hidx).
  destruct (awq_tables_are_permutations num_bits Hb) as (_ & _ & _ & Hpos).
  rewrite <- Hlen in Hmod, Hpos.
  unfold undo_interleaving. rewrite Ht, bind_Ok, length_map.
  rewrite (reshape_rows_Ok q_zp) by
    (try lia; rewrite <- Nat2Z.inj_mod, Hmod; reflexivity).
  rewrite bind_Ok, Nat2Z.id.
  rewrite (index_cols_rows _ (awq_undo_interleave num_bits)
             (numel q_zp / length (awq_undo_interleave num_bits))
             (length (awq_undo_interleave num_bits))).
  - rewrite bind_Ok. unfold contiguous. rewrite bind_ret.
    unfold ravel, numel. cbn [data dtype device shape].
    fold (gather_blocks (awq_undo_interleave num_bits) (data q_zp)).
    rewrite gather_blocks_length by exact Hmod. reflexivity.
  - reflexivity.
  - simpl. unfold numel in *.
    pose proof (Nat.div_mod_eq (length (data q_zp))
                  (length (awq_undo_interleave num_bits))). lia.
  - exact Hidx.
Qed.

(** X8: The shuffle-undo step succeeds exactly when the bit width is 4 or 8,
    the unpacked values form whole blocks of 8 (resp. 4) lanes, and
    [size_n] is positive and divides their number; the result then has
    [size_n] columns. *)
Theorem undo_interleaving_succeeds_iff (q_zp : Tensor) (size_n num_bits : Z) :
  (exists t, undo_interleaving q_zp size_n num_bits = Ok t)
  <-> (num_bits = 4 \/ num_bits = 8)
      /\ (numel q_zp mod length (awq_interleave num_bits) = 0)%nat
      /\ 0 < size_n
      /\ Z.of_nat (numel q_zp) mod size_n = 0.
Proof.
  split.
  - intros (t & E).
    assert (Hb : num_bits = 4 \/ num_bits = 8).
    { unfold undo_interleaving, undo_interleave_for in E.
      destruct (Z.eqb_spec num_bits 4); [auto|].
      destruct (Z.eqb_spec num_bits 8); [auto | discriminate]. }
    assert (Hmod : (numel q_zp mod length (awq_interleave num_bits) = 0)%nat).
    { destruct (undo_interleave_for_table num_bits Hb) as (Ht & Hlen & _).
      unfold undo_interleaving in E. rewrite Ht, bind_Ok, length_map in E.
      apply bind_Ok_inv in E as (q1 & E1 & _).
      unfold reshape_rows in E1.
      destruct (_ && _) eqn:Ec in E1; [|discriminate].
      apply andb_true_iff in Ec as (_ & Ec). apply Z.eqb_eq in Ec.
      rewrite <- Nat2Z.inj_mod in Ec. rewrite <- Hlen. lia. }
    rewrite (undo_interleaving_eq _ _ _ Hb Hmod) in E.
    unfold reshape_rows in E.
    destruct (_ && _) eqn:Ec in E; [|discriminate].
    apply andb_true_iff in Ec as (Ec1 & Ec2).
    apply Z.ltb_lt in Ec1. apply Z.eqb_eq in Ec2.
    unfold numel in Ec2 at 1. cbn [data] in Ec2.
    destruct (undo_interleave_for_table num_bits Hb) as (_ & Hlen & _).
    rewrite gather_blocks_length in Ec2 by (rewrite Hlen; exact Hmod).
    auto.
  - intros (Hb & Hmod & Hn & Hd).
    rewrite (undo_interleaving_eq _ _ _ Hb Hmod).
    eexists. apply reshape_rows_Ok; [exact Hn|].
    unfold numel at 1. cbn [data].
    destruct (undo_interleave_for_table num_bits Hb) as (_ & Hlen & _).
    rewrite gather_blocks_length by (rewrite Hlen; exact Hmod).
    exact Hd.
Qed.

Lemma undo_interleaving_succeeds_iff_witness :
  exists t, undo_interleaving Examples.unpacked_1x8 8 4 = Ok t.
Proof.
  apply (proj2 (undo_interleaving_succeeds_iff Examples.unpacked_1x8 8 4)).
  repeat split. left. reflexivity.
Defined.

Lemma concat_rows {A} (c r : nat) (l : list A) :
  (r * c = length l)%nat -> concat (rows c r l) = l.
Proof.
  revert l. induction r as [|r IH]; intros l Hl; simpl.
  - destruct l; [reflexivity | discriminate].
  - rewrite IH.
    + apply take_drop.
    + rewrite length_drop. simpl in Hl. lia.
Qed.

Lemma gather_row_perm (idx : list nat) (row : list Z) :
  Permutation idx (seq 0 (length row)) ->
  Permutation (map (fun j => nth j row 0) idx) row.
Proof.
  intros Hp.
  transitivity (map (fun j => nth j row 0) (seq 0 (length row))).
  - apply Permutation_map. exact Hp.
  - rewrite map_nth_seq_all. reflexivity.
Qed.

Lemma concat_map_perm (f : list Z -> list Z) (ls : list (list Z)) :
  Forall (fun row => Permutation (f row) row) ls ->
  Permutation (concat (map f ls)) (concat ls).
Proof.
  induction 1 as [|row ls Hrow _ IH]; simpl; [reflexivity|].
  apply Permutation_app; assumption.
Qed.

Lemma gather_blocks_perm (idx : list nat) (l : list Z) :
  Permutation idx (seq 0 (length idx)) ->
  (length l mod length idx = 0)%nat ->
  Permutation (gather_blocks idx l) l.
Proof.
  intros Hp Hm. unfold gather_blocks.
  assert (Hrc : ((length l / length idx) * length idx = length l)%nat).
  { pose proof (Nat.div_mod_eq (length l) (length idx)). lia. }
  transitivity (concat (rows (length idx) (length l / length idx) l));
    [| rewrite (concat_rows _ _ _ Hrc); reflexivity].
  apply concat_map_perm.
  pose proof (rows_row_length (length idx) (length l / length idx) l) as Hlen.
  rewrite Hrc in Hlen. specialize (Hlen (Nat.le_refl _)).
  eapply Forall_impl; [exact Hlen|].
  intros row Hrow. simpl in Hrow. apply gather_row_perm.
  rewrite Hrow. exact Hp.
Qed.

(** X9: The shuffle-undo step only moves values: whenever it succeeds, the
    result holds exactly the unpacked values, each as often as before,
    with the dtype and device of its input. *)
Theorem undo_interleaving_keeps_values (q_zp t : Tensor)
    (size_n num_bits : Z) :
  undo_interleaving q_zp size_n num_bits = Ok t ->
  Permutation (data t) (data q_zp)
  /\ numel t = numel q_zp
  /\ dtype t = dtype q_zp
  /\ device t = device q_zp.
Proof.
  intros E.
  destruct (proj1 (undo_interleaving_succeeds_iff q_zp size_n num_bits)
              (ex_intro _ t E)) as (Hb & Hmod & Hn & Hd).
  rewrite (undo_interleaving_eq _ _ _ Hb Hmod) in E.
  rewrite reshape_rows_Ok in E.
  - injection E as <-. cbn [data dtype device].
    destruct (undo_interleave_for_table num_bits Hb) as (_ & Hlen & _).
    destruct (awq_tables_are_permutations num_bits Hb) as (Hp & _).
    assert (Hperm : Permutation
                      (gather_blocks (awq_undo_interleave num_bits) (data q_zp))
                      (data q_zp)).
    { apply gather_blocks_perm; [exact Hp|]. rewrite Hlen. exact Hmod. }
    repeat split; [exact Hperm|].
    unfold numel. cbn [data]. apply Permutation_length. exact Hperm.
  - exact Hn.
  - unfold numel at 1. cbn [data].
    destruct (undo_interleave_for_table num_bits Hb) as (_ & Hlen & _).
    rewrite gather_blocks_length by (rewrite Hlen; exact Hmod).
    exact Hd.
Qed.

Lemma undo_interleaving_keeps_values_witness :
  exists t,
    undo_interleaving Examples.unpacked_1x8 8 4 = Ok t
    /\ Permutation (data t) (data Examples.unpacked_1x8).
Proof.
  eexists. split.
  - vm_compute. reflexivity.
  - apply (proj1 (undo_interleaving_keeps_values Examples.unpacked_1x8 _ 8 4
                    eq_refl)).
Defined.

Lemma gather_blocks_inverse (idx1 idx2 : list nat) (l : list Z) :
  length idx1 = length idx2 ->
  Forall (fun k => (k < length idx1)%nat) idx1 ->
  Forall (fun k => (k < length idx2)%nat) idx2 ->
  (forall j, (j < length idx1)%nat ->
             nth (nth j idx1 0%nat) idx2 0%nat = j) ->
  (length l mod length idx1 = 0)%nat ->
  gather_blocks idx1 (gather_blocks idx2 l) = l.
Proof.
  intros Hlen H1 H2 Hinv Hm.
  assert (Hm2 : (length l mod length idx2 = 0)%nat) by (rewrite <- Hlen; exact Hm).
  assert (Hl2 : length (gather_blocks idx2 l) = length l)
    by (apply gather_blocks_length; exact Hm2).
  assert (Hl1 : length (gather_blocks idx1 (gather_blocks idx2 l)) = length l).
  { rewrite gather_blocks_length; [exact Hl2 | rewrite Hl2; exact Hm]. }
  apply (nth_ext _ _ 0 0); [exact Hl1|].
  intros k Hk. rewrite Hl1 in Hk.
  destruct (Nat.eq_dec (length idx1) 0%nat) as [Hz|Hz].
  { rewrite Hz in Hm. simpl in Hm. lia. }
  pose proof (Nat.div_mod_eq k (length idx1)) as Hkd.
  pose proof (Nat.mod_upper_bound k (length idx1) Hz) as Hkm.
  set (b := (k / length idx1)%nat) in *.
  set (j := (k mod length idx1)%nat) in *.
  replace k with (b * length idx1 + j)%nat by lia.
  assert (Hj1 : (nth j idx1 0 < length idx1)%nat).
  { rewrite Forall_forall in H1. apply H1, list_elem_of_In, nth_In. exact Hkm. }
  assert (Hbound : (b * length idx1 + nth j idx1 0 < length l)%nat).
  { pose proof (Nat.div_mod_eq (length l) (length idx1)) as Hd.
    rewrite Hm, Nat.add_0_r in Hd.
    set (r := (length l / length idx1)%nat) in Hd.
    assert (Hbr : (b < r)%nat).
    { destruct (Nat.lt_ge_cases b r) as [Hlt|Hge]; [exact Hlt|].
      assert ((length idx1 * r <= length idx1 * b)%nat)
        by (apply Nat.mul_le_mono_l; exact Hge). lia. }
    assert ((length idx1 * S b <= length idx1 * r)%nat)
      by (apply Nat.mul_le_mono_l; lia).
    lia. }
  rewrite gather_blocks_nth;
    [| exact H1 | rewrite Hl2; exact Hm | exact Hkm | rewrite Hl2; lia].
  rewrite Hlen.
  rewrite gather_blocks_nth;
    [| exact H2 | exact Hm2 | rewrite <- Hlen; exact Hj1
     | rewrite <- Hlen; exact Hbound].
  rewrite <- Hlen, Hinv by exact Hkm. reflexivity.
Qed.

(** X10: Round trip: the shuffle-undo step restores values that were
    interleaved block by block with the AWQ table.  On a tensor holding
    [interleave_blocks num_bits l], for [l] of whole blocks and
    [size_n > 0] dividing its length, the step returns exactly [l]. *)
Theorem undo_interleaving_round_trip (q_zp : Tensor) (l : list Z)
    (size_n num_bits : Z) :
  num_bits = 4 \/ num_bits = 8 ->
  (length l mod length (awq_interleave num_bits) = 0)%nat ->
  0 < size_n ->
  Z.of_nat (length l) mod size_n = 0 ->
  data q_zp = interleave_blocks num_bits l ->
  exists t,
    undo_interleaving q_zp size_n num_bits = Ok t
    /\ data t = l.
Proof.
  intros Hb Hm Hn Hd Hq.
  destruct (undo_interleave_for_table num_bits Hb) as (_ & Hlen & Hidx).
  destruct (awq_tables_are_permutations num_bits Hb) as (_ & _ & Hidx' & _).
  assert (Hnumel : numel q_zp = length l).
  { unfold numel. rewrite Hq. apply gather_blocks_length. exact Hm. }
  rewrite (undo_interleaving_eq _ _ _ Hb) by (rewrite Hnumel; exact Hm).
  rewrite reshape_rows_Ok.
  - eexists. split; [reflexivity|]. cbn [data]. rewrite Hq.
    apply gather_blocks_inverse.
    + exact Hlen.
    + exact Hidx.
    + exact Hidx'.
    + intros j Hj. rewrite Hlen in Hj.
      destruct (awq_undo_interleave_inverse num_bits j Hb Hj) as (_ & Hi & _).
      exact Hi.
    + rewrite Hlen. exact Hm.
  - exact Hn.
  - unfold numel at 1. cbn [data].
    rewrite gather_blocks_length
      by (rewrite Hlen; fold (numel q_zp); rewrite Hnumel; exact Hm).
    fold (numel q_zp). rewrite Hnumel. exact Hd.
Qed.

Lemma undo_interleaving_round_trip_witness :
  exists t,
    undo_interleaving
      (mkTensor int32 (cuda 0) [1%nat; 8%nat]
         (interleave_blocks 4 [10; 11; 12; 13; 14; 15; 16; 17])) 8 4 = Ok t
    /\ data t = [10; 11; 12; 13; 14; 15; 16; 17].
Proof.
  apply (undo_interleaving_round_trip
           (mkTensor int32 (cuda 0) [1%nat; 8%nat]
              (interleave_blocks 4 [10; 11; 12; 13; 14; 15; 16; 17]))
           [10; 11; 12; 13; 14; 15; 16; 17] 8 4);
    [left; reflexivity | reflexivity | lia | reflexivity | reflexivity].
Defined.

(** *** Whole-row groups on the AWQ path *)

Lemma div_minus_one (x : Z) : x / -1 = - x.
Proof.
  replace x with (- - x) at 1 by lia.
  change (-1) with (- (1)). rewrite Z.div_opp_opp by lia.
  apply Z.div_1_r.
Qed.

(** X11: On the AWQ path with [groupsize = -1] the number of groups handed to
    the zero-point conversion is [in_features // -1], that is
    [-in_features]: [unpack_cols] is called with that number of rows,
    and if it rejects it the repacking fails with its exception. *)
Theorem awq_whole_row_zero_points `{TorchSort} `{Runtime} kernels
    qweight z scales g_idx bits desc_act sym sharded_infeatures
    in_features packed_out repacked c text :
  _check_marlin_kernels = inl tt ->
  quantization = Some kernels ->
  bits = 4 \/ bits = 8 ->
  shape_at qweight 0 = Ok in_features ->
  shape_at qweight 1 = Ok packed_out ->
  awq_marlin_repack kernels qweight in_features (packed_out * (32 / bits))
    bits = inl repacked ->
  unpack_cols z bits (- in_features) (packed_out * (32 / bits))
    = inr (c, text) ->
  repack_gptq_for_marlin qweight (Some z) scales g_idx bits desc_act (-1)
    "awq" sym sharded_infeatures
  = Err (Raise c (MsgForeign text)).
Proof.
  intros Hc Hq Hb%py_in_bits E0 E1 Ek Eu.
  unfold repack_gptq_for_marlin.
  rewrite Hc, Hq, Hb, E0, E1. simpl lift_foreign.
  change (py_in (-1) GPTQ_MARLIN_GROUP_SIZES) with true.
  change (String.eqb "awq" "awq") with true.
  rewrite orb_true_r. simpl orb.
  rewrite !raise_unless_true, !bind_Ok. cbv zeta.
  assert (Hm : in_features mod -1 = 0)
    by (pose proof (Z.mod_neg_bound in_features (-1)); lia).
  rewrite Hm. change (0 =? 0) with true.
  rewrite raise_unless_true, bind_Ok.
  change (-1 =? -1) with true. simpl negb. rewrite andb_false_r.
  destruct g_idx; rewrite bind_Ok; cbn [fst snd];
    rewrite Ek; simpl lift_foreign; rewrite bind_Ok, div_minus_one;
    unfold awq_to_marlin_zero_points; rewrite Eu; reflexivity.
Qed.

Lemma awq_whole_row_zero_points_witness :
  @repack_gptq_for_marlin Reference.stable_sort Reference.runtime
    Examples.qweight_awq_32x8 (Some Examples.qzeros_1x8) Examples.scales_1x8
    None 4 false (-1) "awq" false false
  = Err (Raise AssertionError
           (MsgForeign "packed shape does not match (size_k, size_n)")).
Proof.
  apply (@awq_whole_row_zero_points Reference.stable_sort Reference.runtime
    Reference.kernels Examples.qweight_awq_32x8 Examples.qzeros_1x8
    Examples.scales_1x8 None 4 false false false 32 1
    (mkTensor int32 (cuda 0) [2%nat; 16%nat] (data Examples.qweight_awq_32x8)));
    try reflexivity.
  left. reflexivity.
Defined.

(** *** The linear layer over a repacked weight *)

Lemma init_inl_inv `{Runtime} (weight : GPTQMarlinWeight.t)
    (bias : option Tensor) (layer : GPTQMarlinLinear.t) :
  GPTQMarlinLinear.__init__ weight bias = inl layer ->
  exists out_features,
    GPTQMarlinLinear.checked_out_features weight = Ok out_features
    /\ py_in (GPTQMarlinWeight.bits weight) [4; 8] = true
    /\ layer
       = GPTQMarlinLinear.mk
           (if (0 <? numel (GPTQMarlinWeight.qzeros weight))%nat then
              if GPTQMarlinWeight.bits weight =? 4 then uint4 else uint8
            else
              if GPTQMarlinWeight.bits weight =? 4 then uint4b8
              else uint8b128)
           (GPTQMarlinWeight.is_full_k weight)
           (GPTQMarlinWeight.qweight weight)
           (GPTQMarlinWeight.qzeros weight)
           (GPTQMarlinWeight.scales weight)
           (GPTQMarlinWeight.g_idx weight)
           (GPTQMarlinWeight.perm weight)
           bias
           (torch_zeros_int (out_features / 64 * 16)
              (device (GPTQMarlinWeight.qweight weight))).
Proof.
  unfold GPTQMarlinLinear.__init__. intros E.
  destruct (GPTQMarlinLinear.checked_out_features weight) as [o|e];
    cbn [GPTQMarlinLinear.propagate] in E; [|discriminate].
  destruct (py_in (GPTQMarlinWeight.bits weight) [4; 8]) eqn:Eb;
    cbn [negb] in E; [|discriminate].
  exists o. injection E as <-. auto.
Qed.

(** X12: For a weight that [repack_gptq_for_marlin] returned, the layer
    constructor never raises its "only supports 4 and 8-bit" error; when
    it succeeds the layer keeps the weight's [is_full_k], uses a
    zero-point type ([uint4], [uint8]) exactly when the weight's
    zero-points are not empty, and so uses the biased types [uint4b8]
    (4 bits) and [uint8b128] (8 bits) whenever the repacking was given
    no zero-points. *)
Theorem linear_of_repacked `{TorchSort} `{Runtime}
    qweight qzeros scales g_idx bits desc_act groupsize quant_method sym
    sharded_infeatures w bias :
  repack_gptq_for_marlin qweight qzeros scales g_idx bits desc_act groupsize
    quant_method sym sharded_infeatures = Ok w ->
  get_linear w bias <> inr GPTQMarlinLinear.OnlySupports4And8Bit
  /\ (forall layer, get_linear w bias = inl layer ->
      GPTQMarlinLinear.is_full_k layer
      = negb (desc_act && negb (groupsize =? -1) && sharded_infeatures)
      /\ (GPTQMarlinLinear.quant_type layer = uint4
          \/ GPTQMarlinLinear.quant_type layer = uint8
          <-> numel (GPTQMarlinWeight.qzeros w) <> 0%nat)
      /\ (qzeros = None ->
          GPTQMarlinLinear.quant_type layer
          = if bits =? 4 then uint4b8 else uint8b128)).
Proof.
  intros E.
  pose proof (bits_of_repack_aux _ _ _ _ _ _ _ _ _ _ _ E) as (Hbits & Hb).
  split.
  - unfold get_linear, GPTQMarlinLinear.__init__.
    destruct (GPTQMarlinLinear.checked_out_features w);
      cbn [GPTQMarlinLinear.propagate]; [|discriminate].
    rewrite Hbits.
    assert (Hin : py_in bits [4; 8] = true) by (apply py_in_bits; exact Hb).
    rewrite Hin. discriminate.
  - intros layer El. unfold get_linear in El.
    apply init_inl_inv in El as (o & _ & _ & ->). simpl.
    split; [apply (is_full_k_of_repack_aux _ _ _ _ _ _ _ _ _ _ _ E)|].
    split.
    + destruct (Nat.ltb_spec 0 (numel (GPTQMarlinWeight.qzeros w)));
        destruct (GPTQMarlinWeight.bits w =? 4);
        split; intros; try lia; try tauto;
        intuition discriminate.
    + intros ->. rewrite (no_qzeros_aux _ _ _ _ _ _ _ _ _ _ E), Hbits.
      reflexivity.
Qed.

(** A symmetric 4-bit row-packed weight of 128 input and 64 output
    features and its scales. *)
Definition qweight_128x64 : Tensor :=
  mkTensor int32 (cuda 0) [16%nat; 64%nat] (repeat 0x76543210 1024).

Definition scales_1x64 : Tensor :=
  mkTensor float16 (cuda 0) [1%nat; 64%nat] (repeat 0x3C00 64).

Lemma linear_of_repacked_witness :
  exists w layer,
    @repack_gptq_for_marlin Reference.stable_sort Reference.runtime
      qweight_128x64 None scales_1x64 None 4 false 128 "gptq" true false
    = Ok w
    /\ @get_linear Reference.runtime w None = inl layer
    /\ GPTQMarlinLinear.quant_type layer = uint4b8.
Proof.
  eexists. eexists.
  split; [vm_compute; reflexivity|].
  split; [vm_compute; reflexivity|].
  apply (proj2 (@linear_of_repacked Reference.stable_sort Reference.runtime
    qweight_128x64 None scales_1x64 None 4 false 128 "gptq" true false _ None
    eq_refl) _ eq_refl).
  reflexivity.
Defined.

Lemma mod_128_64 (x : Z) : x mod 128 = 0 -> x mod 64 = 0.
Proof.
  intros H128. rewrite (Z.div_mod x 128), H128 by lia.
  replace (128 * (x / 128) + 0) with ((x / 128) * 2 * 64) by lia.
  apply Z_mod_mult.
Qed.

Lemma check_valid_shape_Ok_mod64 (i o : Z) (u : unit) :
  _check_valid_shape i o = Ok u -> i mod 64 = 0 /\ o mod 64 = 0.
Proof.
  unfold _check_valid_shape.
  destruct (Z.eqb_spec (i mod 128) 0), (Z.eqb_spec (o mod 64) 0),
    (Z.eqb_spec (i mod 64) 0), (Z.eqb_spec (o mod 128) 0);
    simpl; intros E; try discriminate;
    split; auto using mod_128_64.
Qed.

(** X13: A layer that was constructed has both feature counts divisible by
    64 ([in_features] being 16 times the rows of the repacked weight and
    [out_features] the columns of the scales), and its workspace is an
    int32 tensor of exactly [out_features / 4] zeros on the device of
    the weight. *)
Theorem linear_workspace `{Runtime} (weight : GPTQMarlinWeight.t)
    (bias : option Tensor) (layer : GPTQMarlinLinear.t) :
  GPTQMarlinLinear.__init__ weight bias = inl layer ->
  exists tile_rows out_features,
    shape_at (GPTQMarlinWeight.qweight weight) 0 = Ok tile_rows
    /\ shape_at (GPTQMarlinWeight.scales weight) 1 = Ok out_features
    /\ (tile_rows * 16) mod 64 = 0
    /\ out_features mod 64 = 0
    /\ GPTQMarlinLinear.workspace layer
       = mkTensor int32 (device (GPTQMarlinWeight.qweight weight))
           [Z.to_nat (out_features / 4)]
           (repeat 0 (Z.to_nat (out_features / 4)))
    /\ 4 * Z.of_nat (numel (GPTQMarlinLinear.workspace layer)) = out_features.
Proof.
  intros E. apply init_inl_inv in E as (o & Ec & _ & ->).
  unfold GPTQMarlinLinear.checked_out_features in Ec.
  apply bind_Ok_inv in Ec as (_ & _ & Ec).
  apply bind_Ok_inv in Ec as (_ & _ & Ec).
  apply bind_Ok_inv in Ec as (inf & Ei & Ec).
  apply bind_Ok_inv in Ei as (s0 & E0 & Ei). injection Ei as <-.
  apply bind_Ok_inv in Ec as (o' & E1 & Ec).
  apply bind_Ok_inv in Ec as (? & Ev & Ec). injection Ec as Eo. subst o'.
  assert (Ho : 0 <= o).
  { unfold shape_at in E1. destruct (_ !! _); [|discriminate].
    injection E1 as <-. lia. }
  pose proof (check_valid_shape_Ok_mod64 _ _ _ Ev) as Hv.
  unfold MARLIN_TILE_SIZE in Hv.
  destruct Hv as (Hi64 & Ho64).
  assert (Hw : o / 64 * 16 = o / 4).
  { pose proof (Z.div_mod o 64 ltac:(lia)) as Hd. rewrite Ho64 in Hd.
    rewrite Hd at 2.
    replace (64 * (o / 64) + 0) with ((o / 64 * 16) * 4) by lia.
    rewrite Z.div_mul by lia. reflexivity. }
  exists s0, o. cbn [GPTQMarlinLinear.workspace].
  unfold torch_zeros_int. rewrite Hw.
  repeat split; try assumption.
  unfold numel. cbn [data]. rewrite repeat_length.
  rewrite Z2Nat.id by (apply Z.div_pos; lia).
  pose proof (Z.div_mod o 64 ltac:(lia)) as Hd. rewrite Ho64 in Hd.
  rewrite <- Hw. lia.
Qed.

(** The repacked form of a weight of 128 input and 64 output
    features. *)
Definition repacked_128x64 : GPTQMarlinWeight.t :=
  GPTQMarlinWeight.mk
    (mkTensor int32 (cuda 0) [8%nat; 128%nat] (repeat 0x76543210 1024))
    (torch_empty_int (cuda 0)) scales_1x64
    (torch_empty_int (cuda 0)) (torch_empty_int (cuda 0)) 4 true.

Lemma linear_workspace_witness :
  exists layer,
    @GPTQMarlinLinear.__init__ Reference.runtime repacked_128x64 None
    = inl layer
    /\ 4 * Z.of_nat (numel (GPTQMarlinLinear.workspace layer)) = 64.
Proof.
  eexists. split; [vm_compute; reflexivity|].
  match goal with
  | |- 4 * Z.of_nat (numel (GPTQMarlinLinear.workspace ?l)) = _ =>
      destruct (@linear_workspace Reference.runtime repacked_128x64 None l
                  eq_refl)
        as (r & o & _ & Eo & _ & _ & _ & Hn)
  end.
  vm_compute in Eo. injection Eo as <-. exact Hn.
Defined.

(** *** Settings read from storage *)

Lemma asymmetric_never_loads_aux `{TorchSort} `{Runtime}
    self weights prefix w :
  GPTQMarlinWeightsLoader.sym self = false ->
  GPTQMarlinWeightsLoader.quant_method self = "gptq" ->
  GPTQMarlinWeightsLoader.get_weights self weights prefix <> Ok w
  /\ GPTQMarlinWeightsLoader.get_weights_row self weights prefix <> Ok w.
Proof.
  intros Hs Hq.
  split; intros E;
    [apply get_weights_Ok_inv in E as (qw & qz & sc & g & E & _)
    |apply get_weights_row_Ok_inv in E as (qw & qz & sc & g & E & _)];
    apply repack_Ok_inv in E
      as (k & s0 & s1 & pg & r & z & sc' & _ & _ & _ & Es & _);
    rewrite Hs, Hq in Es; discriminate.
Qed.

Lemma has_tensor_true (weights : Weights) (name : string) :
  has_tensor weights name = true <-> tensors weights !! name <> None.
Proof. unfold has_tensor. apply bool_decide_eq_true. Qed.

Lemma has_tensor_false (weights : Weights) (name : string) :
  has_tensor weights name = false <-> tensors weights !! name = None.
Proof.
  unfold has_tensor. rewrite bool_decide_eq_false.
  destruct (tensors weights !! name); split; intros Hn.
  - exfalso. apply Hn. discriminate.
  - discriminate.
  - reflexivity.
  - intros Hc. apply Hc. reflexivity.
Qed.

(** X14: [_get_gptq_params] leaves the loader as it is unless storage holds
    both [gptq_bits] and [gptq_groupsize].  When it holds both, the
    loader is switched to the "gptq" method with activation order off,
    so every weight it then loads has [is_full_k = true] and no channel
    permutation or group index; and when storage has no [gptq_sym], the
    loader is set to asymmetric quantization and then loads nothing:
    [get_weights] and [get_weights_row] never return a weight. *)
Theorem settings_from_storage `{TorchSort} `{Runtime}
    (self self' : GPTQMarlinWeightsLoader.t) (weights : Weights) :
  _get_gptq_params self weights = Ok self' ->
  (tensors weights !! "gptq_bits" = None
   \/ tensors weights !! "gptq_groupsize" = None -> self' = self)
  /\ (tensors weights !! "gptq_bits" <> None ->
      tensors weights !! "gptq_groupsize" <> None ->
      GPTQMarlinWeightsLoader.desc_act self' = false
      /\ GPTQMarlinWeightsLoader.quant_method self' = "gptq"
      /\ GPTQMarlinWeightsLoader.quantize self'
         = GPTQMarlinWeightsLoader.quantize self
      /\ (forall storage prefix w,
            GPTQMarlinWeightsLoader.get_weights self' storage prefix = Ok w
            \/ GPTQMarlinWeightsLoader.get_weights_row self' storage prefix
               = Ok w ->
            GPTQMarlinWeight.is_full_k w = true
            /\ exists d, GPTQMarlinWeight.perm w = torch_empty_int d
                         /\ GPTQMarlinWeight.g_idx w = torch_empty_int d)
      /\ (tensors weights !! "gptq_sym" = None ->
          GPTQMarlinWeightsLoader.sym self' = false
          /\ forall storage prefix w,
               GPTQMarlinWeightsLoader.get_weights self' storage prefix
               <> Ok w
               /\ GPTQMarlinWeightsLoader.get_weights_row self' storage prefix
                  <> Ok w)).
Proof.
  unfold _get_gptq_params. intros E. split.
  - intros Hn.
    assert (Hc : has_tensor weights "gptq_bits"
                 && has_tensor weights "gptq_groupsize" = false).
    { apply andb_false_iff.
      destruct Hn as [Hn | Hn]; [left | right];
        apply has_tensor_false; exact Hn. }
    rewrite Hc in E. congruence.
  - intros Hb%has_tensor_true Hg%has_tensor_true.
    rewrite Hb, Hg in E. cbn [andb] in E.
    apply bind_Ok_inv in E as (b & _ & E).
    apply bind_Ok_inv in E as (g & _ & E).
    apply bind_Ok_inv in E as (s & Es & E).
    injection E as <-. cbn.
    split; [reflexivity|]. split; [reflexivity|]. split; [reflexivity|].
    split.
    + intros storage prefix w Hw.
      assert (Hr : exists qweight qzeros scales g_idx sharded,
                 repack_gptq_for_marlin qweight qzeros scales g_idx
                   b false g "gptq" s sharded = Ok w).
      { destruct Hw as [Hw | Hw].
        - apply get_weights_Ok_inv in Hw as (qw & qz & sc & gi & Hw & _).
          eauto 6.
        - apply get_weights_row_Ok_inv in Hw as (qw & qz & sc & gi & Hw & _).
          eauto 6. }
      destruct Hr as (qw & qz & sc & gi & sh & Hr). split.
      * rewrite (is_full_k_of_repack_aux _ _ _ _ _ _ _ _ _ _ _ Hr).
        reflexivity.
      * exists (device qw).
        apply (no_permutation_aux _ _ _ _ _ _ _ _ _ _ _ Hr). auto.
    + intros Hs%has_tensor_false. rewrite Hs in Es. injection Es as <-.
      split; [reflexivity|]. intros storage prefix w.
      apply asymmetric_never_loads_aux; reflexivity.
Qed.

(** A checkpoint written by the quantizer before [gptq_sym] existed. *)
Definition storage_legacy_settings : Weights :=
  {| tensors := <[ "gptq_bits" := mkTensor int32 cpu [1%nat] [4] ]>
                (<[ "gptq_groupsize" := mkTensor int32 cpu [1%nat] [32] ]>
                 (tensors Examples.storage_gptq));
     slice_of_rank := fun t _ => t;
     packed_slice_of_rank := fun t _ _ => t;
     weights_dtype := float16;
     process_group_size := 1 |}.

Lemma settings_from_storage_witness :
  exists self',
    _get_gptq_params Examples.loader_awq storage_legacy_settings = Ok self'
    /\ GPTQMarlinWeightsLoader.quant_method self' = "gptq"
    /\ GPTQMarlinWeightsLoader.sym self' = false.
Proof.
  eexists. split; [vm_compute; reflexivity|].
  destruct (proj2 (@settings_from_storage Reference.stable_sort
    Reference.runtime Examples.loader_awq _ storage_legacy_settings eq_refl)
    ltac:(vm_compute; discriminate) ltac:(vm_compute; discriminate))
    as (_ & Hq & _ & _ & Hs).
  split; [exact Hq|].
  apply (proj1 (Hs ltac:(vm_compute; reflexivity))).
Defined.

(** *** A successful row-packed repacking *)

(** X15: On the row-packed path without activation order the repacking
    succeeds as soon as the kernels are available, the configuration
    and divisibility checks hold, and the two external steps return an
    int32 weight and float16 or bfloat16 scales: the kernel is called
    with the empty permutation, and the result carries the kernel's
    weight, the given zero-points (or the empty tensor), the permuted
    scales, and empty [g_idx] and [perm]. *)
Theorem row_packed_repack_succeeds `{TorchSort} `{Runtime} kernels
    qweight qzeros scales g_idx bits desc_act groupsize quant_method sym
    sharded_infeatures packed_rows out_features repacked scales' :
  _check_marlin_kernels = inl tt ->
  quantization = Some kernels ->
  bits = 4 \/ bits = 8 ->
  groupsize = -1 \/ groupsize = 32 \/ groupsize = 64 \/ groupsize = 128 ->
  quant_method <> "awq" ->
  sym = true \/ quant_method = "compressed-tensors" ->
  shape_at qweight 0 = Ok packed_rows ->
  shape_at qweight 1 = Ok out_features ->
  (packed_rows * (32 / bits)) mod groupsize = 0 ->
  g_idx = None \/ desc_act = false \/ groupsize = -1 ->
  gptq_marlin_repack kernels qweight (torch_empty_int (device qweight))
    (packed_rows * (32 / bits)) out_features bits = inl repacked ->
  permute_scales scales = inl scales' ->
  dtype repacked = int32 ->
  dtype scales' = float16 \/ dtype scales' = bfloat16 ->
  repack_gptq_for_marlin qweight qzeros scales g_idx bits desc_act groupsize
    quant_method sym sharded_infeatures
  = Ok (GPTQMarlinWeight.mk repacked
          (match qzeros with
           | Some z => z
           | None => torch_empty_int (device qweight)
           end)
          scales'
          (torch_empty_int (device qweight))
          (torch_empty_int (device qweight))
          bits
          (negb (desc_act && negb (groupsize =? -1) && sharded_infeatures))).
Proof.
  intros Hc Hq Hb%py_in_bits Hg%py_in_group_sizes Ha%String.eqb_neq Hs
    E0 E1 Hd%Z.eqb_eq Hgi Ek Ep Hdt Hds.
  assert (Es : sym || String.eqb quant_method "awq"
               || String.eqb quant_method "compressed-tensors" = true).
  { destruct Hs as [-> | ->]; [reflexivity | apply orb_true_r]. }
  assert (Epg : match g_idx with
                | Some g =>
                    if desc_act && negb (groupsize =? -1) then
                      g' ← index_tensor g (to_int (torch_argsort g));
                      Ok (to_int (torch_argsort g), g')
                    else Ok (torch_empty_int (device qweight),
                             torch_empty_int (device qweight))
                | None => Ok (torch_empty_int (device qweight),
                              torch_empty_int (device qweight))
                end = Ok (torch_empty_int (device qweight),
                          torch_empty_int (device qweight))).
  { destruct g_idx as [g|]; [|reflexivity].
    destruct Hgi as [Hgi | [-> | ->]]; [discriminate | reflexivity |].
    rewrite andb_false_r. reflexivity. }
  unfold repack_gptq_for_marlin.
  rewrite Hc, Hq, Hb, Hg, Es, E0, E1, Ha. simpl lift_foreign.
  rewrite !raise_unless_true, !bind_Ok. cbv zeta.
  rewrite Hd, raise_unless_true, bind_Ok, Epg, bind_Ok. cbn [fst snd].
  rewrite Ek. simpl lift_foreign. rewrite bind_Ok. cbn [fst snd].
  rewrite Ep. simpl lift_foreign. rewrite bind_Ok.
  unfold GPTQMarlinWeight.new. cbv zeta. rewrite ?bind_Ok. cbn [fst snd].
  rewrite (proj2 (post_init_Ok_iff _)); [reflexivity|].
  unfold dtype_invariant. cbn. auto.
Qed.

Lemma row_packed_repack_succeeds_witness :
  exists w,
    @repack_gptq_for_marlin Reference.stable_sort Reference.runtime
      Examples.qweight_32x1 None Examples.scales_1x1 None
      4 false 32 "gptq" true false = Ok w
    /\ GPTQMarlinWeight.scales w = Examples.scales_1x1.
Proof.
  eexists. split.
  - apply (@row_packed_repack_succeeds Reference.stable_sort
      Reference.runtime Reference.kernels Examples.qweight_32x1 None
      Examples.scales_1x1 None 4 false 32 "gptq" true false 4 1
      (mkTensor int32 (cuda 0) [2%nat; 2%nat] (data Examples.qweight_32x1))
      Examples.scales_1x1);
      try reflexivity; try discriminate; auto.
  - reflexivity.
Defined.

(** *** Storage entries the loader never reads *)

Lemma append_inj_l (prefix a b : string) :
  prefix +:+ a = prefix +:+ b -> a = b.
Proof.
  induction prefix as [|c prefix IH]; simpl; intros E; [exact E|].
  injection E as E. apply IH. exact E.
Qed.

(** X16: A symmetric loader never reads [{prefix}.qzeros] and an "awq" loader
    never reads [{prefix}.g_idx]: [get_weights] and [get_weights_row]
    give the same result, or the same exception, on any two storages
    that differ only in that entry. *)
Theorem loader_skips_unneeded_tensor `{TorchSort} `{Runtime}
    (self : GPTQMarlinWeightsLoader.t) (weights weights' : Weights)
    (prefix skipped : string) :
  (skipped = ".qzeros" /\ GPTQMarlinWeightsLoader.sym self = true)
  \/ (skipped = ".g_idx" /\ GPTQMarlinWeightsLoader.quant_method self = "awq") ->
  (forall name, name <> prefix +:+ skipped ->
                tensors weights' !! name = tensors weights !! name) ->
  slice_of_rank weights' = slice_of_rank weights ->
  process_group_size weights' = process_group_size weights ->
  GPTQMarlinWeightsLoader.get_weights self weights' prefix
  = GPTQMarlinWeightsLoader.get_weights self weights prefix
  /\ GPTQMarlinWeightsLoader.get_weights_row self weights' prefix
     = GPTQMarlinWeightsLoader.get_weights_row self weights prefix.
Proof.
  intros Hsk Hsame Hslice Hsize.
  assert (Hget : forall suffix, suffix <> skipped ->
             get_tensor weights' (prefix +:+ suffix)
             = get_tensor weights (prefix +:+ suffix)).
  { intros suffix Hne. unfold get_tensor. rewrite Hsame; [reflexivity|].
    intros Heq. apply Hne. exact (append_inj_l _ _ _ Heq). }
  assert (Hsh : forall suffix dim, suffix <> skipped ->
             get_sharded weights' (prefix +:+ suffix) dim
             = get_sharded weights (prefix +:+ suffix) dim).
  { intros suffix dim Hne. unfold get_sharded.
    rewrite (Hget suffix Hne), Hslice. reflexivity. }
  unfold GPTQMarlinWeightsLoader.get_weights,
    GPTQMarlinWeightsLoader.get_weights_row.
  rewrite Hsize.
  destruct Hsk as [(-> & Hs) | (-> & Ha)].
  - rewrite Hs. cbn [negb].
    rewrite !(Hget ".qweight"), !(Hget ".g_idx"), !(Hget ".scales"),
      !(Hsh ".qweight"), !(Hsh ".g_idx"), !(Hsh ".scales") by discriminate.
    split; reflexivity.
  - rewrite Ha. change (String.eqb "awq" "awq") with true. cbn iota.
    rewrite !(Hget ".qweight"), !(Hget ".qzeros"), !(Hget ".scales"),
      !(Hsh ".qweight"), !(Hsh ".qzeros"), !(Hsh ".scales") by discriminate.
    split; reflexivity.
Qed.

(** The complete GPTQ checkpoint with a stray [layer.qzeros] entry. *)
Definition storage_gptq_with_qzeros : Weights :=
  {| tensors := <[ "layer.qzeros" := Examples.qzeros_1x8 ]>
                (tensors Examples.storage_gptq);
     slice_of_rank := slice_of_rank Examples.storage_gptq;
     packed_slice_of_rank := packed_slice_of_rank Examples.storage_gptq;
     weights_dtype := weights_dtype Examples.storage_gptq;
     process_group_size := process_group_size Examples.storage_gptq |}.

Lemma loader_skips_unneeded_tensor_witness :
  @GPTQMarlinWeightsLoader.get_weights Reference.stable_sort
    Reference.runtime Examples.loader_gptq storage_gptq_with_qzeros "layer"
  = @GPTQMarlinWeightsLoader.get_weights Reference.stable_sort
      Reference.runtime Examples.loader_gptq Examples.storage_gptq "layer".
Proof.
  apply (proj1 (@loader_skips_unneeded_tensor Reference.stable_sort
    Reference.runtime Examples.loader_gptq Examples.storage_gptq
    storage_gptq_with_qzeros "layer" ".qzeros"
    (or_introl (conj eq_refl eq_refl))
    (fun name Hne => lookup_insert_ne _ _ _ _ (not_eq_sym Hne))
    eq_refl eq_refl)).
Defined.
